(** * The change-event synchronization engine of digital-discovery

    A shallow embedding of the Go sources of the sync service
    (sync/services, sync/consumers, sync/models, sync/utils) and the
    properties of its dispatcher, retry engine, bulk buffer, index
    naming and consumer loop; then of the repository under the service
    (sync/repositories/elasticsearch) and of the category endpoints
    over it (package main), with the properties of the whole path.

    Conventions of the embedding:
    - a Go [string] is a [string]; [int], [int64] and [time.Duration]
      (nanoseconds) are [Z]; [float64] is the primitive binary64 [float];
    - a Go [error] value is [option error], [None] being [nil];
    - everything the service does to the outside (requests to the
      document store, log lines, metrics, waits, offset marks) is
      appended to a trace of events, as is each entry into
      [ProcessCategoryOperation], so that invocations can be counted;
    - everything the outside decides (store replies, the clock, the
      random source, which case of a [select] fires, what the JSON
      decoder returns) is read from an environment of oracles that see
      the trace so far. *)

From Stdlib Require Import ZArith List String Ascii Bool Lia.
From Stdlib Require Import DecimalString QArith Qminmax Floats.
Import ListNotations.

Open Scope string_scope.
Open Scope Z_scope.

(** ** Formatting helpers of the Go library ([fmt], [strconv]) *)

(** [%d] of [fmt.Sprintf]. *)
Definition itoa (z : Z) : string := NilZero.string_of_int (Z.to_int z).

Fixpoint zeros (n : nat) : string :=
  match n with
  | O => ""
  | S n' => String "0" (zeros n')
  end.

(** [appendInt] of package time: the decimal digits of [x], zero-padded
    on the left to [width] digits, after a minus sign when [x < 0]. *)
Definition appendInt (x : Z) (width : nat) : string :=
  let digits := itoa (Z.abs x) in
  let padded := zeros (width - String.length digits) ++ digits in
  if x <? 0 then "-" ++ padded else padded.

(** ** package utils: errors *)

Module utils.

(** A Go [error]: a [*SyncError] with its six fields, or any other
    error value (library errors, [ctx.Err()]), kept by its text. *)
#[warnings="-register-all"]
Inductive error : Type :=
| SyncError (Code Message : string) (Err : option error)
            (StatusCode : Z) (Operation Entity : string)
| GoError (text : string).

Definition ErrCodeKafkaDeserialize := "SYNC_KAFKA_003".
Definition ErrCodeESConnection := "SYNC_ES_001".
Definition ErrCodeESIndex := "SYNC_ES_002".
Definition ErrCodeInvalidPayload := "SYNC_DATA_001".
Definition ErrCodeDataTransform := "SYNC_DATA_003".
Definition ErrCodeRetryExhausted := "SYNC_RETRY_001".

Definition NewSyncError (code msg : string) (err : option error)
    (operation entity : string) : error :=
  SyncError code msg err 0 operation entity.

Definition NewESIndexError (msg : string) (err : option error) : error :=
  SyncError ErrCodeESIndex msg err 500 "index" "elasticsearch".

Definition IsRetryableError (err : error) : bool :=
  match err with
  | SyncError code _ _ _ _ _ =>
      if (code =? ErrCodeESIndex)%string then true
      else if (code =? ErrCodeESConnection)%string then true
      else if (code =? ErrCodeKafkaDeserialize)%string then true
      else false
  | GoError _ => false
  end.

(** The [Code] field when the error is a [*SyncError]. *)
Definition codeOf (err : error) : option string :=
  match err with
  | SyncError code _ _ _ _ _ => Some code
  | GoError _ => None
  end.

(** The [Err] field (the wrapped cause) when the error is a [*SyncError]. *)
Definition causeOf (err : error) : option error :=
  match err with
  | SyncError _ _ cause _ _ _ => cause
  | GoError _ => None
  end.

End utils.

(** ** package time, as far as the service reads it *)

Module time.

(** A [time.Time]: an instant (seconds and nanoseconds since the Unix
    epoch) presented in a zone [offset] seconds east of UTC. *)
Record Time := { sec : Z; nsec : Z; offset : Z }.

Definition zero : Time := {| sec := -62135596800; nsec := 0; offset := 0 |}.

(** Days since 1970-01-01 of the civil date the time presents. *)
Definition civilDay (t : Time) : Z := (sec t + offset t) / 86400.

(** Year and month (1..12) of a day count in the proleptic Gregorian
    calendar, computed on 400-year eras that start on March 1st. *)
Definition yearMonthOfDay (days : Z) : Z * Z :=
  let z := days + 719468 in
  let era := z / 146097 in
  let doe := z - era * 146097 in
  let yoe := (doe - doe / 1460 + doe / 36524 - doe / 146096) / 365 in
  let doy := doe - (365 * yoe + yoe / 4 - yoe / 100) in
  let mp := (5 * doy + 2) / 153 in
  let m := if mp <? 10 then mp + 3 else mp - 9 in
  let y := yoe + era * 400 in
  (if m <=? 2 then y + 1 else y, m).

Definition Year (t : Time) : Z := fst (yearMonthOfDay (civilDay t)).
Definition Month (t : Time) : Z := snd (yearMonthOfDay (civilDay t)).

(** [t.Format("2006-01")]: the year on at least four digits, a dash,
    the month on two digits. *)
Definition Format_2006_01 (t : Time) : string :=
  appendInt (Year t) 4 ++ "-" ++ appendInt (Month t) 2.

(** [t.Add(d)] for a duration of [d] nanoseconds. *)
Definition Add (t : Time) (d : Z) : Time :=
  let n := nsec t + d in
  {| sec := sec t + n / 1000000000; nsec := n mod 1000000000;
     offset := offset t |}.

(** [t.Sub(u)] in nanoseconds, saturating at the bounds of [int64]. *)
Definition Sub (t u : Time) : Z :=
  let d := (sec t - sec u) * 1000000000 + (nsec t - nsec u) in
  Z.max (- 2 ^ 63) (Z.min (2 ^ 63 - 1) d).

End time.

(** ** package models *)

Module models.

Definition SyncStatusT := string.
Definition SyncStatusPending : SyncStatusT := "PENDING".
Definition SyncStatusSuccess : SyncStatusT := "SUCCESS".
Definition SyncStatusFailed : SyncStatusT := "FAILED".
Definition SyncStatusRetrying : SyncStatusT := "RETRYING".

Definition OperationCreate := "CREATE".
Definition OperationUpdate := "UPDATE".
Definition OperationDelete := "DELETE".

Record Category := {
  ID : string;
  Name : string;
  Description : string;
  Status : Z;
  CreatedAt : time.Time;
  UpdatedAt : time.Time;
  Version : Z;
  SyncStatus : SyncStatusT;
  LastSync : time.Time
}.

Record CategoryOperation := {
  Operation : string;
  Payload : Category;
  Timestamp : time.Time
}.

Definition IsValidOperation (op : string) : bool :=
  if (op =? OperationCreate)%string then true
  else if (op =? OperationUpdate)%string then true
  else if (op =? OperationDelete)%string then true
  else false.

(** [category.SyncStatus = s] on the callee's copy of the struct. *)
Definition setSyncStatus (s : SyncStatusT) (c : Category) : Category :=
  {| ID := ID c; Name := Name c; Description := Description c;
     Status := Status c; CreatedAt := CreatedAt c; UpdatedAt := UpdatedAt c;
     Version := Version c; SyncStatus := s; LastSync := LastSync c |}.

(** [category.LastSync = t] on the callee's copy of the struct. *)
Definition setLastSync (t : time.Time) (c : Category) : Category :=
  {| ID := ID c; Name := Name c; Description := Description c;
     Status := Status c; CreatedAt := CreatedAt c; UpdatedAt := UpdatedAt c;
     Version := Version c; SyncStatus := SyncStatus c; LastSync := t |}.

Record IndexNaming := {
  Environment : string;
  Service : string;
  Entity : string;
  Date : time.Time
}.

Definition GetIndexName (n : IndexNaming) : string :=
  Environment n ++ "-" ++ Service n ++ "-" ++ Entity n ++ "-"
    ++ time.Format_2006_01 (Date n).

Definition GetAliasName (n : IndexNaming) : string :=
  Environment n ++ "-" ++ Service n ++ "-" ++ Entity n.

End models.

(** ** package config: the fields the engine reads *)

Module config.

Record AppConfig := { Environment : string }.

Record CustomConfig := {
  BatchSize : Z;
  MaxRetries : Z;
  RetryDelay : Z;
  MaxRetryDelay : Z;
  BackoffFactor : float
}.

Record SyncConfig := { Custom : CustomConfig }.

Record Config := { App : AppConfig; Sync : SyncConfig }.

End config.

(** ** package services: the dispatcher, the bulk buffer, the retry engine *)

Module services.

Import utils.
Import models.

(** *** What the service exchanges with the outside *)

(** The body handed to the document store: the JSON text is kept as the
    value [mustJSON] serialises. ([mustJSON] panics when [json.Marshal]
    fails, which for these values takes a time that RFC 3339 cannot
    print, such as a year outside 0..9999; the times decoded from JSON
    and read from the clock can be printed, and the embedding covers
    those.) *)
Inductive Body :=
| DocBody (doc : Category)      (* mustJSON(category) *)
| UpsertBody (doc : Category).  (* mustJSON({"doc": category, "doc_as_upsert": true}) *)

(** One line of a bulk request. *)
Inductive BulkLine :=
| ActionLine (action index id : string)  (* {action: {"_index": index, "_id": id}} *)
| PayloadLine (payload : Body).

(** The calls on [elasticsearch.Repository] the engine makes. *)
Inductive Request :=
| Index (index id : string) (body : Body)
| Update (index id : string) (body : Body)
| Delete (index id : string)
| Bulk (body : list BulkLine).

(** Which case of the [select] in [RetryWithBackoff] fires. *)
Inductive WaitOutcome := CtxDone | TimerFired.

Inductive Event :=
| EvInvoke (operation : option CategoryOperation)
    (* entry into ProcessCategoryOperation *)
| EvRequest (r : Request) (reply : option error)
| EvLog (msg : string)                       (* logger.Info, logger.Error *)
| EvLogError (err : error) (msg : string)    (* logger.WithError *)
| EvOperationMetric (operation status : string) (errorCount : Z)
| EvErrorMetric (operation : string) (count : Z)
| EvBulkMetric (size : Z) (hasError : bool)
| EvWait (delay : option Z) (outcome : WaitOutcome)
| EvMark (topic : string) (partition offset : Z).

(** The environment: how the outside answers, given what happened so far. *)
Record Env := {
  esClient : list Event -> Request -> option error;
  timeNow : list Event -> time.Time;
  randFloat64 : list Event -> float;
  mathPow : float -> float -> float;
  selectWait : list Event -> option Z -> WaitOutcome;
  ctxErr : error;
  encodeErr : BulkLine -> option error
}.

(** The [SyncService] fields that change ([bulkBuffer], and whether
    [mu] is held), with the trace of events so far. *)
Record State := {
  trace : list Event;
  bulkBuffer : list CategoryOperation;
  mu : bool
}.

Definition emit (e : Event) (s : State) : State :=
  {| trace := trace s ++ [e]; bulkBuffer := bulkBuffer s; mu := mu s |}.

Definition setBuffer (b : list CategoryOperation) (s : State) : State :=
  {| trace := trace s; bulkBuffer := b; mu := mu s |}.

Definition setMu (held : bool) (s : State) : State :=
  {| trace := trace s; bulkBuffer := bulkBuffer s; mu := held |}.

(** [err.Error()]. *)
Fixpoint errorString (e : error) : string :=
  match e with
  | SyncError code msg (Some cause) _ operation entity =>
      "[" ++ code ++ "] " ++ msg ++ ": " ++ errorString cause
        ++ " (operation: " ++ operation ++ ", entity: " ++ entity ++ ")"
  | SyncError code msg None _ operation entity =>
      "[" ++ code ++ "] " ++ msg
        ++ " (operation: " ++ operation ++ ", entity: " ++ entity ++ ")"
  | GoError text => text
  end.

Section Service.

Variable env : Env.
Variable cfg : config.Config.

(** *** Validation *)

Definition validateCategoryFields (category : Category) : option error :=
  if (Name category =? "")%string then
    Some (NewSyncError ErrCodeInvalidPayload "Missing category name" None
            "VALIDATE" "category")
  else if (Description category =? "")%string then
    Some (NewSyncError ErrCodeInvalidPayload "Missing category description" None
            "VALIDATE" "category")
  else None.

Definition validateOperation (operation : CategoryOperation) : option error :=
  if (ID (Payload operation) =? "")%string then
    Some (NewSyncError ErrCodeInvalidPayload "Missing category ID" None
            (Operation operation) "category")
  else if ((Operation operation =? OperationCreate)%string
           || (Operation operation =? OperationUpdate)%string)%bool then
    match validateCategoryFields (Payload operation) with
    | Some err => Some err
    | None => None
    end
  else None.

(** *** Single-document writes *)

Definition getCurrentIndexName (entity : string) (s : State) : string :=
  config.Environment (config.App cfg) ++ "-" ++ "digital-discovery" ++ "-"
    ++ entity ++ "-" ++ time.Format_2006_01 (timeNow env (trace s)).

(** A call on the store: the reply is the environment's, and the call
    with its reply joins the trace. *)
Definition call (r : Request) (s : State) : option error * State :=
  let reply := esClient env (trace s) r in
  (reply, emit (EvRequest r reply) s).

Definition createCategory (indexName : string) (category : Category)
    (s : State) : option error * State :=
  let category := setSyncStatus SyncStatusSuccess category in
  let category := setLastSync (timeNow env (trace s)) category in
  let (err, s) := call (Index indexName (ID category) (DocBody category)) s in
  match err with
  | Some e => (Some (NewESIndexError "Failed to index category" (Some e)), s)
  | None => (None, s)
  end.

Definition updateCategory (indexName : string) (category : Category)
    (s : State) : option error * State :=
  let category := setSyncStatus SyncStatusSuccess category in
  let category := setLastSync (timeNow env (trace s)) category in
  let (err, s) := call (Update indexName (ID category) (UpsertBody category)) s in
  match err with
  | Some e => (Some (NewESIndexError "Failed to update category" (Some e)), s)
  | None => (None, s)
  end.

Definition deleteCategory (indexName : string) (id : string)
    (s : State) : option error * State :=
  let (err, s) := call (Delete indexName id) s in
  match err with
  | Some e => (Some (NewESIndexError "Failed to delete category" (Some e)), s)
  | None => (None, s)
  end.

Definition processOperation (indexName : string) (operation : CategoryOperation)
    (s : State) : option error * State :=
  if (Operation operation =? OperationCreate)%string then
    createCategory indexName (Payload operation) s
  else if (Operation operation =? OperationUpdate)%string then
    updateCategory indexName (Payload operation) s
  else if (Operation operation =? OperationDelete)%string then
    deleteCategory indexName (ID (Payload operation)) s
  else
    (Some (NewSyncError ErrCodeInvalidPayload "Invalid operation" None
             (Operation operation) "category"), s).

(** The deferred function of [ProcessCategoryOperation]:
    [logOperationMetrics], [recordOperationResult], [RecordOperation]. *)
Definition recordMetrics (operation : CategoryOperation) (status : string)
    (errorCount : Z) (s : State) : State :=
  let s := emit (EvLog "Operation metrics") s in
  let s := if (status =? "FAILED")%string
           then emit (EvErrorMetric (Operation operation) errorCount) s
           else s in
  let s := emit (EvLog "Recording operation result") s in
  emit (EvOperationMetric (Operation operation) status errorCount) s.

Definition ProcessCategoryOperation (operation : option CategoryOperation)
    (s : State) : option error * State :=
  let s := emit (EvInvoke operation) s in
  match operation with
  | None =>
      (Some (NewSyncError ErrCodeInvalidPayload "Operation cannot be nil" None
               "VALIDATE" "category"), s)
  | Some operation =>
      match validateOperation operation with
      | Some err =>
          (Some err, emit (EvLogError err "Operation validation failed") s)
      | None =>
          let s := emit (EvLog "Starting category operation") s in
          let indexName := getCurrentIndexName "categories" s in
          if ((Operation operation =? OperationCreate)%string
              || (Operation operation =? OperationUpdate)%string
              || (Operation operation =? OperationDelete)%string)%bool then
            let (err, s) := processOperation indexName operation s in
            match err with
            | Some e =>
                let s := emit (EvLogError e "Operation failed") s in
                (Some e, recordMetrics operation "FAILED" 1 s)
            | None =>
                let s := emit (EvLog "Operation completed successfully") s in
                (None, recordMetrics operation "SUCCESS" 0 s)
            end
          else
            (Some (NewSyncError ErrCodeInvalidPayload
                     ("Unknown operation: " ++ Operation operation) None
                     (Operation operation) "category"),
             recordMetrics operation "FAILED" 1 s)
      end
  end.

(** *** The retry engine *)

(** [float64(x)] for an integer [x]: the nearest binary64 value, ties to
    even. *)
Definition float64_of_int (x : Z) : float :=
  SF2Prim (binary_normalize prec emax x 0 false).

(** The integer part of [m * 2 ^ e]. *)
Definition magnitude (m : positive) (e : Z) : Z :=
  if 0 <=? e then Z.pos m * 2 ^ e else Z.pos m / 2 ^ (- e).

(** [int64(f)], [time.Duration(f)]: the fraction is discarded. [None]
    when [f] is a NaN, an infinity or out of the range of [int64]; the
    language leaves the value of these conversions to the
    implementation. The float is read through its sign, mantissa and
    exponent, [m * 2 ^ e]. *)
Definition int64_of_SF (x : spec_float) : option Z :=
  match x with
  | S754_zero _ => Some 0
  | S754_finite sign m e =>
      let z := if sign then - magnitude m e else magnitude m e in
      if ((- 2 ^ 63 <=? z) && (z <? 2 ^ 63))%bool then Some z else None
  | S754_infinity _ | S754_nan => None
  end.

Definition int64_of_float64 (f : float) : option Z := int64_of_SF (Prim2SF f).

(** Each float64 operation is rounded on its own, as the compiler does
    where it has no fused multiply-add (amd64). *)
Definition calculateNextDelay (attempt : Z) (baseDelay : Z) (s : State)
    : option Z :=
  let maxRetryDelay := config.MaxRetryDelay (config.Custom (config.Sync cfg)) in
  let backoffFactor := config.BackoffFactor (config.Custom (config.Sync cfg)) in
  (* Calculate exponential delay *)
  let delay := (float64_of_int baseDelay
                * mathPow env backoffFactor (float64_of_int attempt))%float in
  (* Add jitter: rand.Float64()*0.4 - 0.2, the constants being the
     binary64 values nearest to 0.4 and 0.2 *)
  let jitter := (randFloat64 env (trace s) * 0x1.999999999999ap-2
                 - 0x1.999999999999ap-3)%float in
  let delay := (delay * (1 + jitter))%float in
  (* Ensure delay doesn't exceed max *)
  let delay := if (float64_of_int maxRetryDelay <? delay)%float
               then float64_of_int maxRetryDelay else delay in
  int64_of_float64 delay.

Record RetryAttempt := {
  Attempt : Z;
  Error : option error;
  Timestamp : time.Time;
  NextRetry : option time.Time;  (* [None]: the zero time, or a delay left
                                    to the implementation *)
  Duration : Z
}.

Record RetryHistory := {
  OperationID : string;
  HistoryEntity : string;
  HistoryOperation : string;
  Attempts : list RetryAttempt;
  HistoryStatus : string
}.

Definition setStatus (status : string) (h : RetryHistory) : RetryHistory :=
  {| OperationID := OperationID h; HistoryEntity := HistoryEntity h;
     HistoryOperation := HistoryOperation h;
     Attempts := Attempts h; HistoryStatus := status |}.

Definition appendAttempt (a : RetryAttempt) (h : RetryHistory) : RetryHistory :=
  {| OperationID := OperationID h; HistoryEntity := HistoryEntity h;
     HistoryOperation := HistoryOperation h;
     Attempts := Attempts h ++ [a]; HistoryStatus := HistoryStatus h |}.

(** How a call ends: it returns an error value; it panics; it never
    returns because it waits for a mutex that nobody will release; or
    the recursion of the model ran out of [fuel] (which
    [RetryWithBackoff] never does, see [retryLoop_run]). *)
Inductive Result :=
| Return (err : option error)
| Panic (msg : string)
| Blocks
| OutOfFuel.

(** The [for attempt < MaxRetries] loop. It yields the value to return
    and the history, or [None] when [fuel] iterations did not reach
    a [return]. *)
Fixpoint retryLoop (fuel : nat) (operation : CategoryOperation) (attempt : Z)
    (lastErr : option error) (history : RetryHistory) (s : State)
    : option (option error * RetryHistory * State) :=
  match fuel with
  | O => None
  | S fuel =>
      let maxRetries := config.MaxRetries (config.Custom (config.Sync cfg)) in
      let baseDelay := config.RetryDelay (config.Custom (config.Sync cfg)) in
      if attempt <? maxRetries then
        let delay := calculateNextDelay attempt baseDelay s in
        let attemptStart := timeNow env (trace s) in
        let (err, s) := ProcessCategoryOperation (Some operation) s in
        let retryAttempt :=
          {| Attempt := attempt + 1; Error := err; Timestamp := attemptStart;
             NextRetry := None;
             Duration := time.Sub (timeNow env (trace s)) attemptStart |} in
        match err with
        | None =>
            (* Success *)
            let history := setStatus "SUCCESS" history in
            let history := appendAttempt retryAttempt history in
            let s := emit (EvLog "Retry sequence completed") s in
            Some (None, history, s)
        | Some e =>
            (* Handle failure *)
            let lastErr := Some e in
            let attempt := attempt + 1 in
            let nextRetry := option_map (time.Add (timeNow env (trace s))) delay in
            let retryAttempt :=
              {| Attempt := Attempt retryAttempt; Error := Error retryAttempt;
                 Timestamp := Timestamp retryAttempt; NextRetry := nextRetry;
                 Duration := Duration retryAttempt |} in
            let history := appendAttempt retryAttempt history in
            let s := emit (EvLogError e "Retry attempt failed") s in
            let outcome := selectWait env (trace s) delay in
            let s := emit (EvWait delay outcome) s in
            match outcome with
            | CtxDone => Some (Some (ctxErr env), setStatus "CANCELLED" history, s)
            | TimerFired => retryLoop fuel operation attempt lastErr history s
            end
        end
      else
        (* All retries failed *)
        Some (Some (NewSyncError ErrCodeRetryExhausted
                      ("Max retries (" ++ itoa maxRetries ++ ") reached")
                      lastErr (Operation operation) "category"),
              setStatus "FAILED" history, s)
  end.

(** [recordFailedAttempt] reads the last attempt and its error. *)
Definition recordFailedAttempt (history : RetryHistory) (s : State)
    : option string * State :=
  match last (map Some (Attempts history)) None with
  | None => (Some "index out of range [-1]", s)
  | Some lastAttempt =>
      match Error lastAttempt with
      | None => (Some "nil pointer dereference", s)
      | Some _ => (None, emit (EvLog "Recording failed retry attempt") s)
      end
  end.

(** The deferred [cleanup]: a panic in it replaces the value returned. *)
Definition cleanup (ret : option error) (history : RetryHistory) (s : State)
    : Result * State :=
  if (HistoryStatus history =? "FAILED")%string then
    match recordFailedAttempt history s with
    | (Some msg, s) => (Panic msg, s)
    | (None, s) => (Return ret, s)
    end
  else (Return ret, s).

(** The history [RetryWithBackoff] starts from. *)
Definition newHistory (operation : CategoryOperation) : RetryHistory :=
  {| OperationID := ID (Payload operation); HistoryEntity := "category";
     HistoryOperation := Operation operation; Attempts := [];
     HistoryStatus := "IN_PROGRESS" |}.

Definition RetryWithBackoff (operation : CategoryOperation) (s : State)
    : Result * State :=
  let history := newHistory operation in
  let maxRetries := config.MaxRetries (config.Custom (config.Sync cfg)) in
  let s := emit (EvLog "Starting retry sequence") s in
  match retryLoop (S (Z.to_nat maxRetries)) operation 0 None history s with
  | None => (OutOfFuel, s)
  | Some (ret, history, s) => cleanup ret history s
  end.

Definition RetryOperation (operation : CategoryOperation) (s : State)
    : Result * State :=
  RetryWithBackoff operation s.

(** *** The bulk buffer *)

(** The [switch] that picks the action of a buffered operation; [None]
    is its [default: continue]. *)
Definition bulkAction (operation : string) : option string :=
  if (operation =? OperationCreate)%string then Some "index"
  else if (operation =? OperationUpdate)%string then Some "update"
  else if (operation =? OperationDelete)%string then Some "delete"
  else None.

(** The [for _, op := range s.bulkBuffer] loop that fills [buf]; [inl]
    is the error of its early [return]. *)
Fixpoint encodeBulk (ops : list CategoryOperation) (s : State)
    (buf : list BulkLine) : error + list BulkLine :=
  match ops with
  | [] => inr buf
  | op :: rest =>
      match bulkAction (Operation op) with
      | None => encodeBulk rest s buf
      | Some action =>
          let actionLine :=
            ActionLine action (getCurrentIndexName "categories" s)
                       (ID (Payload op)) in
          match encodeErr env actionLine with
          | Some err =>
              inl (GoError ("failed to encode action line: " ++ errorString err))
          | None =>
              let buf := (buf ++ [actionLine])%list in
              (* Add payload line for non-delete operations *)
              if negb (Operation op =? OperationDelete)%string then
                let payload :=
                  if (Operation op =? OperationUpdate)%string
                  then UpsertBody (Payload op) else DocBody (Payload op) in
                match encodeErr env (PayloadLine payload) with
                | Some err =>
                    inl (GoError ("failed to encode payload: " ++ errorString err))
                | None => encodeBulk rest s (buf ++ [PayloadLine payload])%list
                end
              else encodeBulk rest s buf
          end
      end
  end.

Definition processBulkOperations (s : State) : Result * State :=
  if mu s then (Blocks, s)              (* s.mu.Lock() on a held mutex *)
  else
    let s := setMu true s in            (* s.mu.Lock(); defer s.mu.Unlock() *)
    match bulkBuffer s with
    | [] => (Return None, setMu false s)
    | _ :: _ =>
        let bufferSize := Z.of_nat (List.length (bulkBuffer s)) in
        match encodeBulk (bulkBuffer s) s [] with
        | inl err =>
            let s := emit (EvBulkMetric bufferSize true) s in
            (Return (Some err), setMu false s)
        | inr buf =>
            let (err, s) := call (Bulk buf) s in
            match err with
            | Some e =>
                let s := emit (EvBulkMetric bufferSize true) s in
                (Return (Some (NewESIndexError "Bulk operation failed" (Some e))),
                 setMu false s)
            | None =>
                let s := emit (EvBulkMetric bufferSize false) s in
                let s := setBuffer [] s in
                (Return None, setMu false s)
            end
        end
    end.

Definition canBulkOperation (operation : CategoryOperation) : bool :=
  IsValidOperation (Operation operation).

Definition FlushBulkBuffer (s : State) : Result * State :=
  match processBulkOperations s with
  | (Return (Some err), s) =>
      (Return (Some err), emit (EvLogError err "Failed to flush bulk buffer") s)
  | other => other
  end.

Definition AddToBulkBuffer (operation : CategoryOperation) (s : State)
    : Result * State :=
  if negb (canBulkOperation operation) then
    (Return (Some (NewSyncError ErrCodeInvalidPayload
                     "Operation not supported for bulk processing" None
                     (Operation operation) "category")), s)
  else if mu s then (Blocks, s)         (* s.mu.Lock() on a held mutex *)
  else
    let s := setMu true s in            (* s.mu.Lock(); defer s.mu.Unlock() *)
    let s := setBuffer (bulkBuffer s ++ [operation])%list s in
    (* Auto-flush if buffer is full *)
    if config.BatchSize (config.Custom (config.Sync cfg))
         <=? Z.of_nat (List.length (bulkBuffer s)) then
      match FlushBulkBuffer s with
      | (Return err, s) => (Return err, setMu false s)
      | other => other
      end
    else (Return None, setMu false s).

End Service.

End services.

(** ** package consumers: the claim loop and the event decoder *)

Module consumers.

Import utils.
Import services.

Definition RawMessage := string.

(** [DebeziumEvent], with the one field of [source] that is read. *)
Record EventSource := { Timestamp : Z }.

Record EventPayload := {
  Before : RawMessage;
  After : RawMessage;
  Source : EventSource;
  Op : string
}.

Record DebeziumEvent := { Payload : EventPayload }.

(** A [sarama.ConsumerMessage]. *)
Record ConsumerMessage := {
  Topic : string;
  Partition : Z;
  Offset : Z;
  Value : string
}.

(** What [json.Unmarshal] makes of a message value and of an entity
    snapshot, and the zone of [time.Unix]. *)
Record Decoder := {
  unmarshalEvent : string -> error + DebeziumEvent;
  unmarshalCategory : RawMessage -> error + models.Category;
  localOffset : Z
}.

(** What the [select] of [ConsumeClaim] receives: a message from
    [claim.Messages()] ([None] when the channel is closed), or the end of
    the session's context. *)
Inductive ClaimInput :=
| Received (message : option ConsumerMessage)
| SessionDone.

(** [x * y] on [int64]. *)
Definition mulInt64 (x y : Z) : Z :=
  (x * y + 2 ^ 63) mod 2 ^ 64 - 2 ^ 63.

(** [time.Unix(0, nsec)]. *)
Definition Unix0 (offset nsec : Z) : time.Time :=
  {| time.sec := nsec / 1000000000; time.nsec := nsec mod 1000000000;
     time.offset := offset |}.

Section Handler.

Variable env : Env.
Variable cfg : config.Config.
Variable dec : Decoder.

Definition validateMessage (event : DebeziumEvent) : option error :=
  if Timestamp (Source (Payload event)) =? 0 then
    Some (NewSyncError ErrCodeInvalidPayload "Missing timestamp in event" None
            "VALIDATE" "message")
  else if (Op (Payload event) =? "")%string then
    Some (NewSyncError ErrCodeInvalidPayload "Missing operation in event" None
            "VALIDATE" "message")
  else None.

Definition mapOperation (op : string) : string :=
  if (op =? "c")%string then "CREATE"
  else if (op =? "u")%string then "UPDATE"
  else if (op =? "d")%string then "DELETE"
  else "UNKNOWN".

(** The [switch operation] of [processMessage]: the entity snapshot of
    the operation, or the error returned. *)
Definition decodeCategory (operation : string) (event : DebeziumEvent)
    : error + models.Category :=
  if ((operation =? models.OperationCreate)%string
      || (operation =? models.OperationUpdate)%string)%bool then
    match unmarshalCategory dec (After (Payload event)) with
    | inl err =>
        inl (NewSyncError ErrCodeDataTransform "Failed to unmarshal category"
               (Some err) operation "category")
    | inr category => inr category
    end
  else if (operation =? models.OperationDelete)%string then
    match unmarshalCategory dec (Before (Payload event)) with
    | inl err =>
        inl (NewSyncError ErrCodeDataTransform "Failed to unmarshal category"
               (Some err) operation "category")
    | inr category => inr category
    end
  else
    inl (NewSyncError ErrCodeInvalidPayload ("Unknown operation: " ++ operation)
           None operation "category").

Definition processMessage (message : ConsumerMessage) (s : State)
    : Result * State :=
  match unmarshalEvent dec (Value message) with
  | inl err =>
      (Return (Some (NewSyncError ErrCodeKafkaDeserialize "Invalid message format"
                       (Some err) "DESERIALIZE" "message")), s)
  | inr event =>
      match validateMessage event with
      | Some err => (Return (Some err), s)
      | None =>
          let operation := mapOperation (Op (Payload event)) in
          match decodeCategory operation event with
          | inl err => (Return (Some err), s)
          | inr category =>
              let categoryOp :=
                {| models.Operation := operation;
                   models.Payload := category;
                   models.Timestamp :=
                     Unix0 (localOffset dec)
                       (mulInt64 (Timestamp (Source (Payload event))) 1000000) |} in
              let (err, s) := ProcessCategoryOperation env cfg (Some categoryOp) s in
              match err with
              | Some e =>
                  (* If the error is retryable, attempt retry *)
                  if IsRetryableError e then RetryOperation env cfg categoryOp s
                  else (Return (Some e), s)
              | None => (Return None, s)
              end
          end
      end
  end.

(** The [for { select { ... } }] loop of [ConsumeClaim] over what the
    select receives; [None] when the inputs end while the loop still
    waits. *)
Fixpoint ConsumeClaim (inputs : list ClaimInput) (s : State)
    : option Result * State :=
  match inputs with
  | [] => (None, s)
  | SessionDone :: _ => (Some (Return None), s)
  | Received None :: _ => (Some (Return None), s)
  | Received (Some message) :: rest =>
      let s := emit (EvLog "Processing message") s in
      let (r, s) := processMessage message s in
      match r with
      | Return (Some err) =>
          let s := emit (EvLogError err "Failed to process message") s in
          ConsumeClaim rest s           (* continue *)
      | Return None =>
          let s := emit (EvMark (Topic message) (Partition message)
                                (Offset message)) s in
          ConsumeClaim rest s
      | other => (Some other, s)
      end
  end.

End Handler.

End consumers.

(** ** package elasticsearch: the repository over the HTTP client *)

Module elasticsearch.

Import utils.
Import services.

(** An [esapi.Response], as far as the repository reads it. *)
Record Response := {
  StatusCode : Z;
  StatusLine : string;    (* res.Status() *)
  Text : string;          (* res.String() *)
  ResponseBody : string   (* io.ReadAll(res.Body) *)
}.

(** [res.IsError()] of esapi: a status above 299. *)
Definition IsError (res : Response) : bool := 299 <? StatusCode res.

(** The queries the service builds for [Search]. *)
Inductive Query :=
| TermID (id : string)   (* {"query": {"term": {"_id": id}}} *)
| MatchAll               (* {"query": {"match_all": {}}} *)
| SizeZero.              (* {"size": 0} *)

(** The HTTP client under the repository: what [req.Do] returns for a
    write and for a search, given what happened so far, and what the
    JSON decoder makes of a search response (the [_source] of each hit,
    in order). *)
Record Client := {
  do : list Event -> Request -> error + Response;
  doSearch : list Event -> string -> Query -> error + Response;
  decodeHits : string -> error + list string
}.

Section Repository.

Variable client : Client.
Variable tr : list Event.

(** Each write returns its error value and the requests it handed to
    the client. *)
Definition Index (index id : string) (body : Body) : option error * list Request :=
  if ((index =? "")%string || (id =? "")%string)%bool then
    (Some (GoError "index and id cannot be empty"), [])
  else
    let req := services.Index index id body in
    match do client tr req with
    | inl err =>
        (Some (GoError ("failed to execute index request: " ++ errorString err)),
         [req])
    | inr res =>
        if IsError res then
          (Some (GoError ("index error: status=" ++ StatusLine res
                          ++ " body=" ++ ResponseBody res)), [req])
        else (None, [req])
    end.

Definition Update (index id : string) (body : Body) : option error * list Request :=
  let req := services.Update index id body in
  match do client tr req with
  | inl err =>
      (Some (GoError ("failed to execute update request: " ++ errorString err)),
       [req])
  | inr res =>
      if IsError res then (Some (GoError ("update error: " ++ Text res)), [req])
      else (None, [req])
  end.

Definition Delete (index id : string) : option error * list Request :=
  let req := services.Delete index id in
  match do client tr req with
  | inl err =>
      (Some (GoError ("failed to execute delete request: " ++ errorString err)),
       [req])
  | inr res =>
      if (IsError res && negb (StatusCode res =? 404))%bool then
        (Some (GoError ("delete error: " ++ Text res)), [req])
      else (None, [req])
  end.

Definition Bulk (body : list BulkLine) : option error * list Request :=
  let req := services.Bulk body in
  match do client tr req with
  | inl err =>
      (Some (GoError ("failed to execute bulk request: " ++ errorString err)),
       [req])
  | inr res =>
      if IsError res then (Some (GoError ("bulk error: " ++ Text res)), [req])
      else (None, [req])
  end.

(** [Search]: the query is one of the maps above, which [json.Marshal]
    serialises without error. *)
Definition Search (index : string) (query : Query) : error + list string :=
  match doSearch client tr index query with
  | inl err =>
      inl (GoError ("failed to execute search request: " ++ errorString err))
  | inr res =>
      if IsError res then inl (GoError ("search error: " ++ Text res))
      else
        match decodeHits client (ResponseBody res) with
        | inl err =>
            inl (GoError ("failed to parse search response: " ++ errorString err))
        | inr docs => inr docs
        end
  end.

(** The method of the repository a request of the service lands on. *)
Definition serve (r : Request) : option error * list Request :=
  match r with
  | services.Index index id body => Index index id body
  | services.Update index id body => Update index id body
  | services.Delete index id => Delete index id
  | services.Bulk body => Bulk body
  end.

End Repository.

(** The environment of a service whose [esClient] is this repository. *)
Definition over (client : Client) (env : Env) : Env :=
  {| esClient := fun tr r => fst (serve client tr r);
     timeNow := timeNow env;
     randFloat64 := randFloat64 env;
     mathPow := mathPow env;
     selectWait := selectWait env;
     ctxErr := ctxErr env;
     encodeErr := encodeErr env |}.

End elasticsearch.

(** ** package services: the exported single-document calls and the reads *)

Module reads.

Import utils.
Import models.
Import services.

(** What the reads ask of the outside: [esClient.Search] and
    [json.Unmarshal] of a document into a [Category]. A search changes
    nothing and leaves no event in the trace. *)
Record Reader := {
  search : list Event -> string -> elasticsearch.Query -> error + list string;
  unmarshal : string -> error + Category
}.

Section Reads.

Variable env : Env.
Variable cfg : config.Config.
Variable rd : Reader.

Definition CreateCategory (category : Category) (s : State) : option error * State :=
  let indexName := getCurrentIndexName env cfg "categories" s in
  createCategory env indexName category s.

Definition UpdateCategory (category : Category) (s : State) : option error * State :=
  let indexName := getCurrentIndexName env cfg "categories" s in
  updateCategory env indexName category s.

Definition DeleteCategory (id : string) (s : State) : option error * State :=
  let indexName := getCurrentIndexName env cfg "categories" s in
  deleteCategory env indexName id s.

Definition GetCategory (id : string) (s : State) : error + Category :=
  let indexName := getCurrentIndexName env cfg "categories" s in
  match search rd (trace s) indexName (elasticsearch.TermID id) with
  | inl err => inl (NewESIndexError "Failed to search category" (Some err))
  | inr [] => inl (NewESIndexError "Category not found" None)
  | inr (doc :: _) =>
      match unmarshal rd doc with
      | inl err => inl (NewESIndexError "Failed to parse category" (Some err))
      | inr category => inr category
      end
  end.

(** The [for _, doc := range docs] loop of [ListCategories]. *)
Fixpoint parseCategories (docs : list string) (categories : list Category)
    : error + list Category :=
  match docs with
  | [] => inr categories
  | doc :: rest =>
      match unmarshal rd doc with
      | inl err => inl (NewESIndexError "Failed to parse category" (Some err))
      | inr category => parseCategories rest (categories ++ [category])%list
      end
  end.

Definition ListCategories (s : State) : error + list Category :=
  let indexName := getCurrentIndexName env cfg "categories" s in
  match search rd (trace s) indexName elasticsearch.MatchAll with
  | inl err => inl (NewESIndexError "Failed to search categories" (Some err))
  | inr docs => parseCategories docs []
  end.

Definition HealthCheck (s : State) : Result :=
  match search rd (trace s) "_all" elasticsearch.SizeZero with
  | inl err =>
      Return (Some (GoError ("elasticsearch health check failed: "
                             ++ errorString err)))
  | inr _ =>
      let indexName := getCurrentIndexName env cfg "categories" s in
      match search rd (trace s) indexName elasticsearch.SizeZero with
      | inl err =>
          Return (Some (GoError ("failed to check index existence: "
                                 ++ errorString err)))
      | inr _ =>
          if mu s then Blocks           (* s.mu.RLock() on a held mutex *)
          else
            let bufferSize := Z.of_nat (List.length (bulkBuffer s)) in
            let maxSize := config.BatchSize (config.Custom (config.Sync cfg)) in
            if maxSize <=? bufferSize then
              Return (Some (GoError ("bulk buffer is full: " ++ itoa bufferSize
                                     ++ " items")))
            else Return None
      end
  end.

End Reads.

(** The reader of a service whose [esClient] is the repository over
    [client]. *)
Definition readerOver (client : elasticsearch.Client)
    (unmarshal : string -> error + Category) : Reader :=
  {| search := elasticsearch.Search client; unmarshal := unmarshal |}.

End reads.

(** ** package main: the category endpoints of the HTTP API *)

Module app.

Import utils.
Import models.
Import services.

(** [(c *Category) Validate] of package models. *)
Definition Validate (c : Category) : option error :=
  if (Name c =? "")%string then Some (GoError "name is required")
  else if Status c <? 0 then Some (GoError "status must be non-negative")
  else None.

(** What a handler writes: the status code and the value it hands to
    [respondWithJSON]. (The values are maps of strings and categories
    whose times come from the clock or from JSON, which [json.Marshal]
    serialises without error.) *)
Inductive Payload :=
| ErrorPayload (message requestID : string)   (* respondWithError *)
| CategoriesPayload (categories : list Category)
| CategoryPayload (category : Category)
| MessagePayload (message : string).          (* {"message": message} *)

Record HttpResponse := { Code : Z; Sent : Payload }.

(** The request as the handlers read it: the method, the [id] query
    parameter, and what [json.NewDecoder(r.Body).Decode] makes of the
    body. *)
Record HttpRequest := {
  Method : string;
  QueryID : string;
  Decoded : error + Category
}.

(** The handlers' own reads of the outside: [time.Now()] and
    [uuid.New().String()]. *)
Record Host := {
  clock : list Event -> time.Time;
  newUUID : list Event -> string
}.

Definition setDescription (d : string) (c : Category) : Category :=
  {| ID := ID c; Name := Name c; Description := d;
     Status := Status c; CreatedAt := CreatedAt c; UpdatedAt := UpdatedAt c;
     Version := Version c; SyncStatus := SyncStatus c; LastSync := LastSync c |}.

Definition setStatus (st : Z) (c : Category) : Category :=
  {| ID := ID c; Name := Name c; Description := Description c;
     Status := st; CreatedAt := CreatedAt c; UpdatedAt := UpdatedAt c;
     Version := Version c; SyncStatus := SyncStatus c; LastSync := LastSync c |}.

Definition setTimestamps (t : time.Time) (c : Category) : Category :=
  {| ID := ID c; Name := Name c; Description := Description c;
     Status := Status c; CreatedAt := t; UpdatedAt := t;
     Version := Version c; SyncStatus := SyncStatus c; LastSync := LastSync c |}.

Section Handlers.

Variable env : Env.
Variable cfg : config.Config.
Variable rd : reads.Reader.
Variable host : Host.

Definition respondWithError (code : Z) (message : string) (s : State)
    : HttpResponse :=
  {| Code := code; Sent := ErrorPayload message (newUUID host (trace s)) |}.

Definition respondWithJSON (code : Z) (payload : Payload) : HttpResponse :=
  {| Code := code; Sent := payload |}.

Definition handleCategories (r : HttpRequest) (s : State) : HttpResponse * State :=
  if (Method r =? "GET")%string then
    match reads.ListCategories env cfg rd s with
    | inl err => (respondWithError 500 (errorString err) s, s)
    | inr categories => (respondWithJSON 200 (CategoriesPayload categories), s)
    end
  else if (Method r =? "POST")%string then
    match Decoded r with
    | inl _ => (respondWithError 400 "Invalid request format" s, s)
    | inr category =>
        (* Set default values if not provided *)
        let category :=
          if (Description category =? "")%string
          then setDescription "No description provided" category
          else category in
        let category :=
          if Status category =? 0 then setStatus 1 category else category in
        (* Validate category *)
        match Validate category with
        | Some err => (respondWithError 400 (errorString err) s, s)
        | None =>
            (* Set timestamps *)
            let category := setTimestamps (clock host (trace s)) category in
            (* Create category *)
            let (err, s) := reads.CreateCategory env cfg category s in
            match err with
            | Some e => (respondWithError 500 (errorString e) s, s)
            | None => (respondWithJSON 201 (CategoryPayload category), s)
            end
        end
    end
  else (respondWithError 405 "Method not allowed" s, s).

Definition handleCategory (r : HttpRequest) (s : State) : HttpResponse * State :=
  let id := QueryID r in
  if (id =? "")%string then
    (respondWithError 400 "Category ID is required" s, s)
  else if (Method r =? "GET")%string then
    match reads.GetCategory env cfg rd id s with
    | inl err => (respondWithError 500 (errorString err) s, s)
    | inr category => (respondWithJSON 200 (CategoryPayload category), s)
    end
  else if (Method r =? "PUT")%string then
    match Decoded r with
    | inl _ => (respondWithError 400 "Invalid request body" s, s)
    | inr category =>
        let (err, s) := reads.UpdateCategory env cfg category s in
        match err with
        | Some e => (respondWithError 500 (errorString e) s, s)
        | None =>
            (respondWithJSON 200 (MessagePayload "Category updated successfully"), s)
        end
    end
  else if (Method r =? "DELETE")%string then
    let (err, s) := reads.DeleteCategory env cfg id s in
    match err with
    | Some e => (respondWithError 500 (errorString e) s, s)
    | None =>
        (respondWithJSON 200 (MessagePayload "Category deleted successfully"), s)
    end
  else (respondWithError 405 "Method not allowed" s, s).

End Handlers.

End app.

(** ** Vocabulary of the statements and sample values *)

Module trace.

Import services.

Definition isInvoke (e : Event) : bool :=
  match e with EvInvoke _ => true | _ => false end.

Definition isWait (e : Event) : bool :=
  match e with EvWait _ _ => true | _ => false end.

(** A wait that ended because the context was done. *)
Definition isCancel (e : Event) : bool :=
  match e with EvWait _ CtxDone => true | _ => false end.

Definition isMark (e : Event) : bool :=
  match e with EvMark _ _ _ => true | _ => false end.

(** An event of the dispatcher proper: neither an entry into
    [ProcessCategoryOperation], nor a wait, nor a mark. *)
Definition quiet (e : Event) : bool :=
  negb (isInvoke e || isWait e || isMark e).

(** How often [ProcessCategoryOperation] was entered. *)
Definition invocations (tr : list Event) : nat :=
  List.length (filter isInvoke tr).

(** The offsets marked, in order. *)
Definition marks (tr : list Event) : list Event := filter isMark tr.

(** An attempt of the retry history that ended in an error. *)
Definition failed (a : RetryAttempt) : Prop := Error a <> None.

(** The error of [RetryWithBackoff] when the attempts are used up. *)
Definition exhaustedError (maxRetries : Z) (o : models.CategoryOperation)
    (lastErr : option utils.error) : utils.error :=
  utils.NewSyncError utils.ErrCodeRetryExhausted
    ("Max retries (" ++ itoa maxRetries ++ ") reached")
    lastErr (models.Operation o) "category".

(** The error of the last attempt, [lastErr] when there is none. *)
Definition lastError (lastErr : option utils.error) (attempts : list RetryAttempt)
    : option utils.error :=
  last (map Error attempts) lastErr.

(** The runs of the retry loop for operation [o] with [k] attempts
    left: the attempts it records, the events it adds, the value it
    returns and the status it leaves in the history. Each attempt
    enters [ProcessCategoryOperation] once and is followed by the
    dispatcher's events [d]. *)
Inductive RetryRun (ctxErr : utils.error) (maxRetries : Z)
    (o : models.CategoryOperation)
  : option utils.error -> nat -> list RetryAttempt -> list Event
    -> option utils.error -> string -> Prop :=
| RunExhausted lastErr :
    RetryRun ctxErr maxRetries o lastErr 0 [] []
      (Some (exhaustedError maxRetries o lastErr)) "FAILED"
| RunSuccess lastErr k a d :
    Error a = None ->
    forallb quiet d = true ->
    RetryRun ctxErr maxRetries o lastErr (S k) [a]
      (EvInvoke (Some o) :: d ++ [EvLog "Retry sequence completed"])
      None "SUCCESS"
| RunCancelled lastErr k a e d delay :
    Error a = Some e ->
    forallb quiet d = true ->
    RetryRun ctxErr maxRetries o lastErr (S k) [a]
      (EvInvoke (Some o)
         :: d ++ [EvLogError e "Retry attempt failed"; EvWait delay CtxDone])
      (Some ctxErr) "CANCELLED"
| RunRetry lastErr k a e d delay attempts delta ret status :
    Error a = Some e ->
    forallb quiet d = true ->
    RetryRun ctxErr maxRetries o (Some e) k attempts delta ret status ->
    RetryRun ctxErr maxRetries o lastErr (S k) (a :: attempts)
      (EvInvoke (Some o)
         :: d ++ [EvLogError e "Retry attempt failed"; EvWait delay TimerFired]
         ++ delta)
      ret status.

End trace.

Module claims.

Import services.
Import consumers.

(** The mark [ConsumeClaim] leaves for a message. *)
Definition markOf (m : ConsumerMessage) : Event :=
  EvMark (Topic m) (Partition m) (Offset m).

(** The error of [processMessage] for an operation code that
    [mapOperation] does not know. *)
Definition unknownOperationError : utils.error :=
  utils.NewSyncError utils.ErrCodeInvalidPayload "Unknown operation: UNKNOWN"
    None "UNKNOWN" "category".

(** The messages a run of [ConsumeClaim] processes, in order, each with
    the result of [processMessage] in the state it ran in. *)
Fixpoint processed (env : Env) (cfg : config.Config) (dec : Decoder)
    (inputs : list ClaimInput) (s : State)
    : list (ConsumerMessage * Result) :=
  match inputs with
  | Received (Some message) :: rest =>
      let (r, s1) :=
        processMessage env cfg dec message (emit (EvLog "Processing message") s) in
      (message, r)
        :: match r with
           | Return None => processed env cfg dec rest (emit (markOf message) s1)
           | Return (Some err) =>
               processed env cfg dec rest
                 (emit (EvLogError err "Failed to process message") s1)
           | _ => []
           end
  | _ => []
  end.

(** The marks of the messages whose processing returned [nil]. *)
Fixpoint marksOfSuccesses (l : list (ConsumerMessage * Result)) : list Event :=
  match l with
  | [] => []
  | (m, Return None) :: l' => markOf m :: marksOfSuccesses l'
  | _ :: l' => marksOfSuccesses l'
  end.

End claims.

(** The civil days of April 2025, counted from 1970-01-01. *)
Definition aprilDays : list Z := map (fun k => 20179 + Z.of_nat k) (seq 0 30).

Module samples.

Import utils.
Import models.
Import services.

(** 2025-04-07 04:26:40 UTC, presented in a zone seven hours east. *)
Definition april7 : time.Time :=
  {| time.sec := 1744000000; time.nsec := 0; time.offset := 25200 |}.

(** The category of the scenario in the specification: no description. *)
Definition pulsa : Category :=
  {| ID := "c1"; Name := "Pulsa"; Description := ""; Status := 1;
     CreatedAt := time.zero; UpdatedAt := time.zero; Version := 0;
     SyncStatus := ""; LastSync := time.zero |}.

Definition createPulsa : CategoryOperation :=
  {| Operation := OperationCreate; Payload := pulsa;
     models.Timestamp := april7 |}.

(** A category with every field filled in. *)
Definition games : Category :=
  {| ID := "c2"; Name := "Games"; Description := "Vouchers"; Status := 1;
     CreatedAt := time.zero; UpdatedAt := time.zero; Version := 3;
     SyncStatus := SyncStatusPending; LastSync := time.zero |}.

Definition createGames : CategoryOperation :=
  {| Operation := OperationCreate; Payload := games;
     models.Timestamp := april7 |}.

(** The defaults of [setDefaults], in environment [env], with the
    given batch size and attempt bound. *)
Definition cfgWith (environment : string) (batchSize maxRetries : Z)
    : config.Config :=
  {| config.App := {| config.Environment := environment |};
     config.Sync :=
       {| config.Custom :=
            {| config.BatchSize := batchSize;
               config.MaxRetries := maxRetries;
               config.RetryDelay := 5000000000;
               config.MaxRetryDelay := 3600000000000;
               config.BackoffFactor := 2%float |} |} |}.

(** [x] to the power [n] by repeated multiplication: exact, as
    [math.Pow] is, on the powers of two the samples use. *)
Fixpoint powNat (x : float) (n : nat) : float :=
  match n with
  | O => 1%float
  | S n' => (x * powNat x n')%float
  end.

Definition samplePow (x y : float) : float :=
  match int64_of_float64 y with
  | Some n => powNat x (Z.to_nat n)
  | None => nan
  end.

(** An environment whose store answers every request with [reply],
    whose [select] always takes [outcome], whose clock stands at
    [april7] and whose random source yields [r]. *)
Definition envWith (reply : option error) (outcome : WaitOutcome) (r : float)
    : Env :=
  {| esClient := fun _ _ => reply;
     timeNow := fun _ => april7;
     randFloat64 := fun _ => r;
     mathPow := samplePow;
     selectWait := fun _ _ => outcome;
     ctxErr := GoError "context canceled";
     encodeErr := fun _ => None |}.

Definition idle : State := {| trace := []; bulkBuffer := []; mu := false |}.

(** A store that refuses every request; the random source yields 0.5,
    so the jitter is zero. *)
Definition refusing (outcome : WaitOutcome) : Env :=
  envWith (Some (GoError "connection refused")) outcome 0.5%float.

(** A decoder that reads [event] out of every message and [category]
    out of every snapshot. *)
Definition decoderOf (event : consumers.DebeziumEvent)
    (category : error + Category) : consumers.Decoder :=
  {| consumers.unmarshalEvent := fun _ => inr event;
     consumers.unmarshalCategory := fun _ => category;
     consumers.localOffset := 0 |}.

(** A decoder that rejects every message. *)
Definition garbled : consumers.Decoder :=
  {| consumers.unmarshalEvent := fun _ => inl (GoError "unexpected end of JSON input");
     consumers.unmarshalCategory := fun _ => inl (GoError "unexpected end of JSON input");
     consumers.localOffset := 0 |}.

(** An event with operation code [op] and source timestamp [ts]. *)
Definition eventOf (op : string) (ts : Z) : consumers.DebeziumEvent :=
  {| consumers.Payload :=
       {| consumers.Before := "before"; consumers.After := "after";
          consumers.Source := {| consumers.Timestamp := ts |};
          consumers.Op := op |} |}.

Definition message0 : consumers.ConsumerMessage :=
  {| consumers.Topic := "postgres.digital_discovery.public.categories";
     consumers.Partition := 0; consumers.Offset := 42;
     consumers.Value := "value" |}.

(** The error [createCategory] makes of a refused request. *)
Definition refused : error :=
  NewESIndexError "Failed to index category"
    (Some (GoError "connection refused")).

End samples.

(** What a trace shows of one kind of event, in order. *)
Module observe.

Import services.

(** The requests sent to the store, each with the store's reply. *)
Definition exchanges (tr : list Event) : list (Request * option utils.error) :=
  flat_map (fun e => match e with EvRequest r reply => [(r, reply)] | _ => [] end) tr.

Definition requests (tr : list Event) : list Request := map fst (exchanges tr).

(** The operations [ProcessCategoryOperation] was entered with. *)
Definition invoked (tr : list Event) : list (option models.CategoryOperation) :=
  flat_map (fun e => match e with EvInvoke o => [o] | _ => [] end) tr.

(** The delays waited for. *)
Definition waits (tr : list Event) : list (option Z) :=
  flat_map (fun e => match e with EvWait delay _ => [delay] | _ => [] end) tr.

(** The results handed to the metrics collector: operation, status and
    error count. *)
Definition operationMetrics (tr : list Event) : list (string * string * Z) :=
  flat_map (fun e => match e with
                     | EvOperationMetric operation status errorCount =>
                         [(operation, status, errorCount)]
                     | _ => []
                     end) tr.

(** The lines of a bulk body that stand for one buffered operation. *)
Definition linesOf (index : string) (op : models.CategoryOperation)
    : list BulkLine :=
  if (models.Operation op =? models.OperationCreate)%string then
    [ActionLine "index" index (models.ID (models.Payload op));
     PayloadLine (DocBody (models.Payload op))]
  else if (models.Operation op =? models.OperationUpdate)%string then
    [ActionLine "update" index (models.ID (models.Payload op));
     PayloadLine (UpsertBody (models.Payload op))]
  else if (models.Operation op =? models.OperationDelete)%string then
    [ActionLine "delete" index (models.ID (models.Payload op))]
  else [].

(** A request that carries out [op]: of the kind of the operation,
    under the id of its payload. *)
Definition answers (op : models.CategoryOperation) (q : Request) : Prop :=
  match q with
  | Index _ id _ =>
      models.Operation op = models.OperationCreate
      /\ id = models.ID (models.Payload op)
  | Update _ id _ =>
      models.Operation op = models.OperationUpdate
      /\ id = models.ID (models.Payload op)
  | Delete _ id =>
      models.Operation op = models.OperationDelete
      /\ id = models.ID (models.Payload op)
  | Bulk _ => False
  end.

(** An input that ends [ConsumeClaim]: the closed channel or the end of
    the session. *)
Definition closes (i : consumers.ClaimInput) : bool :=
  match i with
  | consumers.Received (Some _) => false
  | _ => true
  end.

End observe.

(** Sequences of calls on one service, made one after the other. *)
Module calls.

Import services.

Inductive Call :=
| Process (operation : option models.CategoryOperation)
| Retry (operation : models.CategoryOperation)
| Add (operation : models.CategoryOperation)
| Flush.

Definition step (env : Env) (cfg : config.Config) (c : Call) (s : State)
    : Result * State :=
  match c with
  | Process operation =>
      let (err, s) := ProcessCategoryOperation env cfg operation s in
      (Return err, s)
  | Retry operation => RetryOperation env cfg operation s
  | Add operation => AddToBulkBuffer env cfg operation s
  | Flush => FlushBulkBuffer env cfg s
  end.

(** The state after the calls, [None] when one of them did not return. *)
Fixpoint run (env : Env) (cfg : config.Config) (cs : list Call) (s : State)
    : option State :=
  match cs with
  | [] => Some s
  | c :: rest =>
      match step env cfg c s with
      | (Return _, s) => run env cfg rest s
      | _ => None
      end
  end.

End calls.

(** Further sample values. *)
Module fixtures.

Import utils.
Import models.
Import services.

(** A decoder that finds a delete event in every message and can read
    its [before] snapshot only. *)
Definition beforeOnly : consumers.Decoder :=
  {| consumers.unmarshalEvent := fun _ => inr (samples.eventOf "d" 1744000000000);
     consumers.unmarshalCategory :=
       fun raw => if (raw =? "before")%string then inr samples.games
                  else inl (GoError "unexpected end of JSON input");
     consumers.localOffset := 0 |}.

(** A buffer with a create, a delete, an operation of no known kind and
    an update. *)
Definition mixed : list CategoryOperation :=
  [samples.createGames;
   {| Operation := OperationDelete; Payload := samples.pulsa;
      models.Timestamp := samples.april7 |};
   {| Operation := "UPSERT"; Payload := samples.games;
      models.Timestamp := samples.april7 |};
   {| Operation := OperationUpdate; Payload := samples.games;
      models.Timestamp := samples.april7 |}].

(** A reader whose searches succeed and find nothing. *)
Definition emptyIndex : reads.Reader :=
  {| reads.search := fun _ _ _ => inr [];
     reads.unmarshal := fun _ => inl (GoError "unexpected end of JSON input") |}.

(** A cluster that has no document: every write is answered 404, every
    search 200 with no hit. *)
Definition notFound : elasticsearch.Response :=
  {| elasticsearch.StatusCode := 404;
     elasticsearch.StatusLine := "404 Not Found";
     elasticsearch.Text := "[404 Not Found] not_found";
     elasticsearch.ResponseBody := "not_found" |}.

Definition vacant : elasticsearch.Client :=
  {| elasticsearch.do := fun _ _ => inr notFound;
     elasticsearch.doSearch :=
       fun _ _ _ => inr {| elasticsearch.StatusCode := 200;
                           elasticsearch.StatusLine := "200 OK";
                           elasticsearch.Text := "[200 OK] hits";
                           elasticsearch.ResponseBody := "hits" |};
     elasticsearch.decodeHits := fun _ => inr [] |}.

(** A reader that finds two documents, of which only ["games"] parses. *)
Definition oneBadDocument : reads.Reader :=
  {| reads.search := fun _ _ _ => inr ["games"; "garbage"];
     reads.unmarshal :=
       fun doc => if (doc =? "games")%string then inr samples.games
                  else inl (GoError "unexpected end of JSON input") |}.

Definition host : app.Host :=
  {| app.clock := fun _ => samples.april7;
     app.newUUID := fun _ => "6ba7b810-9dad-11d1-80b4-00c04fd430c8" |}.

Definition deletePulsa : CategoryOperation :=
  {| Operation := OperationDelete; Payload := samples.pulsa;
     models.Timestamp := samples.april7 |}.

(** A category as a client posts it: a name and nothing else. *)
Definition posted : Category :=
  {| ID := ""; Name := "Games"; Description := ""; Status := 0;
     CreatedAt := time.zero; UpdatedAt := time.zero; Version := 0;
     SyncStatus := ""; LastSync := time.zero |}.

(** The same with an id. *)
Definition postedAs (id : string) : Category :=
  {| ID := id; Name := "Games"; Description := ""; Status := 0;
     CreatedAt := time.zero; UpdatedAt := time.zero; Version := 0;
     SyncStatus := ""; LastSync := time.zero |}.

End fixtures.

(** * Properties *)

Import utils.
Import models.
Import services.

(** ** Index naming *)

Section IndexNaming.

Lemma aprilDays_checked :
  forallb (fun d => let (y, m) := time.yearMonthOfDay d in (y =? 2025) && (m =? 4))
          aprilDays = true.
Proof. vm_compute. reflexivity. Qed.

Lemma yearMonthOfDay_april_2025 (d : Z) :
  20179 <= d < 20209 -> time.yearMonthOfDay d = (2025, 4).
Proof.
  intros Hd.
  assert (Hin : In d aprilDays).
  { unfold aprilDays. apply in_map_iff. exists (Z.to_nat (d - 20179)). split.
    - rewrite Z2Nat.id by lia. lia.
    - apply in_seq. lia. }
  pose proof (proj1 (forallb_forall _ _) aprilDays_checked d Hin) as H.
  cbv beta in H.
  destruct (time.yearMonthOfDay d) as [y m].
  apply andb_true_iff in H. destruct H as [Hy Hm].
  apply Z.eqb_eq in Hy. apply Z.eqb_eq in Hm. congruence.
Qed.

Lemma Format_april_2025 (t : time.Time) :
  1743465600 <= time.sec t + time.offset t < 1746057600 ->
  time.Format_2006_01 t = "2025-04".
Proof.
  intros Ht.
  assert (Hd : 20179 <= time.civilDay t < 20209).
  { unfold time.civilDay. split.
    - apply Z.div_le_lower_bound; lia.
    - apply Z.div_lt_upper_bound; lia. }
  unfold time.Format_2006_01, time.Year, time.Month.
  rewrite (yearMonthOfDay_april_2025 _ Hd). reflexivity.
Qed.

(** C9: for environment "prod", service "digital-discovery" and entity
    "categories", at any instant whose civil date lies in April 2025
    the index name is "prod-digital-discovery-categories-2025-04" and the
    alias is "prod-digital-discovery-categories", from [GetIndexName]
    and from [getCurrentIndexName] alike; the index name is a function
    of environment, service, entity and the year and month of the time,
    the alias of environment, service and entity. *)
Theorem index_name_april_2025
    (env : Env) (cfg : config.Config) (s : State) (t : time.Time) :
  1743465600 <= time.sec t + time.offset t < 1746057600 ->
  config.Environment (config.App cfg) = "prod" ->
  timeNow env (trace s) = t ->
  let n := {| Environment := "prod"; Service := "digital-discovery";
              Entity := "categories"; Date := t |} in
  GetIndexName n = "prod-digital-discovery-categories-2025-04"
  /\ GetAliasName n = "prod-digital-discovery-categories"
  /\ getCurrentIndexName env cfg "categories" s
     = "prod-digital-discovery-categories-2025-04"
  /\ (forall n1 n2 : IndexNaming,
        Environment n1 = Environment n2 ->
        Service n1 = Service n2 ->
        Entity n1 = Entity n2 ->
        (time.Year (Date n1) = time.Year (Date n2) ->
         time.Month (Date n1) = time.Month (Date n2) ->
         GetIndexName n1 = GetIndexName n2)
        /\ GetAliasName n1 = GetAliasName n2).
Proof.
  intros Ht Henv Hnow n.
  repeat split.
  - unfold GetIndexName, n; simpl. rewrite (Format_april_2025 t Ht). reflexivity.
  - unfold getCurrentIndexName. rewrite Henv, Hnow, (Format_april_2025 t Ht).
    reflexivity.
  - intros Hy Hm. unfold GetIndexName, time.Format_2006_01.
    rewrite H, H0, H1, Hy, Hm. reflexivity.
  - unfold GetAliasName. rewrite H, H0, H1. reflexivity.
Qed.

Lemma index_name_april_2025_witness :
  GetIndexName {| Environment := "prod"; Service := "digital-discovery";
                  Entity := "categories"; Date := samples.april7 |}
  = "prod-digital-discovery-categories-2025-04"
  /\ getCurrentIndexName (samples.envWith None TimerFired 0%float)
       (samples.cfgWith "prod" 100 3) "categories" samples.idle
     = "prod-digital-discovery-categories-2025-04".
Proof.
  pose proof (index_name_april_2025 (samples.envWith None TimerFired 0%float)
                (samples.cfgWith "prod" 100 3) samples.idle samples.april7) as H.
  simpl in H. destruct H as (H1 & _ & H3 & _); [lia | reflexivity | reflexivity | ].
  split; assumption.
Defined.

End IndexNaming.

(** ** Validation and single-document writes *)

Section Dispatcher.

Lemma validateCategoryFields_spec (category : Category) :
  validateCategoryFields category = None
  <-> Name category <> "" /\ Description category <> "".
Proof.
  unfold validateCategoryFields.
  destruct (String.eqb_spec (Name category) "") as [Hn | Hn];
    destruct (String.eqb_spec (Description category) "") as [Hd | Hd];
    split; intros H; try discriminate; try reflexivity; tauto.
Qed.

(** What [validateOperation] accepts: a non-empty id and, for a create
    or an update, a non-empty name and a non-empty description. *)
Lemma validateOperation_spec (operation : CategoryOperation) :
  validateOperation operation = None
  <-> ID (Payload operation) <> ""
      /\ (Operation operation = OperationCreate
          \/ Operation operation = OperationUpdate ->
          Name (Payload operation) <> ""
          /\ Description (Payload operation) <> "").
Proof.
  unfold validateOperation.
  destruct (String.eqb_spec (ID (Payload operation)) "") as [Hi | Hi].
  { split; [discriminate | tauto]. }
  destruct (String.eqb_spec (Operation operation) OperationCreate) as [Hc | Hc];
    destruct (String.eqb_spec (Operation operation) OperationUpdate) as [Hu | Hu];
    simpl.
  all: pose proof (validateCategoryFields_spec (Payload operation)) as Hf.
  all: destruct (validateCategoryFields (Payload operation)).
  all: split; intros H; try discriminate; try reflexivity.
  all: try (split; [assumption | intros _; apply Hf; reflexivity]).
  all: try (split; [assumption | intros [? | ?]; contradiction]).
  all: try (exfalso; destruct H as [_ H];
            assert (Hx : @None error = None) by reflexivity;
            assert (Hy : Some e = None) by (apply Hf; apply H; tauto);
            discriminate).
Qed.

(** C2: a create or update operation with a non-empty id and a
    non-empty name but an empty description does not pass validation:
    [validateOperation] returns the InvalidPayload error "Missing
    category description". *)
Theorem validateOperation_requires_description (operation : CategoryOperation) :
  Operation operation = OperationCreate
  \/ Operation operation = OperationUpdate ->
  ID (Payload operation) <> "" ->
  Name (Payload operation) <> "" ->
  Description (Payload operation) = "" ->
  validateOperation operation
  = Some (NewSyncError ErrCodeInvalidPayload "Missing category description"
            None "VALIDATE" "category").
Proof.
  intros Hop Hid Hname Hdesc.
  unfold validateOperation, validateCategoryFields.
  destruct (String.eqb_spec (ID (Payload operation)) "") as [Hi | _];
    [contradiction | ].
  destruct (String.eqb_spec (Name (Payload operation)) "") as [Hn | _];
    [contradiction | ].
  rewrite Hdesc. simpl.
  destruct Hop as [Hop | Hop]; rewrite Hop; reflexivity.
Qed.

Lemma validateOperation_requires_description_witness :
  validateOperation samples.createPulsa
  = Some (NewSyncError ErrCodeInvalidPayload "Missing category description"
            None "VALIDATE" "category").
Proof.
  apply (validateOperation_requires_description samples.createPulsa).
  - left; reflexivity.
  - simpl; discriminate.
  - simpl; discriminate.
  - reflexivity.
Defined.

(** C10: the single-document writes, [createCategory] and
    [updateCategory], each send one request, for the id of the payload,
    whose document is the payload with [SyncStatus] set to SUCCESS and
    [LastSync] set to the clock's time, whatever these two fields held,
    and every other field unchanged. (The bulk path does not set
    them.) *)
Theorem write_sets_sync_fields
    (env : Env) (indexName : string) (category : Category) (s : State) :
  exists doc : Category,
    trace (snd (createCategory env indexName category s))
    = (trace s
       ++ [EvRequest (Index indexName (ID category) (DocBody doc))
                     (esClient env (trace s)
                        (Index indexName (ID category) (DocBody doc)))])%list
    /\ trace (snd (updateCategory env indexName category s))
       = (trace s
          ++ [EvRequest (Update indexName (ID category) (UpsertBody doc))
                        (esClient env (trace s)
                           (Update indexName (ID category) (UpsertBody doc)))])%list
    /\ SyncStatus doc = SyncStatusSuccess
    /\ LastSync doc = timeNow env (trace s)
    /\ ID doc = ID category
    /\ Name doc = Name category
    /\ Description doc = Description category
    /\ Status doc = Status category
    /\ CreatedAt doc = CreatedAt category
    /\ UpdatedAt doc = UpdatedAt category
    /\ Version doc = Version category.
Proof.
  exists (setLastSync (timeNow env (trace s))
            (setSyncStatus SyncStatusSuccess category)).
  split; [ | split ].
  - unfold createCategory, call; simpl.
    destruct (esClient env (trace s) _); reflexivity.
  - unfold updateCategory, call; simpl.
    destruct (esClient env (trace s) _); reflexivity.
  - simpl. repeat split.
Qed.

End Dispatcher.

(** The bulk writes are not of that kind: a flush of the bulk buffer
    sends the payload of a buffered create and of a buffered update as
    they were buffered. Here both carry the sync status PENDING and the
    zero time as [LastSync], and the store accepts the request. *)
Lemma bulk_write_keeps_sync_fields :
  let env := samples.envWith None TimerFired 0.5%float in
  let cfg := samples.cfgWith "prod" 100 3 in
  let update := {| Operation := OperationUpdate; Payload := samples.games;
                   models.Timestamp := samples.april7 |} in
  let s := {| trace := []; bulkBuffer := [samples.createGames; update];
              mu := false |} in
  FlushBulkBuffer env cfg s
  = (Return None,
     {| trace :=
          [EvRequest
             (Bulk [ActionLine "index" "prod-digital-discovery-categories-2025-04" "c2";
                    PayloadLine (DocBody samples.games);
                    ActionLine "update" "prod-digital-discovery-categories-2025-04" "c2";
                    PayloadLine (UpsertBody samples.games)])
             None;
           EvBulkMetric 2 false];
        bulkBuffer := []; mu := false |})
  /\ SyncStatus samples.games = SyncStatusPending
  /\ SyncStatus samples.games <> SyncStatusSuccess
  /\ LastSync samples.games = time.zero
  /\ LastSync samples.games <> timeNow env (trace s).
Proof.
  cbv zeta. split; [vm_compute; reflexivity | ].
  split; [reflexivity | ]. split; [discriminate | ].
  split; [reflexivity | discriminate].
Qed.

(** ** The retry engine *)

Section Retry.

Import trace.

Variable env : Env.
Variable cfg : config.Config.

Lemma trace_emit (e : Event) (s : State) : trace (emit e s) = (trace s ++ [e])%list.
Proof. reflexivity. Qed.

(** Reads the fields of a state and of a history through the updates
    made to them, and brings the trace to the form [t ++ e1 :: e2 :: ...]. *)
Ltac read_state :=
  cbn [Attempts setStatus appendAttempt HistoryStatus
       trace emit bulkBuffer mu setMu setBuffer] in *;
  repeat rewrite <- app_assoc; cbn [app].

Lemma ProcessCategoryOperation_events
    (o : option CategoryOperation) (s s' : State) (err : option error) :
  ProcessCategoryOperation env cfg o s = (err, s') ->
  exists d, trace s' = (trace s ++ EvInvoke o :: d)%list
            /\ forallb quiet d = true
            /\ bulkBuffer s' = bulkBuffer s /\ mu s' = mu s.
Proof.
  unfold ProcessCategoryOperation, processOperation, createCategory,
    updateCategory, deleteCategory, call, recordMetrics.
  destruct o as [op | ].
  2:{ intros H; inversion H; subst; exists []; repeat split. }
  destruct (validateOperation op).
  { intros H; inversion H; subst. eexists. simpl.
    rewrite <- app_assoc. simpl. repeat split. }
  destruct (Operation op =? OperationCreate)%string;
    [ | destruct (Operation op =? OperationUpdate)%string;
        [ | destruct (Operation op =? OperationDelete)%string ] ]; simpl.
  all: try match goal with
           | |- context [esClient env ?t ?r] => destruct (esClient env t r)
           end.
  all: intros H; inversion H; subst; clear H; simpl.
  all: repeat rewrite <- app_assoc; simpl.
  all: eexists; repeat split.
Qed.

(** *** Lists of events *)

Lemma quiet_not (p : Event -> bool) (d : list Event) :
  (forall e, quiet e = true -> p e = false) ->
  forallb quiet d = true -> filter p d = [].
Proof.
  intros Hp. induction d as [ | e d IH]; simpl; intros H; [reflexivity | ].
  apply andb_true_iff in H. destruct H as [He Hd].
  rewrite (Hp e He). auto.
Qed.

Lemma quiet_not_invoke (e : Event) : quiet e = true -> isInvoke e = false.
Proof. unfold quiet; destruct e; simpl; intros; congruence. Qed.

Lemma quiet_not_cancel (e : Event) : quiet e = true -> isCancel e = false.
Proof.
  unfold quiet; destruct e as [ | | | | | | | ? [] | ]; simpl; intros; congruence.
Qed.

Lemma quiet_not_mark (e : Event) : quiet e = true -> isMark e = false.
Proof. unfold quiet; destruct e; simpl; intros; congruence. Qed.

Lemma last_cons_default {A : Type} (x : A) (l : list A) (d d' : A) :
  last (x :: l) d = last (x :: l) d'.
Proof.
  revert x. induction l as [ | y l IH]; intros x; [reflexivity | ].
  change (last (y :: l) d = last (y :: l) d'). apply IH.
Qed.

(** A list without a [p]-event does not split at one. *)
Lemma filter_nil_no_split (p : Event -> bool) (l pre post : list Event) (c : Event) :
  filter p l = [] -> p c = true -> l <> (pre ++ c :: post)%list.
Proof.
  intros Hl Hc Heq. subst l. rewrite filter_app in Hl. simpl in Hl.
  rewrite Hc in Hl. destruct (filter p pre); discriminate.
Qed.

(** Splitting [a ++ b] at a [p]-event when [a] has none: the split is in [b]. *)
Lemma split_after (p : Event -> bool) (a b pre post : list Event) (c : Event) :
  filter p a = [] -> p c = true ->
  (a ++ b = pre ++ c :: post)%list ->
  exists pre', pre = (a ++ pre')%list /\ b = (pre' ++ c :: post)%list.
Proof.
  revert pre. induction a as [ | x a IH]; intros pre Ha Hc Heq.
  - exists pre. split; [reflexivity | exact Heq].
  - simpl in Ha. destruct (p x) eqn:Hx; [discriminate | ].
    destruct pre as [ | y pre]; simpl in Heq; inversion Heq; subst.
    + congruence.
    + destruct (IH pre Ha Hc H1) as (pre' & Hp & Hb).
      exists pre'. subst pre. split; [reflexivity | assumption].
Qed.

(** Splitting [a ++ b] at a [p]-event when [b] has none: the split is in [a]. *)
Lemma split_before (p : Event -> bool) (a b pre post : list Event) (c : Event) :
  filter p b = [] -> p c = true ->
  (a ++ b = pre ++ c :: post)%list ->
  exists post', a = (pre ++ c :: post')%list /\ post = (post' ++ b)%list.
Proof.
  revert pre. induction a as [ | x a IH]; intros pre Hb Hc Heq.
  - simpl in Heq. exfalso. exact (filter_nil_no_split p b pre post c Hb Hc Heq).
  - destruct pre as [ | y pre]; simpl in Heq; inversion Heq; subst.
    + exists a. split; reflexivity.
    + destruct (IH pre Hb Hc H1) as (post' & Ha & Hp).
      exists post'. subst a. split; [reflexivity | assumption].
Qed.

(** *** What a run of the loop implies *)

Lemma run_attempts ctxErr n o lastErr k attempts delta ret status :
  RetryRun ctxErr n o lastErr k attempts delta ret status ->
  (List.length attempts <= k)%nat /\ invocations delta = List.length attempts.
Proof.
  unfold invocations.
  induction 1 as [ | ? ? ? d ? Hq | ? ? ? ? d ? ? Hq | ? ? ? ? d ? ? ? ? ? ? Hq ? IH];
    simpl; try (split; [lia | reflexivity]).
  - rewrite filter_app, (quiet_not isInvoke d quiet_not_invoke Hq). simpl.
    split; [lia | reflexivity].
  - rewrite filter_app, (quiet_not isInvoke d quiet_not_invoke Hq). simpl.
    split; [lia | reflexivity].
  - rewrite filter_app, (quiet_not isInvoke d quiet_not_invoke Hq). simpl.
    destruct IH as [IH1 IH2]. rewrite IH2. split; [lia | reflexivity].
Qed.

Lemma run_no_marks ctxErr n o lastErr k attempts delta ret status :
  RetryRun ctxErr n o lastErr k attempts delta ret status ->
  marks delta = [].
Proof.
  unfold marks.
  induction 1 as [ | ? ? ? d ? Hq | ? ? ? ? d ? ? Hq | ? ? ? ? d ? ? ? ? ? ? Hq ? IH];
    simpl; try reflexivity;
    rewrite filter_app, (quiet_not isMark d quiet_not_mark Hq); simpl; auto.
Qed.

(** An attempt that succeeds is the last one, and the run returns [nil]. *)
Lemma run_success ctxErr n o lastErr k attempts delta ret status :
  RetryRun ctxErr n o lastErr k attempts delta ret status ->
  forall i a, nth_error attempts i = Some a -> Error a = None ->
              ret = None /\ S i = List.length attempts.
Proof.
  induction 1 as [ | ? ? a0 d Ha Hq | ? ? a0 e d ? Ha Hq
                   | ? ? a0 e d ? ? ? ? ? Ha Hq ? IH];
    intros i a Hn He.
  - destruct i; discriminate.
  - destruct i as [ | [ | i]]; simpl in Hn; try discriminate. split; reflexivity.
  - destruct i as [ | [ | i]]; simpl in Hn; try discriminate.
    inversion Hn; subst. congruence.
  - destruct i as [ | i]; simpl in Hn.
    + inversion Hn; subst. congruence.
    + destruct (IH i a Hn He) as [Hr Hl]. split; [assumption | simpl; lia].
Qed.

(** A run returns [nil] only after an attempt that succeeded. *)
Lemma run_nil ctxErr n o lastErr k attempts delta ret status :
  RetryRun ctxErr n o lastErr k attempts delta ret status ->
  ret = None ->
  exists a, last (map Some attempts) None = Some a /\ Error a = None.
Proof.
  induction 1 as [ | ? ? a0 d Ha Hq | ? ? a0 e d ? Ha Hq
                   | ? ? a0 e d ? attempts ? ? ? Ha Hq Hrun IH];
    intros Hret; try discriminate.
  - exists a0. split; [reflexivity | assumption].
  - destruct (IH Hret) as (a & Hl & He). exists a. split; [ | assumption].
    destruct attempts as [ | b attempts]; [discriminate | exact Hl].
Qed.

(** When every attempt is used and fails and no wait is cancelled, the
    run ends in the exhaustion error around the last error. *)
Lemma run_exhausted ctxErr n o lastErr k attempts delta ret status :
  RetryRun ctxErr n o lastErr k attempts delta ret status ->
  List.length attempts = k ->
  Forall failed attempts ->
  filter isCancel delta = [] ->
  ret = Some (exhaustedError n o (lastError lastErr attempts))
  /\ status = "FAILED".
Proof.
  induction 1 as [ | ? ? a0 d Ha Hq | ? ? a0 e d ? Ha Hq
                   | ? ? a0 e d ? attempts ? ? ? Ha Hq Hrun IH];
    intros Hlen Hall Hc.
  - split; reflexivity.
  - inversion Hall; subst. unfold failed in *. congruence.
  - exfalso. simpl in Hc. rewrite filter_app in Hc. simpl in Hc.
    destruct (filter isCancel d); discriminate.
  - simpl in Hlen. inversion Hall; subst.
    simpl in Hc. rewrite filter_app in Hc.
    rewrite (quiet_not isCancel d quiet_not_cancel Hq) in Hc. simpl in Hc.
    destruct IH as [IH1 IH2]; [lia | assumption | assumption | ].
    split; [ | assumption]. rewrite IH1. unfold lastError.
    destruct attempts as [ | b attempts].
    + simpl. rewrite Ha. reflexivity.
    + change (map Error (a0 :: b :: attempts))
        with (Error a0 :: map Error (b :: attempts)).
      change (last (Error a0 :: map Error (b :: attempts)) lastErr)
        with (last (map Error (b :: attempts)) lastErr).
      simpl map. rewrite (last_cons_default _ _ (Some e) lastErr). reflexivity.
Qed.

(** The status FAILED is left only by an exhausted run. *)
Lemma run_failed ctxErr n o lastErr k attempts delta ret status :
  RetryRun ctxErr n o lastErr k attempts delta ret status ->
  status = "FAILED" ->
  List.length attempts = k /\ Forall failed attempts
  /\ filter isCancel delta = [].
Proof.
  induction 1 as [ | ? ? a0 d Ha Hq | ? ? a0 e d ? Ha Hq
                   | ? ? a0 e d ? attempts ? ? ? Ha Hq Hrun IH];
    intros Hst; try discriminate.
  - repeat split. constructor.
  - destruct (IH Hst) as (Hl & Hf & Hc). repeat split.
    + simpl; lia.
    + constructor; [unfold failed; congruence | assumption].
    + simpl. rewrite filter_app.
      rewrite (quiet_not isCancel d quiet_not_cancel Hq). simpl. assumption.
Qed.

(** A wait that the context ends is the last event of the run, which
    returns the context's error. *)
Lemma run_cancel ctxErr n o lastErr k attempts delta ret status :
  RetryRun ctxErr n o lastErr k attempts delta ret status ->
  forall pre c post,
    isCancel c = true ->
    delta = (pre ++ c :: post)%list ->
    post = [] /\ ret = Some ctxErr /\ status = "CANCELLED".
Proof.
  induction 1 as [ | ? ? a0 d Ha Hq | ? ? a0 e d delay Ha Hq
                   | ? ? a0 e d delay attempts delta ? ? Ha Hq Hrun IH];
    intros pre c post Hc Heq.
  - destruct pre; discriminate.
  - exfalso. revert Heq. apply filter_nil_no_split with (p := isCancel); [ | assumption].
    simpl. rewrite filter_app, (quiet_not isCancel d quiet_not_cancel Hq).
    reflexivity.
  - change (EvInvoke (Some o)
              :: d ++ [EvLogError e "Retry attempt failed"; EvWait delay CtxDone])%list
      with ((EvInvoke (Some o) :: d) ++ [EvLogError e "Retry attempt failed"]
             ++ [EvWait delay CtxDone])%list in Heq.
    rewrite app_assoc in Heq.
    apply split_after with (p := isCancel) in Heq; [ | | assumption].
    + destruct Heq as (pre' & _ & Heq).
      destruct pre' as [ | x pre']; simpl in Heq; inversion Heq; subst.
      * repeat split.
      * destruct pre'; discriminate.
    + simpl. rewrite filter_app, (quiet_not isCancel d quiet_not_cancel Hq).
      reflexivity.
  - change (EvInvoke (Some o)
              :: d ++ [EvLogError e "Retry attempt failed"; EvWait delay TimerFired]
                   ++ delta)%list
      with ((EvInvoke (Some o) :: d)
              ++ [EvLogError e "Retry attempt failed"; EvWait delay TimerFired]
              ++ delta)%list in Heq.
    rewrite app_assoc in Heq.
    apply split_after with (p := isCancel) in Heq; [ | | assumption].
    + destruct Heq as (pre' & _ & Heq). exact (IH pre' c post Hc Heq).
    + simpl. rewrite filter_app, (quiet_not isCancel d quiet_not_cancel Hq).
      reflexivity.
Qed.

Local Abbreviation maxRetries :=
  (config.MaxRetries (config.Custom (config.Sync cfg))).

(** The loop follows [RetryRun], and returns, once the fuel exceeds the
    attempts that are left. *)
Lemma retryLoop_run (fuel : nat) :
  forall (o : CategoryOperation) (attempt : Z) (lastErr : option error)
         (h : RetryHistory) (s : State),
    (Z.to_nat (maxRetries - attempt) < fuel)%nat ->
    exists ret h' s' attempts delta,
      retryLoop env cfg fuel o attempt lastErr h s = Some (ret, h', s')
      /\ Attempts h' = (Attempts h ++ attempts)%list
      /\ trace s' = (trace s ++ delta)%list
      /\ bulkBuffer s' = bulkBuffer s /\ mu s' = mu s
      /\ RetryRun (ctxErr env) maxRetries o lastErr
           (Z.to_nat (maxRetries - attempt)) attempts delta ret (HistoryStatus h').
Proof.
  induction fuel as [ | fuel IH]; intros o attempt lastErr h s Hfuel; [lia | ].
  cbn [retryLoop].
  destruct (Z.ltb_spec attempt maxRetries) as [Hlt | Hge].
  2:{ replace (Z.to_nat (maxRetries - attempt)) with 0%nat by lia.
      exists (Some (exhaustedError maxRetries o lastErr)), (setStatus "FAILED" h), s, [], [].
      repeat split; try (rewrite app_nil_r; reflexivity). constructor. }
  assert (Hk : Z.to_nat (maxRetries - attempt)
               = S (Z.to_nat (maxRetries - (attempt + 1)))) by lia.
  rewrite Hk in *.
  destruct (ProcessCategoryOperation env cfg (Some o) s) as [err s1] eqn:Hp.
  destruct (ProcessCategoryOperation_events _ _ _ _ Hp) as (d & Ht & Hq & Hb & Hm).
  destruct err as [e | ].
  - match goal with
    | |- context [selectWait env ?t ?dl] =>
        destruct (selectWait env t dl) eqn:Hsel; set (delay := dl) in *
    end.
    + eexists _, _, _, [_], _. split; [reflexivity | ].
      read_state. rewrite Ht. read_state.
      repeat split; try assumption.
      apply RunCancelled with (e := e); [reflexivity | assumption].
    + edestruct (IH o (attempt + 1) (Some e)) as
        (ret & h' & s' & attempts & delta & Hr & Ha & Htr & Hb' & Hm' & Hrun);
        [ | rewrite Hr; clear Hr ]; [lia | ].
      exists ret, h', s'. eexists (_ :: attempts), _.
      split; [reflexivity | ].
      rewrite Ha, Htr. read_state. rewrite Ht. read_state.
      repeat split; try congruence.
      eapply RunRetry with (e := e); [reflexivity | assumption | exact Hrun].
  - eexists _, _, _, [_], _. split; [reflexivity | ].
    read_state. rewrite Ht. read_state.
    repeat split; try assumption.
    apply RunSuccess; [reflexivity | assumption].
Qed.

Lemma cleanup_not_failed (ret : option error) (h : RetryHistory) (s : State) :
  HistoryStatus h <> "FAILED" -> cleanup ret h s = (Return ret, s).
Proof.
  intros Hst. unfold cleanup.
  destruct (String.eqb_spec (HistoryStatus h) "FAILED"); [contradiction | reflexivity].
Qed.

Lemma cleanup_failed (ret : option error) (h : RetryHistory) (s : State) :
  HistoryStatus h = "FAILED" ->
  Attempts h <> [] ->
  Forall failed (Attempts h) ->
  cleanup ret h s = (Return ret, emit (EvLog "Recording failed retry attempt") s).
Proof.
  intros Hst Hne Hall. unfold cleanup, recordFailedAttempt. rewrite Hst. simpl.
  destruct (exists_last Hne) as (l & a & Hl). rewrite Hl in *.
  rewrite map_app. cbn [map]. rewrite last_last.
  apply Forall_app in Hall. destruct Hall as [_ Ha]. inversion Ha; subst.
  unfold failed in *. destruct (Error a); [reflexivity | congruence].
Qed.

(** [RetryWithBackoff] is the loop, started with every attempt left
    and an empty history, followed by the deferred [cleanup]. *)
Lemma RetryWithBackoff_run (o : CategoryOperation) (s : State) :
  exists ret h s1 delta,
    retryLoop env cfg (S (Z.to_nat maxRetries)) o 0 None (newHistory o)
      (emit (EvLog "Starting retry sequence") s) = Some (ret, h, s1)
    /\ trace s1 = (trace s ++ EvLog "Starting retry sequence" :: delta)%list
    /\ bulkBuffer s1 = bulkBuffer s /\ mu s1 = mu s
    /\ RetryRun (ctxErr env) maxRetries o None (Z.to_nat maxRetries)
         (Attempts h) delta ret (HistoryStatus h)
    /\ RetryWithBackoff env cfg o s = cleanup ret h s1.
Proof.
  destruct (retryLoop_run (S (Z.to_nat maxRetries)) o 0 None (newHistory o)
              (emit (EvLog "Starting retry sequence") s))
    as (ret & h & s1 & attempts & delta & Hr & Ha & Ht & Hb & Hm & Hrun).
  { rewrite Z.sub_0_r. lia. }
  rewrite Z.sub_0_r in Hrun. simpl in Ha. subst attempts.
  exists ret, h, s1, delta. repeat split; try assumption.
  - rewrite Ht. simpl. rewrite <- app_assoc. reflexivity.
  - unfold RetryWithBackoff. rewrite Hr. reflexivity.
Qed.

End Retry.

(** C1: with [MaxRetries = n >= 1], [RetryWithBackoff] returns, having
    entered [ProcessCategoryOperation] once per attempt of its history
    and at most [n] times; an attempt that succeeds is the last one and
    the call returns [nil]; and when [n] attempts were made, all
    failed, and no wait was ended by the context, it returns the
    RetryExhausted error around the error of the last attempt. *)
Theorem RetryWithBackoff_bounded
    (env : Env) (cfg : config.Config) (o : CategoryOperation) (s : State) :
  let n := config.MaxRetries (config.Custom (config.Sync cfg)) in
  1 <= n ->
  exists ret h s1 s' delta,
    RetryWithBackoff env cfg o s = (Return ret, s')
    /\ retryLoop env cfg (S (Z.to_nat n)) o 0 None (newHistory o)
         (emit (EvLog "Starting retry sequence") s) = Some (ret, h, s1)
    /\ trace s' = (trace s ++ delta)%list
    /\ trace.invocations delta = List.length (Attempts h)
    /\ (List.length (Attempts h) <= Z.to_nat n)%nat
    /\ (forall i a, nth_error (Attempts h) i = Some a -> Error a = None ->
                    ret = None /\ S i = List.length (Attempts h))
    /\ (ret = None ->
        exists a, last (map Some (Attempts h)) None = Some a /\ Error a = None)
    /\ (List.length (Attempts h) = Z.to_nat n ->
        Forall trace.failed (Attempts h) ->
        filter trace.isCancel delta = [] ->
        ret = Some (trace.exhaustedError n o (trace.lastError None (Attempts h)))
        /\ trace.lastError None (Attempts h) <> None).
Proof.
  intros n Hn.
  destruct (RetryWithBackoff_run env cfg o s)
    as (ret & h & s1 & delta & Hloop & Ht & _ & _ & Hrun & Hret).
  fold n in Hloop, Hrun.
  destruct (run_attempts _ _ _ _ _ _ _ _ _ Hrun) as [Hlen Hinv].
  assert (Hlast : Attempts h <> [] -> Forall trace.failed (Attempts h) ->
                  trace.lastError None (Attempts h) <> None).
  { intros Hne Hall. unfold trace.lastError.
    destruct (exists_last Hne) as (l & a & Hl). rewrite Hl in *.
    rewrite map_app. cbn [map]. rewrite last_last.
    apply Forall_app in Hall. destruct Hall as [_ Ha]. inversion Ha; subst.
    assumption. }
  destruct (String.eqb_spec (HistoryStatus h) "FAILED") as [Hst | Hst].
  - destruct (run_failed _ _ _ _ _ _ _ _ _ Hrun Hst) as (Hl & Hall & Hc).
    assert (Hne : Attempts h <> []).
    { intros Hnil. rewrite Hnil in Hl. simpl in Hl. lia. }
    rewrite (cleanup_failed ret h s1 Hst Hne Hall) in Hret.
    exists ret, h, s1, (emit (EvLog "Recording failed retry attempt") s1),
      (EvLog "Starting retry sequence" :: delta
         ++ [EvLog "Recording failed retry attempt"])%list.
    split; [exact Hret | ]. split; [exact Hloop | ].
    split; [simpl; rewrite Ht, <- app_assoc; reflexivity | ].
    split.
    { unfold trace.invocations in *. simpl. rewrite filter_app. simpl.
      rewrite app_nil_r. exact Hinv. }
    split; [exact Hlen | ].
    split; [exact (run_success _ _ _ _ _ _ _ _ _ Hrun) | ].
    split; [exact (run_nil _ _ _ _ _ _ _ _ _ Hrun) | ].
    intros _ _ _. split; [ | exact (Hlast Hne Hall)].
    exact (proj1 (run_exhausted _ _ _ _ _ _ _ _ _ Hrun Hl Hall Hc)).
  - rewrite (cleanup_not_failed ret h s1 Hst) in Hret.
    exists ret, h, s1, s1, (EvLog "Starting retry sequence" :: delta).
    split; [exact Hret | ]. split; [exact Hloop | ].
    split; [exact Ht | ].
    split; [exact Hinv | ].
    split; [exact Hlen | ].
    split; [exact (run_success _ _ _ _ _ _ _ _ _ Hrun) | ].
    split; [exact (run_nil _ _ _ _ _ _ _ _ _ Hrun) | ].
    intros Hl Hall Hc. simpl in Hc.
    destruct (run_exhausted _ _ _ _ _ _ _ _ _ Hrun Hl Hall Hc) as [Hr _].
    split; [exact Hr | ]. apply Hlast; [ | assumption].
    intros Hnil. rewrite Hnil in Hl. simpl in Hl. lia.
Qed.

(** C8: when a wait of [RetryWithBackoff] is ended by the context, the
    call returns the context's error and that wait is the last thing it
    did: no attempt, request or log follows. *)
Theorem RetryWithBackoff_cancelled
    (env : Env) (cfg : config.Config) (o : CategoryOperation)
    (s s' : State) (r : Result)
    (pre post : list Event) (delay : option Z) :
  RetryWithBackoff env cfg o s = (r, s') ->
  trace s' = (trace s ++ pre ++ EvWait delay CtxDone :: post)%list ->
  r = Return (Some (ctxErr env)) /\ post = [].
Proof.
  intros Hcall Htr.
  destruct (RetryWithBackoff_run env cfg o s)
    as (ret & h & s1 & delta & _ & Ht & _ & _ & Hrun & Hret).
  rewrite Hcall in Hret.
  destruct (String.eqb_spec (HistoryStatus h) "FAILED") as [Hst | Hst].
  - exfalso.
    destruct (run_failed _ _ _ _ _ _ _ _ _ Hrun Hst) as (_ & _ & Hc).
    assert (Htr' : exists tl,
               trace s' = (trace s ++ EvLog "Starting retry sequence" :: delta ++ tl)%list
               /\ filter trace.isCancel tl = []).
    { unfold cleanup in Hret. rewrite Hst in Hret. simpl in Hret.
      unfold recordFailedAttempt in Hret.
      destruct (last (map Some (Attempts h)) None) as [a | ].
      - destruct (Error a).
        + inversion Hret; subst. exists [EvLog "Recording failed retry attempt"].
          simpl. rewrite Ht, <- app_assoc. split; reflexivity.
        + inversion Hret; subst. exists []. rewrite app_nil_r. split; [exact Ht | reflexivity].
      - inversion Hret; subst. exists []. rewrite app_nil_r. split; [exact Ht | reflexivity]. }
    destruct Htr' as (tl & Htl & Hctl). rewrite Htl in Htr.
    apply app_inv_head in Htr. revert Htr.
    apply filter_nil_no_split with (p := trace.isCancel); [ | reflexivity].
    simpl. rewrite filter_app, Hc, Hctl. reflexivity.
  - rewrite (cleanup_not_failed ret h s1 Hst) in Hret. inversion Hret; subst.
    rewrite Ht in Htr. apply app_inv_head in Htr.
    destruct pre as [ | x pre]; simpl in Htr; inversion Htr as [[Hx Hd]].
    destruct (run_cancel _ _ _ _ _ _ _ _ _ Hrun pre (EvWait delay CtxDone) post
                eq_refl Hd) as (Hp & Hr & _).
    split; [rewrite Hr; reflexivity | assumption].
Qed.

Lemma RetryWithBackoff_bounded_witness :
  exists ret s',
    RetryWithBackoff (samples.refusing TimerFired) (samples.cfgWith "prod" 100 3)
      samples.createGames samples.idle = (Return ret, s').
Proof.
  destruct (RetryWithBackoff_bounded (samples.refusing TimerFired)
              (samples.cfgWith "prod" 100 3) samples.createGames samples.idle)
    as (ret & _ & _ & s' & _ & H & _).
  - simpl. lia.
  - exists ret, s'. exact H.
Defined.

(** With one attempt allowed, the store refusing the request and the
    context ending during the wait that follows, the one attempt fails
    and the call returns the context's error, not RetryExhausted. *)
Lemma RetryWithBackoff_cancelled_after_last_attempt :
  let env := samples.refusing CtxDone in
  let cfg := samples.cfgWith "prod" 100 1 in
  let r := RetryWithBackoff env cfg samples.createGames samples.idle in
  config.MaxRetries (config.Custom (config.Sync cfg)) = 1
  /\ trace.invocations (trace (snd r)) = 1%nat
  /\ option_map (fun x => map Error (Attempts (snd (fst x))))
       (retryLoop env cfg 2 samples.createGames 0 None
          (newHistory samples.createGames)
          (emit (EvLog "Starting retry sequence") samples.idle))
     = Some [Some samples.refused]
  /\ fst r = Return (Some (GoError "context canceled"))
  /\ fst r <> Return (Some (trace.exhaustedError 1 samples.createGames
                              (Some samples.refused))).
Proof.
  cbv zeta. repeat split; try (vm_compute; reflexivity).
  vm_compute. discriminate.
Qed.

Lemma RetryWithBackoff_cancelled_witness :
  fst (RetryWithBackoff (samples.refusing CtxDone) (samples.cfgWith "prod" 100 3)
         samples.createGames samples.idle)
  = Return (Some (GoError "context canceled")).
Proof.
  refine (proj1 (RetryWithBackoff_cancelled
                   (samples.refusing CtxDone) (samples.cfgWith "prod" 100 3)
                   samples.createGames samples.idle
                   (snd (RetryWithBackoff (samples.refusing CtxDone)
                           (samples.cfgWith "prod" 100 3)
                           samples.createGames samples.idle))
                   _
                   (removelast
                      (trace (snd (RetryWithBackoff (samples.refusing CtxDone)
                                     (samples.cfgWith "prod" 100 3)
                                     samples.createGames samples.idle))))
                   [] (Some 5000000000) _ _)).
  - apply surjective_pairing.
  - vm_compute. reflexivity.
Defined.

(** ** The bulk buffer *)

Section BulkBuffer.

Variable env : Env.
Variable cfg : config.Config.

(** Below the batch size an add appends, releases the mutex and returns. *)
Lemma AddToBulkBuffer_below_threshold (operation : CategoryOperation) (s : State) :
  canBulkOperation operation = true ->
  mu s = false ->
  Z.of_nat (List.length (bulkBuffer s)) + 1
    < config.BatchSize (config.Custom (config.Sync cfg)) ->
  AddToBulkBuffer env cfg operation s
  = (Return None,
     {| trace := trace s; bulkBuffer := (bulkBuffer s ++ [operation])%list;
        mu := false |}).
Proof.
  intros Hcan Hmu Hlen. unfold AddToBulkBuffer. rewrite Hcan, Hmu. simpl.
  rewrite length_app. simpl.
  destruct (Z.leb_spec (config.BatchSize (config.Custom (config.Sync cfg)))
              (Z.of_nat (List.length (bulkBuffer s) + 1))) as [H | H];
    [lia | reflexivity].
Qed.

(** C4: an add that brings the buffer to the batch size never returns.
    It appends the operation, keeps the mutex, and blocks in the flush
    on that same mutex: no bulk request is sent. *)
Theorem AddToBulkBuffer_blocks_at_threshold
    (operation : CategoryOperation) (s : State) :
  canBulkOperation operation = true ->
  mu s = false ->
  config.BatchSize (config.Custom (config.Sync cfg))
    <= Z.of_nat (List.length (bulkBuffer s)) + 1 ->
  AddToBulkBuffer env cfg operation s
  = (Blocks,
     {| trace := trace s; bulkBuffer := (bulkBuffer s ++ [operation])%list;
        mu := true |}).
Proof.
  intros Hcan Hmu Hlen. unfold AddToBulkBuffer. rewrite Hcan, Hmu. simpl.
  rewrite length_app. simpl.
  destruct (Z.leb_spec (config.BatchSize (config.Custom (config.Sync cfg)))
              (Z.of_nat (List.length (bulkBuffer s) + 1))) as [H | H];
    [reflexivity | lia].
Qed.

(** C5: called with the mutex free, [processBulkOperations] returns
    with the mutex free; when it returns an error (an encoding error,
    without any request, or the error of the one bulk request) the
    buffer is as it was; and a buffer that was not empty is empty
    afterwards exactly when the one bulk request succeeded. *)
Theorem processBulkOperations_keeps_buffer_on_failure (s : State) :
  mu s = false ->
  let size := Z.of_nat (List.length (bulkBuffer s)) in
  exists ret s',
    processBulkOperations env cfg s = (Return ret, s')
    /\ mu s' = false
    /\ (forall e, ret = Some e ->
          bulkBuffer s' = bulkBuffer s
          /\ ((encodeBulk env cfg (bulkBuffer s) (setMu true s) [] = inl e
               /\ trace s' = (trace s ++ [EvBulkMetric size true])%list)
              \/ (exists body cause,
                    e = NewESIndexError "Bulk operation failed" (Some cause)
                    /\ trace s'
                       = (trace s ++ [EvRequest (Bulk body) (Some cause);
                                      EvBulkMetric size true])%list)))
    /\ (ret = None -> bulkBuffer s' = [])
    /\ (bulkBuffer s <> [] ->
        (bulkBuffer s' = []
         <-> exists body,
               trace s' = (trace s ++ [EvRequest (Bulk body) None;
                                       EvBulkMetric size false])%list)).
Proof.
  intros Hmu size. unfold processBulkOperations. rewrite Hmu.
  cbn [bulkBuffer setMu].
  destruct (bulkBuffer s) as [ | op ops] eqn:Hbuf.
  { exists None. eexists. split; [reflexivity | ].
    cbn [mu bulkBuffer trace setMu]. split; [reflexivity | ].
    split; [discriminate | ]. split; [intros _; exact Hbuf | ].
    intros Hne. exfalso. apply Hne. reflexivity. }
  destruct (encodeBulk env cfg (op :: ops) (setMu true s) []) as [err | buf] eqn:Henc.
  { eexists. eexists. split; [reflexivity | ]. cbn [mu bulkBuffer trace setMu emit].
    split; [reflexivity | ]. split.
    - intros e He. inversion He; subst. split; [assumption | ].
      left. split; reflexivity.
    - split; [discriminate | ]. intros _. rewrite Hbuf. split; [discriminate | ].
      intros (body & Hb). apply app_inv_head in Hb. discriminate. }
  unfold call. cbn [trace setMu].
  destruct (esClient env (trace s) (Bulk buf)) as [cause | ] eqn:Hreply.
  - eexists. eexists. split; [reflexivity | ].
    cbn [mu bulkBuffer trace setMu emit setBuffer].
    rewrite <- app_assoc. cbn [app].
    split; [reflexivity | ]. split.
    + intros e He. inversion He; subst. split; [assumption | ].
      right. exists buf, cause. split; reflexivity.
    + split; [discriminate | ]. intros _. rewrite Hbuf. split; [discriminate | ].
      intros (body & Hb). apply app_inv_head in Hb. discriminate.
  - eexists. eexists. split; [reflexivity | ].
    cbn [mu bulkBuffer trace setMu emit setBuffer].
    rewrite <- app_assoc. cbn [app].
    split; [reflexivity | ]. split; [discriminate | ].
    split; [reflexivity | ]. intros _. split; [ | reflexivity].
    intros _. exists buf. reflexivity.
Qed.

End BulkBuffer.

Lemma AddToBulkBuffer_blocks_at_threshold_witness :
  AddToBulkBuffer (samples.envWith None TimerFired 0.5%float)
    (samples.cfgWith "prod" 1 3) samples.createGames samples.idle
  = (Blocks,
     {| trace := []; bulkBuffer := [samples.createGames]; mu := true |}).
Proof.
  apply (AddToBulkBuffer_blocks_at_threshold
           (samples.envWith None TimerFired 0.5%float)
           (samples.cfgWith "prod" 1 3) samples.createGames samples.idle).
  - reflexivity.
  - reflexivity.
  - simpl. lia.
Defined.

Lemma processBulkOperations_keeps_buffer_on_failure_witness :
  exists ret s',
    processBulkOperations (samples.refusing TimerFired) (samples.cfgWith "prod" 100 3)
      {| trace := []; bulkBuffer := [samples.createGames]; mu := false |}
    = (Return ret, s').
Proof.
  destruct (processBulkOperations_keeps_buffer_on_failure
              (samples.refusing TimerFired) (samples.cfgWith "prod" 100 3)
              {| trace := []; bulkBuffer := [samples.createGames]; mu := false |}
              eq_refl)
    as (ret & s' & H & _).
  exists ret, s'. exact H.
Defined.

(** ** The consumer *)

Section Consumer.

Import consumers.
Import claims.

Variable env : Env.
Variable cfg : config.Config.
Variable dec : Decoder.

Lemma marks_app (a b : list Event) :
  trace.marks (a ++ b) = (trace.marks a ++ trace.marks b)%list.
Proof. apply filter_app. Qed.

Lemma ProcessCategoryOperation_no_marks
    (o : option CategoryOperation) (s s' : State) (err : option error) :
  ProcessCategoryOperation env cfg o s = (err, s') ->
  trace.marks (trace s') = trace.marks (trace s).
Proof.
  intros H. destruct (ProcessCategoryOperation_events env cfg _ _ _ _ H)
    as (d & Ht & Hq & _).
  rewrite Ht. unfold trace.marks. rewrite filter_app.
  cbn [filter trace.isMark].
  rewrite (quiet_not trace.isMark d quiet_not_mark Hq). apply app_nil_r.
Qed.

Lemma RetryWithBackoff_no_marks (o : CategoryOperation) (s s' : State) (r : Result) :
  RetryWithBackoff env cfg o s = (r, s') ->
  trace.marks (trace s') = trace.marks (trace s).
Proof.
  intros Hcall.
  destruct (RetryWithBackoff_run env cfg o s)
    as (ret & h & s1 & delta & _ & Ht & _ & _ & Hrun & Hret).
  rewrite Hcall in Hret.
  assert (H1 : trace.marks (trace s1) = trace.marks (trace s)).
  { rewrite Ht.
    change (EvLog "Starting retry sequence" :: delta)
      with ([EvLog "Starting retry sequence"] ++ delta)%list.
    rewrite !marks_app, (run_no_marks _ _ _ _ _ _ _ _ _ Hrun).
    cbn. apply app_nil_r. }
  unfold cleanup, recordFailedAttempt in Hret.
  destruct (HistoryStatus h =? "FAILED")%string.
  - destruct (last (map Some (Attempts h)) None) as [a | ].
    + destruct (Error a); inversion Hret; subst; [ | assumption].
      simpl. rewrite marks_app, H1. apply app_nil_r.
    + inversion Hret; subst. assumption.
  - inversion Hret; subst. assumption.
Qed.

(** Processing a message leaves no mark. *)
Lemma processMessage_no_marks (message : ConsumerMessage) (s s' : State) (r : Result) :
  processMessage env cfg dec message s = (r, s') ->
  trace.marks (trace s') = trace.marks (trace s).
Proof.
  unfold processMessage.
  destruct (unmarshalEvent dec (Value message)) as [err | event];
    [intros H; inversion H; reflexivity | ].
  destruct (validateMessage event); [intros H; inversion H; reflexivity | ].
  destruct (decodeCategory dec _ event) as [err | category];
    [intros H; inversion H; reflexivity | ].
  match goal with
  | |- context [ProcessCategoryOperation env cfg ?o s] =>
      destruct (ProcessCategoryOperation env cfg o s) as [err s1] eqn:Hp
  end.
  pose proof (ProcessCategoryOperation_no_marks _ _ _ _ Hp) as H1.
  destruct err as [e | ]; [ | intros H; inversion H; subst; assumption].
  destruct (IsRetryableError e); [ | intros H; inversion H; subst; assumption].
  unfold RetryOperation. intros H.
  rewrite (RetryWithBackoff_no_marks _ _ _ _ H). assumption.
Qed.

Lemma marks_emit_log (e : Event) (s : State) :
  trace.isMark e = false ->
  trace.marks (trace (emit e s)) = trace.marks (trace s).
Proof.
  intros He. simpl. rewrite marks_app. unfold trace.marks at 2. simpl.
  rewrite He. apply app_nil_r.
Qed.

(** C3: the marks a run of [ConsumeClaim] leaves are those of the
    messages whose processing returned [nil], in order; processing a
    message leaves no mark itself, so a mark follows the return of
    [processMessage]; and a message whose processing returned an error
    is logged and the loop goes on to the next input without a mark. *)
Theorem ConsumeClaim_marks_successes (inputs : list ClaimInput) (s : State) :
  trace.marks (trace (snd (ConsumeClaim env cfg dec inputs s)))
  = (trace.marks (trace s) ++ marksOfSuccesses (processed env cfg dec inputs s))%list
  /\ (forall message rest r s1,
        inputs = Received (Some message) :: rest ->
        processMessage env cfg dec message (emit (EvLog "Processing message") s)
        = (r, s1) ->
        trace.marks (trace s1) = trace.marks (trace s)
        /\ (r = Return None ->
            ConsumeClaim env cfg dec inputs s
            = ConsumeClaim env cfg dec rest (emit (markOf message) s1))
        /\ (forall e, r = Return (Some e) ->
            ConsumeClaim env cfg dec inputs s
            = ConsumeClaim env cfg dec rest
                (emit (EvLogError e "Failed to process message") s1))).
Proof.
  split.
  - revert s. induction inputs as [ | input rest IH]; intros s.
    + simpl. symmetry. apply app_nil_r.
    + destruct input as [[message | ] | ]; try (simpl; symmetry; apply app_nil_r).
      cbn [ConsumeClaim processed].
      destruct (processMessage env cfg dec message
                  (emit (EvLog "Processing message") s)) as [r s1] eqn:Hp.
      pose proof (processMessage_no_marks _ _ _ _ Hp) as Hm.
      rewrite marks_emit_log in Hm by reflexivity.
      destruct r as [[e | ] | msg | | ].
      * rewrite IH, marks_emit_log by reflexivity. rewrite Hm. reflexivity.
      * rewrite IH. unfold markOf at 1. simpl trace. rewrite marks_app, Hm.
        rewrite <- app_assoc. reflexivity.
      * simpl. rewrite Hm. symmetry. apply app_nil_r.
      * simpl. rewrite Hm. symmetry. apply app_nil_r.
      * simpl. rewrite Hm. symmetry. apply app_nil_r.
  - intros message rest r s1 Hin Hp. subst inputs.
    pose proof (processMessage_no_marks _ _ _ _ Hp) as Hm.
    rewrite marks_emit_log in Hm by reflexivity.
    split; [assumption | ].
    split; [intros Hr | intros e Hr]; subst r; cbn [ConsumeClaim];
      rewrite Hp; reflexivity.
Qed.

(** C7: for a message that parses to an event whose operation code is
    none of "c", "u", "d", [processMessage] changes nothing (it sends no
    request) and returns an InvalidPayload error, which is not
    retryable: "Missing timestamp in event" when the source timestamp
    is zero, else "Missing operation in event" when the code is empty,
    else the unknown-operation error. *)
Theorem processMessage_rejects_unknown_op
    (message : ConsumerMessage) (event : DebeziumEvent) (s : State) :
  unmarshalEvent dec (Value message) = inr event ->
  Op (Payload event) <> "c" ->
  Op (Payload event) <> "u" ->
  Op (Payload event) <> "d" ->
  exists e,
    processMessage env cfg dec message s = (Return (Some e), s)
    /\ codeOf e = Some ErrCodeInvalidPayload
    /\ IsRetryableError e = false
    /\ e = (if Timestamp (Source (Payload event)) =? 0 then
              NewSyncError ErrCodeInvalidPayload "Missing timestamp in event"
                None "VALIDATE" "message"
            else if (Op (Payload event) =? "")%string then
              NewSyncError ErrCodeInvalidPayload "Missing operation in event"
                None "VALIDATE" "message"
            else unknownOperationError).
Proof.
  intros Hev Hc Hu Hd. unfold processMessage, validateMessage. rewrite Hev.
  destruct (Timestamp (Source (Payload event)) =? 0).
  { eexists. repeat split. }
  destruct (Op (Payload event) =? "")%string.
  { eexists. repeat split. }
  assert (Hmap : mapOperation (Op (Payload event)) = "UNKNOWN").
  { unfold mapOperation.
    destruct (String.eqb_spec (Op (Payload event)) "c"); [contradiction | ].
    destruct (String.eqb_spec (Op (Payload event)) "u"); [contradiction | ].
    destruct (String.eqb_spec (Op (Payload event)) "d"); [contradiction | ].
    reflexivity. }
  rewrite Hmap. simpl. eexists. repeat split.
Qed.

End Consumer.

(** A message whose processing ends in exhausted retries, and one that
    does not parse: [ConsumeClaim] logs the failure, leaves no mark and
    returns when the channel is closed. *)
Lemma ConsumeClaim_failure_not_marked :
  let cfg := samples.cfgWith "prod" 100 3 in
  let exhausted :=
    consumers.ConsumeClaim (samples.refusing TimerFired) cfg
      (samples.decoderOf (samples.eventOf "c" 1744000000000) (inr samples.games))
      [consumers.Received (Some samples.message0); consumers.Received None]
      samples.idle in
  let garbled :=
    consumers.ConsumeClaim (samples.refusing TimerFired) cfg samples.garbled
      [consumers.Received (Some samples.message0); consumers.Received None]
      samples.idle in
  fst exhausted = Some (Return None)
  /\ last (trace (snd exhausted)) (EvLog "")
     = EvLogError (trace.exhaustedError 3
                     {| Operation := "CREATE"; Payload := samples.games;
                        models.Timestamp :=
                          consumers.Unix0 0 1744000000000000000 |}
                     (Some samples.refused))
         "Failed to process message"
  /\ trace.invocations (trace (snd exhausted)) = 4%nat
  /\ trace.marks (trace (snd exhausted)) = []
  /\ fst garbled = Some (Return None)
  /\ trace (snd garbled)
     = [EvLog "Processing message";
        EvLogError (NewSyncError ErrCodeKafkaDeserialize "Invalid message format"
                      (Some (GoError "unexpected end of JSON input"))
                      "DESERIALIZE" "message")
          "Failed to process message"]
  /\ trace.marks (trace (snd garbled)) = [].
Proof.
  cbv zeta. repeat split; vm_compute; reflexivity.
Qed.

(** An event with code "x" and no source timestamp is turned down for
    its timestamp, not as an unknown operation. *)
Lemma processMessage_unknown_op_without_timestamp :
  consumers.processMessage (samples.envWith None TimerFired 0.5%float)
    (samples.cfgWith "prod" 100 3)
    (samples.decoderOf (samples.eventOf "x" 0) (inr samples.games))
    samples.message0 samples.idle
  = (Return (Some (NewSyncError ErrCodeInvalidPayload "Missing timestamp in event"
                     None "VALIDATE" "message")),
     samples.idle)
  /\ NewSyncError ErrCodeInvalidPayload "Missing timestamp in event"
       None "VALIDATE" "message"
     <> claims.unknownOperationError.
Proof.
  split; [vm_compute; reflexivity | discriminate].
Qed.

Lemma processMessage_rejects_unknown_op_witness :
  consumers.processMessage (samples.envWith None TimerFired 0.5%float)
    (samples.cfgWith "prod" 100 3)
    (samples.decoderOf (samples.eventOf "x" 1744000000000) (inr samples.games))
    samples.message0 samples.idle
  = (Return (Some claims.unknownOperationError), samples.idle).
Proof.
  destruct (processMessage_rejects_unknown_op
              (samples.envWith None TimerFired 0.5%float)
              (samples.cfgWith "prod" 100 3)
              (samples.decoderOf (samples.eventOf "x" 1744000000000)
                 (inr samples.games))
              samples.message0 (samples.eventOf "x" 1744000000000) samples.idle)
    as (e & Hp & _ & _ & He).
  - reflexivity.
  - simpl; discriminate.
  - simpl; discriminate.
  - simpl; discriminate.
  - rewrite Hp, He. reflexivity.
Defined.

(** ** The backoff delay *)

Section Backoff.

Lemma magnitude_nonneg (m : positive) (e : Z) : 0 <= magnitude m e.
Proof.
  unfold magnitude. destruct (Z.leb_spec 0 e).
  - apply Z.mul_nonneg_nonneg; [lia | apply Z.pow_nonneg; lia].
  - apply Z.div_pos; [lia | apply Z.pow_pos_nonneg; lia].
Qed.

Lemma magnitude_mono_mantissa (m1 m2 : positive) (e : Z) :
  (m1 <= m2)%positive -> magnitude m1 e <= magnitude m2 e.
Proof.
  intros Hm. unfold magnitude. destruct (Z.leb_spec 0 e).
  - apply Z.mul_le_mono_nonneg_r; [apply Z.pow_nonneg; lia | lia].
  - apply Z.div_le_mono; [apply Z.pow_pos_nonneg; lia | lia].
Qed.

Lemma digits2_pos_bounds (m : positive) :
  2 ^ (Z.pos (digits2_pos m) - 1) <= Z.pos m < 2 ^ Z.pos (digits2_pos m).
Proof.
  induction m as [m IH | m IH | ]; cbn [digits2_pos].
  - rewrite Pos2Z.inj_succ.
    replace (Z.succ (Z.pos (digits2_pos m)) - 1)
      with (Z.succ (Z.pos (digits2_pos m) - 1)) by lia.
    rewrite !Z.pow_succ_r by lia. lia.
  - rewrite Pos2Z.inj_succ.
    replace (Z.succ (Z.pos (digits2_pos m)) - 1)
      with (Z.succ (Z.pos (digits2_pos m) - 1)) by lia.
    rewrite !Z.pow_succ_r by lia. lia.
  - simpl. lia.
Qed.

(** What validity says of a binary64 mantissa and exponent: at most 53
    digits, and exactly 53 above the least exponent. *)
Lemma bounded_canonical (m : positive) (e : Z) :
  bounded prec emax m e = true ->
  Z.pos m < 2 ^ 53
  /\ - 1074 <= e
  /\ (- 1074 < e -> 2 ^ 52 <= Z.pos m).
Proof.
  unfold bounded, canonical_mantissa, fexp, SpecFloat.emin, prec, emax.
  intros H. apply andb_true_iff in H. destruct H as [H _].
  apply Z.eqb_eq in H.
  pose proof (digits2_pos_bounds m) as [Hlo Hhi].
  assert (Hd : Z.pos (digits2_pos m) <= 53) by lia.
  split; [ | split].
  - eapply Z.lt_le_trans; [exact Hhi | ]. apply Z.pow_le_mono_r; lia.
  - lia.
  - intros He. assert (Hd' : Z.pos (digits2_pos m) = 53) by lia.
    rewrite Hd' in Hlo. exact Hlo.
Qed.

Lemma magnitude_mono_exponent (m1 m2 : positive) (e1 e2 : Z) :
  bounded prec emax m1 e1 = true ->
  bounded prec emax m2 e2 = true ->
  e1 < e2 ->
  magnitude m1 e1 <= magnitude m2 e2.
Proof.
  intros H1 H2 He.
  destruct (bounded_canonical m1 e1 H1) as (Hm1 & He1 & _).
  destruct (bounded_canonical m2 e2 H2) as (_ & _ & Hm2).
  specialize (Hm2 ltac:(lia)).
  change (2 ^ 53) with (2 * 2 ^ 52) in Hm1.
  assert (Hp : 0 < 2 ^ 52) by reflexivity.
  unfold magnitude.
  destruct (Z.leb_spec 0 e1) as [Hp1 | Hn1];
    destruct (Z.leb_spec 0 e2) as [Hp2 | Hn2]; try lia.
  - (* both exponents non-negative *)
    replace e2 with (Z.succ e1 + (e2 - Z.succ e1)) by lia.
    rewrite Z.pow_add_r, Z.pow_succ_r by lia.
    assert (Hq : 1 <= 2 ^ (e2 - Z.succ e1))
      by (apply Z.lt_pred_le; apply Z.pow_pos_nonneg; lia).
    assert (Hr : 0 < 2 ^ e1) by (apply Z.pow_pos_nonneg; lia).
    apply Z.le_trans with (2 * Z.pos m2 * 2 ^ e1).
    + apply Z.mul_le_mono_nonneg_r; lia.
    + replace (Z.pos m2 * (2 * 2 ^ e1 * 2 ^ (e2 - Z.succ e1)))
        with (2 * Z.pos m2 * 2 ^ e1 * 2 ^ (e2 - Z.succ e1)) by ring.
      rewrite <- (Z.mul_1_r (2 * Z.pos m2 * 2 ^ e1)) at 1.
      apply Z.mul_le_mono_nonneg_l; [ | exact Hq].
      apply Z.mul_nonneg_nonneg; lia.
  - (* e1 negative, e2 non-negative *)
    assert (Hq : 1 <= 2 ^ e2)
      by (apply Z.lt_pred_le; apply Z.pow_pos_nonneg; lia).
    assert (Hd : Z.pos m1 / 2 ^ (- e1) <= Z.pos m1 / 2 ^ 1).
    { apply Z.div_le_compat_l; [lia | ]. split; [reflexivity | ].
      apply Z.pow_le_mono_r; lia. }
    assert (Hh : Z.pos m1 / 2 ^ 1 < 2 ^ 52).
    { apply Z.div_lt_upper_bound; [reflexivity | ]. change (2 ^ 1) with 2. lia. }
    apply Z.le_trans with (Z.pos m2 * 1); [lia | ].
    apply Z.mul_le_mono_nonneg_l; [lia | exact Hq].
  - (* both negative *)
    replace (- e1) with ((e2 - e1) + (- e2)) by lia.
    rewrite Z.pow_add_r by lia.
    rewrite <- Z.div_div by (try apply Z.pow_pos_nonneg; try apply Z.pow_nonzero; lia).
    apply Z.div_le_mono; [apply Z.pow_pos_nonneg; lia | ].
    assert (Hd : Z.pos m1 / 2 ^ (e2 - e1) <= Z.pos m1 / 2 ^ 1).
    { apply Z.div_le_compat_l; [lia | ]. split; [reflexivity | ].
      apply Z.pow_le_mono_r; lia. }
    assert (Hh : Z.pos m1 / 2 ^ 1 < 2 ^ 52).
    { apply Z.div_lt_upper_bound; [reflexivity | ]. change (2 ^ 1) with 2. lia. }
    lia.
Qed.

Lemma int64_of_SF_finite (sign : bool) (m : positive) (e a : Z) :
  int64_of_SF (S754_finite sign m e) = Some a ->
  a = if sign then - magnitude m e else magnitude m e.
Proof.
  unfold int64_of_SF.
  destruct (_ && _)%bool; intros H; inversion H; reflexivity.
Qed.

(** On valid floats that convert, the conversion follows the order:
    when [x < y] does not hold, [int64(y) <= int64(x)]. *)
Lemma int64_of_SF_order (x y : spec_float) (a b : Z) :
  valid_binary x = true ->
  valid_binary y = true ->
  SFltb x y = false ->
  int64_of_SF x = Some a ->
  int64_of_SF y = Some b ->
  b <= a.
Proof.
  intros Vx Vy Hlt Ha Hb.
  destruct x as [sx | sx | | sx mx ex]; try discriminate;
    destruct y as [sy | sy | | sy my ey]; try discriminate.
  - inversion Ha; inversion Hb; lia.
  - inversion Ha; subst. apply int64_of_SF_finite in Hb. subst b.
    pose proof (magnitude_nonneg my ey).
    unfold SFltb in Hlt; simpl in Hlt. destruct sy; [lia | discriminate].
  - inversion Hb; subst. apply int64_of_SF_finite in Ha. subst a.
    pose proof (magnitude_nonneg mx ex).
    unfold SFltb in Hlt; simpl in Hlt. destruct sx; [discriminate | lia].
  - apply int64_of_SF_finite in Ha. apply int64_of_SF_finite in Hb. subst a b.
    pose proof (magnitude_nonneg mx ex). pose proof (magnitude_nonneg my ey).
    simpl in Vx, Vy. unfold SFltb in Hlt; simpl in Hlt.
    destruct sx, sy; try lia; try discriminate.
    + (* both negative *)
      destruct (Z.compare_spec ex ey) as [He | He | He]; try discriminate.
      * subst ey. rewrite Pos.compare_cont_spec in Hlt.
        destruct (Pos.compare_spec mx my) as [Hm | Hm | Hm];
          simpl in Hlt; try discriminate.
        -- subst my. lia.
        -- pose proof (magnitude_mono_mantissa mx my ex ltac:(lia)). lia.
      * pose proof (magnitude_mono_exponent mx my ex ey Vx Vy He). lia.
    + (* both positive *)
      destruct (Z.compare_spec ex ey) as [He | He | He]; try discriminate.
      * subst ey. rewrite Pos.compare_cont_spec in Hlt.
        destruct (Pos.compare_spec mx my) as [Hm | Hm | Hm];
          simpl in Hlt; try discriminate.
        -- subst my. lia.
        -- pose proof (magnitude_mono_mantissa my mx ex ltac:(lia)). lia.
      * pose proof (magnitude_mono_exponent my mx ey ex Vy Vx He). lia.
Qed.

Lemma iter_xO_value (k m : positive) :
  Z.pos (Pos.iter xO m k) = Z.pos m * 2 ^ Z.pos k.
Proof.
  induction k as [ | k IH] using Pos.peano_ind.
  - simpl. lia.
  - rewrite Pos.iter_succ, Pos2Z.inj_xO, IH, Pos2Z.inj_succ, Z.pow_succ_r by lia.
    ring.
Qed.

Lemma iter_xO_digits (k m : positive) :
  digits2_pos (Pos.iter xO m k) = (digits2_pos m + k)%positive.
Proof.
  induction k as [ | k IH] using Pos.peano_ind.
  - simpl. lia.
  - rewrite Pos.iter_succ. cbn [digits2_pos]. rewrite IH. lia.
Qed.

Lemma digits2_pos_le_53 (m : positive) :
  Z.pos m < 2 ^ 53 -> Z.pos (digits2_pos m) <= 53.
Proof.
  intros Hm. destruct (digits2_pos_bounds m) as [Hlo _].
  destruct (Z.le_gt_cases (Z.pos (digits2_pos m)) 53) as [H | H]; [exact H | ].
  exfalso. assert (2 ^ 53 <= 2 ^ (Z.pos (digits2_pos m) - 1))
    by (apply Z.pow_le_mono_r; lia). lia.
Qed.

(** Rounding an integer of less than 54 bits to binary64 loses nothing. *)
Lemma binary_round_small (sign : bool) (m : positive) :
  Z.pos m < 2 ^ 53 ->
  exists m' e',
    binary_round prec emax sign m 0 = S754_finite sign m' e'
    /\ bounded prec emax m' e' = true
    /\ magnitude m' e' = Z.pos m.
Proof.
  intros Hm. pose proof (digits2_pos_le_53 m Hm) as Hd.
  unfold binary_round, shl_align, fexp, SpecFloat.emin, prec, emax.
  rewrite Z.add_0_r, Z.sub_0_r.
  rewrite Z.max_l by lia.
  destruct (Z.pos (digits2_pos m) - 53) as [ | k | k] eqn:Hk; [ | lia | ].
  - exists m, 0.
    unfold binary_round_aux, shr_fexp, fexp, SpecFloat.emin, Zdigits2, shr.
    cbn [shr_record_of_loc shr_m loc_of_shr_record round_nearest_even].
    rewrite !Z.add_0_r, !Z.sub_0_r. rewrite Z.max_l by lia. rewrite Hk.
    cbn [shr_m shr_r shr_s loc_of_shr_record round_nearest_even].
    rewrite !Z.add_0_r. rewrite Z.max_l by lia. rewrite Hk. cbn.
    split; [reflexivity | ]. split.
    + unfold bounded, canonical_mantissa, fexp, SpecFloat.emin.
      rewrite Z.add_0_r, Z.max_l by lia. rewrite Hk. reflexivity.
    + unfold magnitude. simpl. lia.
  - exists (Pos.iter xO m k), (Z.neg k).
    assert (Hdig : Z.pos (digits2_pos (Pos.iter xO m k)) = 53).
    { rewrite iter_xO_digits. lia. }
    unfold binary_round_aux, shr_fexp, fexp, SpecFloat.emin, Zdigits2, shr.
    cbn [shr_record_of_loc shr_m loc_of_shr_record round_nearest_even].
    rewrite Hdig.
    replace (Z.max (53 + Z.neg k - 53) (3 - 1024 - 53) - Z.neg k) with 0 by lia.
    cbn [shr_m shr_r shr_s loc_of_shr_record round_nearest_even].
    rewrite Hdig.
    replace (Z.max (53 + Z.neg k - 53) (3 - 1024 - 53) - Z.neg k) with 0 by lia.
    cbn [shr_m].
    replace (Z.neg k <=? 1024 - 53) with true by (symmetry; apply Z.leb_le; lia).
    split; [reflexivity | ]. split.
    + unfold bounded, canonical_mantissa, fexp, SpecFloat.emin. rewrite Hdig.
      apply andb_true_iff. split; [apply Z.eqb_eq | apply Z.leb_le]; lia.
    + unfold magnitude. replace (0 <=? Z.neg k) with false by reflexivity.
      rewrite iter_xO_value. change (- Z.neg k) with (Z.pos k).
      apply Z.div_mul. apply Z.pow_nonzero; lia.
Qed.

(** An integer below 2^53 in absolute value survives the conversion to
    [float64] and back. *)
Lemma float64_of_int_exact (z : Z) :
  - 2 ^ 53 < z < 2 ^ 53 ->
  int64_of_float64 (float64_of_int z) = Some z.
Proof.
  intros Hz. unfold int64_of_float64, float64_of_int, binary_normalize.
  assert (H53 : 2 ^ 53 < 2 ^ 63) by reflexivity.
  destruct z as [ | m | m].
  - rewrite Prim2SF_SF2Prim by reflexivity. reflexivity.
  - destruct (binary_round_small false m) as (m' & e' & Hr & Hb & Hmag); [lia | ].
    rewrite Hr, Prim2SF_SF2Prim by exact Hb.
    unfold int64_of_SF. rewrite Hmag.
    assert (Hrange : ((- 2 ^ 63 <=? Z.pos m) && (Z.pos m <? 2 ^ 63))%bool = true).
    { apply andb_true_iff. split; [apply Z.leb_le | apply Z.ltb_lt]; lia. }
    rewrite Hrange. reflexivity.
  - destruct (binary_round_small true m) as (m' & e' & Hr & Hb & Hmag); [lia | ].
    rewrite Hr, Prim2SF_SF2Prim by exact Hb.
    unfold int64_of_SF. rewrite Hmag.
    assert (Hrange : ((- 2 ^ 63 <=? - Z.pos m) && (- Z.pos m <? 2 ^ 63))%bool = true).
    { apply andb_true_iff. split; [apply Z.leb_le | apply Z.ltb_lt]; lia. }
    rewrite Hrange. reflexivity.
Qed.

End Backoff.

(** The clamp and the conversion: the delay is the integer part of the
    jittered product, or that of [float64(maxDelay)] when the product
    exceeds it; when [float64(maxDelay)] converts back to [maxDelay],
    no delay exceeds it. *)
Lemma calculateNextDelay_clamped
    (env : Env) (cfg : config.Config) (attempt baseDelay : Z) (s : State) :
  let maxDelay := config.MaxRetryDelay (config.Custom (config.Sync cfg)) in
  let factor := config.BackoffFactor (config.Custom (config.Sync cfg)) in
  let product :=
    (float64_of_int baseDelay * mathPow env factor (float64_of_int attempt)
     * (1 + (randFloat64 env (trace s) * 0x1.999999999999ap-2
             - 0x1.999999999999ap-3)))%float in
  int64_of_float64 (float64_of_int maxDelay) = Some maxDelay ->
  ((float64_of_int maxDelay <? product)%float = true ->
   calculateNextDelay env cfg attempt baseDelay s = Some maxDelay)
  /\ ((float64_of_int maxDelay <? product)%float = false ->
      calculateNextDelay env cfg attempt baseDelay s = int64_of_float64 product)
  /\ (forall v, calculateNextDelay env cfg attempt baseDelay s = Some v ->
                v <= maxDelay).
Proof.
  intros maxDelay factor product Hmax.
  unfold calculateNextDelay. fold maxDelay factor product.
  destruct (float64_of_int maxDelay <? product)%float eqn:Hlt.
  - split; [intros _; exact Hmax | ]. split; [discriminate | ].
    intros v Hv. rewrite Hmax in Hv. inversion Hv. lia.
  - split; [discriminate | ]. split; [reflexivity | ].
    intros v Hv. rewrite ltb_spec in Hlt. unfold int64_of_float64 in *.
    exact (int64_of_SF_order _ _ _ _ (Prim2SF_valid _) (Prim2SF_valid _)
             Hlt Hmax Hv).
Qed.

(** C6: the delay is the integer part of the jittered product
    [float64(baseDelay) * Pow(factor, attempt) * (1 + jitter)], with
    [jitter = rand * 0.4 - 0.2], or [maxDelay] when the product exceeds
    [float64(maxDelay)]; and when [maxDelay] is below 2^53 ns in
    absolute value, so that binary64 holds it exactly, no delay exceeds
    it. *)
Theorem calculateNextDelay_bounded
    (env : Env) (cfg : config.Config) (attempt baseDelay : Z) (s : State) :
  let maxDelay := config.MaxRetryDelay (config.Custom (config.Sync cfg)) in
  let factor := config.BackoffFactor (config.Custom (config.Sync cfg)) in
  let product :=
    (float64_of_int baseDelay * mathPow env factor (float64_of_int attempt)
     * (1 + (randFloat64 env (trace s) * 0x1.999999999999ap-2
             - 0x1.999999999999ap-3)))%float in
  - 2 ^ 53 < maxDelay < 2 ^ 53 ->
  ((float64_of_int maxDelay <? product)%float = true ->
   calculateNextDelay env cfg attempt baseDelay s = Some maxDelay)
  /\ ((float64_of_int maxDelay <? product)%float = false ->
      calculateNextDelay env cfg attempt baseDelay s = int64_of_float64 product)
  /\ (forall v, calculateNextDelay env cfg attempt baseDelay s = Some v ->
                v <= maxDelay).
Proof.
  intros maxDelay factor product Hmax.
  exact (calculateNextDelay_clamped env cfg attempt baseDelay s
           (float64_of_int_exact maxDelay Hmax)).
Qed.

Lemma calculateNextDelay_bounded_witness :
  calculateNextDelay (samples.refusing TimerFired) (samples.cfgWith "prod" 100 3)
    3 5000000000 samples.idle = Some 40000000000
  /\ 40000000000 <= 3600000000000.
Proof.
  assert (H : calculateNextDelay (samples.refusing TimerFired)
                (samples.cfgWith "prod" 100 3) 3 5000000000 samples.idle
              = Some 40000000000) by (vm_compute; reflexivity).
  split; [exact H | ].
  destruct (calculateNextDelay_bounded (samples.refusing TimerFired)
              (samples.cfgWith "prod" 100 3) 3 5000000000 samples.idle)
    as (_ & _ & Hb).
  - split; reflexivity.
  - exact (Hb 40000000000 H).
Defined.

(** A base delay of one nanosecond, attempt 0, factor 2 and a random
    draw of 0: the jittered product is 0.8 and the delay returned is 0,
    which no jitter factor between 0.8 and 1.2 gives. *)
Lemma calculateNextDelay_truncates :
  calculateNextDelay (samples.envWith None TimerFired 0%float)
    (samples.cfgWith "prod" 100 3) 0 1 samples.idle = Some 0
  /\ ~ (exists jitter : Q,
          (8 # 10 <= jitter /\ jitter <= 12 # 10
           /\ inject_Z 0
              == Qmin (inject_Z 1 * (2 # 1) ^ 0 * jitter)
                      (inject_Z 3600000000000))%Q).
Proof.
  split; [vm_compute; reflexivity | ].
  intros (jitter & Hlo & Hhi & Heq).
  change ((2 # 1) ^ 0)%Q with 1%Q in Heq.
  destruct (Q.min_spec (inject_Z 1 * 1 * jitter)%Q (inject_Z 3600000000000))
    as [[_ Hmin] | [_ Hmin]]; rewrite Hmin in Heq.
  - assert (H : (jitter == 0)%Q).
    { rewrite Heq. unfold inject_Z. ring. }
    rewrite H in Hlo. unfold Qle in Hlo. simpl in Hlo. lia.
  - unfold Qeq in Heq. simpl in Heq. lia.
Qed.

(** A maximum of 2^53 + 3 ns is not a binary64 value: [float64] rounds
    it up to 2^53 + 4, and a product above it is clamped to that. *)
Lemma calculateNextDelay_inexact_max :
  let cfg :=
    {| config.App := {| config.Environment := "prod" |};
       config.Sync :=
         {| config.Custom :=
              {| config.BatchSize := 100; config.MaxRetries := 3;
                 config.RetryDelay := 5000000000;
                 config.MaxRetryDelay := 9007199254740995;
                 config.BackoffFactor := 2%float |} |} |} in
  int64_of_float64 (float64_of_int 9007199254740995) = Some 9007199254740996
  /\ calculateNextDelay (samples.refusing TimerFired) cfg 0 (2 ^ 60) samples.idle
     = Some 9007199254740996.
Proof.
  cbv zeta. split; vm_compute; reflexivity.
Qed.

(** * Further properties of the engine *)

(** ** What the dispatcher exchanges with the store *)

Section Exchanges.

Import trace.

Variable env : Env.
Variable cfg : config.Config.

Lemma exchanges_app (a b : list Event) :
  observe.exchanges (a ++ b) = (observe.exchanges a ++ observe.exchanges b)%list.
Proof. apply flat_map_app. Qed.

Lemma requests_app (a b : list Event) :
  observe.requests (a ++ b) = (observe.requests a ++ observe.requests b)%list.
Proof. unfold observe.requests. rewrite exchanges_app. apply map_app. Qed.

Lemma invoked_app (a b : list Event) :
  observe.invoked (a ++ b) = (observe.invoked a ++ observe.invoked b)%list.
Proof. apply flat_map_app. Qed.

Lemma waits_app (a b : list Event) :
  observe.waits (a ++ b) = (observe.waits a ++ observe.waits b)%list.
Proof. apply flat_map_app. Qed.

Lemma operationMetrics_app (a b : list Event) :
  observe.operationMetrics (a ++ b)
  = (observe.operationMetrics a ++ observe.operationMetrics b)%list.
Proof. apply flat_map_app. Qed.

Lemma quiet_invoked (d : list Event) :
  forallb quiet d = true -> observe.invoked d = [].
Proof.
  induction d as [ | e d IH]; simpl; intros H; [reflexivity | ].
  apply andb_true_iff in H. destruct H as [He Hd].
  rewrite (IH Hd). destruct e; try reflexivity. discriminate He.
Qed.

Lemma quiet_waits (d : list Event) :
  forallb quiet d = true -> observe.waits d = [].
Proof.
  induction d as [ | e d IH]; simpl; intros H; [reflexivity | ].
  apply andb_true_iff in H. destruct H as [He Hd].
  rewrite (IH Hd). destruct e; try reflexivity. discriminate He.
Qed.

(** The errors of [validateOperation] are InvalidPayload errors, which
    [IsRetryableError] does not retry. *)
Lemma validateOperation_error (op : CategoryOperation) (e : error) :
  validateOperation op = Some e ->
  codeOf e = Some ErrCodeInvalidPayload /\ IsRetryableError e = false.
Proof.
  unfold validateOperation, validateCategoryFields.
  repeat match goal with
         | |- context [if ?b then _ else _] => destruct b
         end; intros H; inversion H; subst; split; reflexivity.
Qed.

(** One entry into the dispatcher sends at most one request, and that
    request carries out the operation. *)
Lemma ProcessCategoryOperation_sends_at_most_one
    (op : CategoryOperation) (s s' : State) (err : option error) :
  ProcessCategoryOperation env cfg (Some op) s = (err, s') ->
  exists d, trace s' = (trace s ++ EvInvoke (Some op) :: d)%list
            /\ forallb quiet d = true
            /\ (List.length (observe.exchanges d) <= 1)%nat
            /\ Forall (observe.answers op) (observe.requests d).
Proof.
  unfold ProcessCategoryOperation, processOperation, createCategory,
    updateCategory, deleteCategory, call, recordMetrics.
  destruct (validateOperation op).
  { intros H; inversion H; subst. eexists. simpl.
    rewrite <- app_assoc. simpl. repeat split; [simpl; lia | constructor]. }
  destruct (String.eqb_spec (Operation op) OperationCreate);
    [ | destruct (String.eqb_spec (Operation op) OperationUpdate);
        [ | destruct (String.eqb_spec (Operation op) OperationDelete) ] ]; simpl.
  all: try match goal with
           | |- context [esClient env ?t ?r] => destruct (esClient env t r)
           end.
  all: intros H; inversion H; subst; clear H; simpl.
  all: repeat rewrite <- app_assoc; simpl.
  all: eexists; repeat split; [simpl; lia | ].
  all: repeat constructor; assumption.
Qed.

(** X1: the value [ProcessCategoryOperation] returns tells what passed
    between it and the store. It returns [nil] exactly when it sent one
    request and the store accepted it; it returns an error that
    [IsRetryableError] retries exactly when it sent one request and the
    store refused it, and the error is then an ESIndex error around
    the store's; every other error is an InvalidPayload error, returned
    without a request. *)
Theorem ProcessCategoryOperation_result_reflects_store
    (o : option CategoryOperation) (s : State) :
  let r := ProcessCategoryOperation env cfg o s in
  exists d,
    trace (snd r) = (trace s ++ d)%list
    /\ match fst r with
       | None => exists q, observe.exchanges d = [(q, None)]
       | Some e =>
           if IsRetryableError e then
             exists q cause,
               observe.exchanges d = [(q, Some cause)]
               /\ causeOf e = Some cause
               /\ codeOf e = Some ErrCodeESIndex
           else
             observe.exchanges d = [] /\ codeOf e = Some ErrCodeInvalidPayload
       end.
Proof.
  unfold ProcessCategoryOperation.
  destruct o as [op | ].
  2:{ eexists. simpl. split; [reflexivity | ]. split; reflexivity. }
  destruct (validateOperation op) as [e | ] eqn:Hv.
  - destruct (validateOperation_error _ _ Hv) as [Hc Hr].
    eexists. cbn [fst snd]. rewrite Hr.
    split; [cbn [trace emit]; rewrite <- app_assoc; reflexivity | ].
    split; [reflexivity | exact Hc].
  - unfold processOperation, createCategory, updateCategory, deleteCategory,
      call, recordMetrics.
    destruct (Operation op =? OperationCreate)%string;
      [ | destruct (Operation op =? OperationUpdate)%string;
          [ | destruct (Operation op =? OperationDelete)%string ] ]; simpl.
    all: try match goal with
             | |- context [esClient env ?t ?q] => destruct (esClient env t q)
             end.
    all: simpl; repeat rewrite <- app_assoc; simpl.
    all: eexists; (split; [reflexivity | ]); simpl; eauto.
Qed.

(** X2: an operation that passes validation is sent to the index of the
    current month as one request chosen by its kind: a create as an
    Index of the payload with the sync fields set, an update as an
    Update that upserts the same document, a delete as a Delete that
    carries nothing but the payload's id. *)
Theorem ProcessCategoryOperation_routes (op : CategoryOperation) (s : State) :
  validateOperation op = None ->
  let s1 := emit (EvLog "Starting category operation")
              (emit (EvInvoke (Some op)) s) in
  let index := getCurrentIndexName env cfg "categories" s1 in
  let doc := setLastSync (timeNow env (trace s1))
               (setSyncStatus SyncStatusSuccess (Payload op)) in
  observe.requests (trace (snd (ProcessCategoryOperation env cfg (Some op) s)))
  = (observe.requests (trace s)
     ++ if (Operation op =? OperationCreate)%string then
          [Index index (ID (Payload op)) (DocBody doc)]
        else if (Operation op =? OperationUpdate)%string then
          [Update index (ID (Payload op)) (UpsertBody doc)]
        else if (Operation op =? OperationDelete)%string then
          [Delete index (ID (Payload op))]
        else [])%list.
Proof.
  intros Hv s1 index doc. subst s1 index doc.
  unfold ProcessCategoryOperation. rewrite Hv.
  unfold processOperation, createCategory, updateCategory, deleteCategory,
    call, recordMetrics.
  destruct (Operation op =? OperationCreate)%string;
    [ | destruct (Operation op =? OperationUpdate)%string;
        [ | destruct (Operation op =? OperationDelete)%string ] ]; simpl.
  all: try match goal with
           | |- context [esClient env ?t ?q] => destruct (esClient env t q)
           end.
  all: simpl; repeat rewrite requests_app; simpl; repeat rewrite app_nil_r;
    reflexivity.
Qed.

(** X3: the metrics collector hears of an operation once per entry that
    passed validation, as SUCCESS with no error when the entry returned
    [nil] and as FAILED with one error otherwise; an operation that is
    [nil] or fails validation is not recorded at all. *)
Theorem ProcessCategoryOperation_metrics
    (o : option CategoryOperation) (s : State) :
  let r := ProcessCategoryOperation env cfg o s in
  observe.operationMetrics (trace (snd r))
  = (observe.operationMetrics (trace s)
     ++ match o with
        | None => []
        | Some op =>
            match validateOperation op, fst r with
            | Some _, _ => []
            | None, None => [(Operation op, "SUCCESS", 0)]
            | None, Some _ => [(Operation op, "FAILED", 1)]
            end
        end)%list.
Proof.
  unfold ProcessCategoryOperation.
  destruct o as [op | ].
  2:{ simpl. rewrite operationMetrics_app. reflexivity. }
  destruct (validateOperation op) as [e | ] eqn:Hv.
  { simpl. repeat rewrite operationMetrics_app. simpl.
    repeat rewrite app_nil_r. reflexivity. }
  unfold processOperation, createCategory, updateCategory, deleteCategory,
    call, recordMetrics.
  destruct (Operation op =? OperationCreate)%string;
    [ | destruct (Operation op =? OperationUpdate)%string;
        [ | destruct (Operation op =? OperationDelete)%string ] ]; simpl.
  all: try match goal with
           | |- context [esClient env ?t ?q] => destruct (esClient env t q)
           end.
  all: simpl; repeat rewrite operationMetrics_app; simpl;
    repeat rewrite app_nil_r; reflexivity.
Qed.

(** ** The traffic of a retry sequence *)

Local Abbreviation maxRetries :=
  (config.MaxRetries (config.Custom (config.Sync cfg))).
Local Abbreviation maxDelay :=
  (config.MaxRetryDelay (config.Custom (config.Sync cfg))).
Local Abbreviation baseDelay :=
  (config.RetryDelay (config.Custom (config.Sync cfg))).

(** What the loop adds to the trace: entries into the dispatcher with
    the operation it was given, no more of them than attempts are
    left, and no more requests than entries, each carrying out the
    operation. *)
Lemma retryLoop_traffic (fuel : nat) :
  forall (o : CategoryOperation) (attempt : Z) (lastErr : option error)
         (h : RetryHistory) (s : State) ret h' s',
    retryLoop env cfg fuel o attempt lastErr h s = Some (ret, h', s') ->
    exists delta,
      trace s' = (trace s ++ delta)%list
      /\ Forall (eq (Some o)) (observe.invoked delta)
      /\ Forall (observe.answers o) (observe.requests delta)
      /\ (List.length (observe.requests delta)
          <= List.length (observe.invoked delta))%nat
      /\ Z.of_nat (List.length (observe.invoked delta))
         <= Z.max 0 (maxRetries - attempt).
Proof.
  induction fuel as [ | fuel IH]; intros o attempt lastErr h s ret h' s' H;
    [discriminate | ].
  cbn [retryLoop] in H.
  destruct (Z.ltb_spec attempt maxRetries) as [Hlt | Hge].
  2:{ inversion H; subst. exists []. rewrite app_nil_r.
      repeat split; simpl; try constructor; lia. }
  destruct (ProcessCategoryOperation env cfg (Some o) s) as [err s1] eqn:Hp.
  destruct (ProcessCategoryOperation_sends_at_most_one _ _ _ _ Hp)
    as (d & Ht & Hq & Hx & Hans).
  assert (Hstep : forall tl delta,
     observe.invoked tl = [] -> observe.requests tl = [] ->
     Forall (eq (Some o)) (observe.invoked delta) ->
     Forall (observe.answers o) (observe.requests delta) ->
     (List.length (observe.requests delta)
      <= List.length (observe.invoked delta))%nat ->
     Z.of_nat (List.length (observe.invoked delta))
     <= Z.max 0 (maxRetries - (attempt + 1)) ->
     let delta' := (EvInvoke (Some o) :: d ++ tl ++ delta)%list in
     Forall (eq (Some o)) (observe.invoked delta')
     /\ Forall (observe.answers o) (observe.requests delta')
     /\ (List.length (observe.requests delta')
         <= List.length (observe.invoked delta'))%nat
     /\ Z.of_nat (List.length (observe.invoked delta'))
        <= Z.max 0 (maxRetries - attempt)).
  { intros tl delta Hi He Hall Hans' Hlen Hbound delta'. subst delta'.
    change (observe.invoked (EvInvoke (Some o) :: ?l))
      with (Some o :: observe.invoked l).
    change (observe.requests (EvInvoke (Some o) :: ?l))
      with (observe.requests l).
    repeat rewrite invoked_app. repeat rewrite requests_app.
    rewrite (quiet_invoked d Hq), Hi, He. simpl.
    rewrite length_app.
    assert (List.length (observe.requests d) <= 1)%nat
      by (unfold observe.requests; rewrite length_map; exact Hx).
    repeat split; [constructor; [reflexivity | exact Hall]
                  | apply Forall_app; split; assumption | lia | lia]. }
  destruct err as [e | ].
  - match type of H with
    | context [selectWait env ?t ?dl] => destruct (selectWait env t dl)
    end.
    + inversion H; subst; clear H.
      exists (EvInvoke (Some o)
                :: d ++ [EvLogError e "Retry attempt failed";
                         EvWait (calculateNextDelay env cfg attempt baseDelay s)
                                CtxDone] ++ [])%list.
      split.
      { cbn [trace emit]. rewrite Ht. repeat rewrite <- app_assoc. reflexivity. }
      apply Hstep; simpl; try constructor; lia.
    + apply IH in H. destruct H as (delta & Hd & Hall & Hans' & Hlen & Hbound).
      exists (EvInvoke (Some o)
                :: d ++ [EvLogError e "Retry attempt failed";
                         EvWait (calculateNextDelay env cfg attempt baseDelay s)
                                TimerFired] ++ delta)%list.
      split.
      { rewrite Hd. cbn [trace emit]. rewrite Ht. repeat rewrite <- app_assoc.
        reflexivity. }
      apply Hstep; try assumption; reflexivity.
  - inversion H; subst; clear H.
    exists (EvInvoke (Some o)
              :: d ++ [EvLog "Retry sequence completed"] ++ [])%list.
    split.
    { cbn [trace emit]. rewrite Ht. repeat rewrite <- app_assoc. reflexivity. }
    apply Hstep; simpl; try constructor; lia.
Qed.

(** The deferred [cleanup] adds at most one log line. *)
Lemma cleanup_trace (ret : option error) (h : RetryHistory) (s : State) :
  exists tl,
    trace (snd (cleanup ret h s)) = (trace s ++ tl)%list
    /\ (tl = [] \/ tl = [EvLog "Recording failed retry attempt"]).
Proof.
  unfold cleanup, recordFailedAttempt.
  destruct (HistoryStatus h =? "FAILED")%string.
  2:{ exists []. rewrite app_nil_r. split; [reflexivity | left; reflexivity]. }
  destruct (last (map Some (Attempts h)) None) as [a | ].
  2:{ exists []. rewrite app_nil_r. split; [reflexivity | left; reflexivity]. }
  destruct (Error a).
  - eexists. split; [reflexivity | right; reflexivity].
  - exists []. rewrite app_nil_r. split; [reflexivity | left; reflexivity].
Qed.

(** The trace of a call is the trace of its loop, followed by what the
    deferred [cleanup] logs. *)
Lemma RetryWithBackoff_trace (o : CategoryOperation) (s : State) :
  exists ret h s1 tl,
    retryLoop env cfg (S (Z.to_nat maxRetries)) o 0 None (newHistory o)
      (emit (EvLog "Starting retry sequence") s) = Some (ret, h, s1)
    /\ trace (snd (RetryWithBackoff env cfg o s)) = (trace s1 ++ tl)%list
    /\ (tl = [] \/ tl = [EvLog "Recording failed retry attempt"]).
Proof.
  destruct (RetryWithBackoff_run env cfg o s)
    as (ret & h & s1 & delta & Hloop & _ & _ & _ & _ & Hret).
  destruct (cleanup_trace ret h s1) as (tl & Htl & Hcase).
  exists ret, h, s1, tl. rewrite Hret. repeat split; assumption.
Qed.

(** Every delay the loop waits for was clamped to the maximum. *)
Lemma retryLoop_waits (fuel : nat) :
  int64_of_float64 (float64_of_int maxDelay) = Some maxDelay ->
  forall (o : CategoryOperation) (attempt : Z) (lastErr : option error)
         (h : RetryHistory) (s : State) ret h' s',
    retryLoop env cfg fuel o attempt lastErr h s = Some (ret, h', s') ->
    exists delta,
      trace s' = (trace s ++ delta)%list
      /\ forall v, In (Some v) (observe.waits delta) -> v <= maxDelay.
Proof.
  intros Hexact.
  induction fuel as [ | fuel IH]; intros o attempt lastErr h s ret h' s' H;
    [discriminate | ].
  cbn [retryLoop] in H.
  destruct (Z.ltb_spec attempt maxRetries) as [Hlt | Hge].
  2:{ inversion H; subst. exists []. rewrite app_nil_r.
      split; [reflexivity | ]. simpl. intros v []. }
  pose proof (proj2 (proj2 (calculateNextDelay_clamped env cfg attempt
                              baseDelay s Hexact))) as Hdelay.
  destruct (ProcessCategoryOperation env cfg (Some o) s) as [err s1] eqn:Hp.
  destruct (ProcessCategoryOperation_sends_at_most_one _ _ _ _ Hp)
    as (d & Ht & Hq & _).
  destruct err as [e | ].
  - match type of H with
    | context [selectWait env ?t ?dl] => destruct (selectWait env t dl)
    end.
    + inversion H; subst; clear H.
      eexists. cbn [trace emit]. rewrite Ht. repeat rewrite <- app_assoc.
      cbn [app]. split; [reflexivity | ].
      change (observe.waits (EvInvoke (Some o) :: ?l)) with (observe.waits l).
      rewrite waits_app, (quiet_waits d Hq). simpl.
      intros v [Hv | []]. apply Hdelay. exact Hv.
    + apply IH in H. destruct H as (delta & Hd & Hall).
      exists (EvInvoke (Some o)
                :: d ++ [EvLogError e "Retry attempt failed";
                         EvWait (calculateNextDelay env cfg attempt baseDelay s)
                                TimerFired] ++ delta)%list.
      split.
      { rewrite Hd. cbn [trace emit]. rewrite Ht. repeat rewrite <- app_assoc.
        reflexivity. }
      change (observe.waits (EvInvoke (Some o) :: ?l)) with (observe.waits l).
      repeat rewrite waits_app. rewrite (quiet_waits d Hq). simpl.
      intros v [Hv | Hv]; [apply Hdelay; exact Hv | apply Hall; exact Hv].
  - inversion H; subst; clear H.
    eexists. cbn [trace emit]. rewrite Ht. repeat rewrite <- app_assoc.
    cbn [app]. split; [reflexivity | ].
    change (observe.waits (EvInvoke (Some o) :: ?l)) with (observe.waits l).
    rewrite waits_app, (quiet_waits d Hq). simpl. intros v [].
Qed.

(** With at least one attempt allowed the call returns: the deferred
    [cleanup] finds a failed last attempt whenever the status is
    FAILED. *)
Lemma RetryWithBackoff_returns (o : CategoryOperation) (s : State) :
  1 <= maxRetries ->
  exists ret s', RetryWithBackoff env cfg o s = (Return ret, s').
Proof.
  intros Hn.
  destruct (RetryWithBackoff_run env cfg o s)
    as (ret & h & s1 & delta & _ & _ & _ & _ & Hrun & Hret).
  rewrite Hret.
  destruct (String.eqb_spec (HistoryStatus h) "FAILED") as [Hst | Hst].
  - destruct (run_failed _ _ _ _ _ _ _ _ _ Hrun Hst) as (Hl & Hall & _).
    assert (Hne : Attempts h <> []).
    { intros Hnil. rewrite Hnil in Hl. simpl in Hl. lia. }
    rewrite (cleanup_failed ret h s1 Hst Hne Hall). eauto.
  - rewrite (cleanup_not_failed ret h s1 Hst). eauto.
Qed.

End Exchanges.

(** X4: whatever [MaxRetries] is and however the call ends,
    [RetryWithBackoff] enters the dispatcher with the operation it was
    given and with nothing else, at most [MaxRetries] times (never,
    when [MaxRetries] is not positive), and sends the store at most one
    request per entry, each of the kind of the operation and under the
    payload's id; it never sends a Bulk request. *)
Theorem RetryWithBackoff_traffic
    (env : Env) (cfg : config.Config) (o : CategoryOperation) (s : State) :
  let n := config.MaxRetries (config.Custom (config.Sync cfg)) in
  exists delta,
    trace (snd (RetryWithBackoff env cfg o s)) = (trace s ++ delta)%list
    /\ Forall (eq (Some o)) (observe.invoked delta)
    /\ Forall (observe.answers o) (observe.requests delta)
    /\ (List.length (observe.requests delta)
        <= List.length (observe.invoked delta))%nat
    /\ Z.of_nat (List.length (observe.invoked delta)) <= Z.max 0 n.
Proof.
  intros n.
  destruct (RetryWithBackoff_trace env cfg o s)
    as (ret & h & s1 & tl & Hloop & Ht & Hcase).
  destruct (retryLoop_traffic env cfg _ _ _ _ _ _ _ _ _ Hloop)
    as (delta & Hd & Hall & Hans & Hlen & Hn).
  rewrite Z.sub_0_r in Hn.
  exists (EvLog "Starting retry sequence" :: delta ++ tl)%list.
  split.
  { rewrite Ht, Hd. cbn [trace emit]. repeat rewrite <- app_assoc.
    reflexivity. }
  change (observe.invoked (EvLog "Starting retry sequence" :: ?l))
    with (observe.invoked l).
  change (observe.requests (EvLog "Starting retry sequence" :: ?l))
    with (observe.requests l).
  rewrite invoked_app, requests_app.
  destruct Hcase as [-> | ->]; cbn; repeat rewrite app_nil_r;
    repeat split; assumption.
Qed.

(** X5: when [MaxRetryDelay] is below 2^53 ns, no wait of a retry
    sequence is longer than [MaxRetryDelay]: every delay that
    [RetryWithBackoff] hands to [time.After] was clamped by
    [calculateNextDelay]. *)
Theorem RetryWithBackoff_waits_bounded
    (env : Env) (cfg : config.Config) (o : CategoryOperation) (s : State) :
  let maxDelay := config.MaxRetryDelay (config.Custom (config.Sync cfg)) in
  - 2 ^ 53 < maxDelay < 2 ^ 53 ->
  exists delta,
    trace (snd (RetryWithBackoff env cfg o s)) = (trace s ++ delta)%list
    /\ forall v, In (Some v) (observe.waits delta) -> v <= maxDelay.
Proof.
  intros maxDelay Hmax.
  destruct (RetryWithBackoff_trace env cfg o s)
    as (ret & h & s1 & tl & Hloop & Ht & Hcase).
  destruct (retryLoop_waits env cfg _ (float64_of_int_exact _ Hmax)
              _ _ _ _ _ _ _ _ Hloop) as (delta' & Ht' & Hall).
  exists (EvLog "Starting retry sequence" :: delta' ++ tl)%list.
  split.
  { rewrite Ht, Ht'. cbn [trace emit]. repeat rewrite <- app_assoc.
    reflexivity. }
  change (observe.waits (EvLog "Starting retry sequence" :: ?l))
    with (observe.waits l).
  rewrite waits_app.
  destruct Hcase as [-> | ->]; simpl; rewrite app_nil_r; exact Hall.
Qed.

Lemma RetryWithBackoff_waits_bounded_witness :
  exists delta,
    trace (snd (RetryWithBackoff (samples.refusing TimerFired)
                  (samples.cfgWith "prod" 100 3) samples.createGames samples.idle))
    = delta
    /\ observe.waits delta = [Some 5000000000; Some 10000000000; Some 20000000000]
    /\ forall v, In (Some v) (observe.waits delta) -> v <= 3600000000000.
Proof.
  destruct (RetryWithBackoff_waits_bounded (samples.refusing TimerFired)
              (samples.cfgWith "prod" 100 3) samples.createGames samples.idle)
    as (delta & Ht & Hall).
  - simpl. lia.
  - exists delta. split; [exact Ht | ]. split; [ | exact Hall].
    change (trace samples.idle ++ delta)%list with delta in Ht.
    rewrite <- Ht. vm_compute. reflexivity.
Defined.

(** X6: when [MaxRetries] is zero or negative, [RetryWithBackoff] makes
    no attempt, sets the status FAILED with an empty history, and the
    deferred [cleanup] panics in [recordFailedAttempt], which indexes
    the last attempt of that empty history. *)
Theorem RetryWithBackoff_without_attempts_panics
    (env : Env) (cfg : config.Config) (o : CategoryOperation) (s : State) :
  config.MaxRetries (config.Custom (config.Sync cfg)) <= 0 ->
  RetryWithBackoff env cfg o s
  = (Panic "index out of range [-1]", emit (EvLog "Starting retry sequence") s).
Proof.
  intros Hn. unfold RetryWithBackoff. cbn [retryLoop].
  destruct (Z.ltb_spec 0 (config.MaxRetries (config.Custom (config.Sync cfg))));
    [lia | ].
  reflexivity.
Qed.

Lemma RetryWithBackoff_without_attempts_panics_witness :
  RetryWithBackoff (samples.refusing TimerFired) (samples.cfgWith "prod" 100 0)
    samples.createGames samples.idle
  = (Panic "index out of range [-1]",
     emit (EvLog "Starting retry sequence") samples.idle).
Proof.
  apply RetryWithBackoff_without_attempts_panics. simpl. lia.
Defined.

(** ** The traffic of a consumed message *)

Section ConsumerTraffic.

Import consumers.

Variable env : Env.
Variable cfg : config.Config.
Variable dec : Decoder.

Local Abbreviation maxRetries :=
  (config.MaxRetries (config.Custom (config.Sync cfg))).

(** The operation [processMessage] builds from an event and its
    entity snapshot. *)
Local Abbreviation operationOf event category :=
  {| Operation := mapOperation (Op (Payload event));
     models.Payload := category;
     models.Timestamp :=
       Unix0 (localOffset dec)
         (mulInt64 (Timestamp (Source (Payload event))) 1000000) |}.

Lemma decodeCategory_valid (operation : string) (event : DebeziumEvent)
    (c : Category) :
  decodeCategory dec operation event = inr c ->
  IsValidOperation operation = true.
Proof.
  unfold decodeCategory, IsValidOperation.
  destruct (operation =? OperationCreate)%string; [reflexivity | ].
  destruct (operation =? OperationUpdate)%string; [reflexivity | ].
  destruct (operation =? OperationDelete)%string; [reflexivity | ].
  simpl. discriminate.
Qed.

(** What a message adds to the trace: nothing, when it is rejected
    before the dispatcher; otherwise the events of a first entry into
    the dispatcher with the operation decoded from the message, and
    then entries of the retry sequence with that same operation. *)
Lemma processMessage_delta (message : ConsumerMessage) (s : State) :
  exists delta,
    trace (snd (processMessage env cfg dec message s)) = (trace s ++ delta)%list
    /\ (List.length (observe.requests delta)
        <= List.length (observe.invoked delta))%nat
    /\ Z.of_nat (List.length (observe.invoked delta)) <= 1 + Z.max 0 maxRetries
    /\ match unmarshalEvent dec (Value message) with
       | inl _ => delta = []
       | inr event =>
           match validateMessage event,
                 decodeCategory dec (mapOperation (Op (Payload event))) event
           with
           | None, inr c =>
               Forall (eq (Some (operationOf event c))) (observe.invoked delta)
               /\ Forall (observe.answers (operationOf event c))
                    (observe.requests delta)
               /\ exists tl,
                    (trace s ++ delta
                     = trace (snd (ProcessCategoryOperation env cfg
                                     (Some (operationOf event c)) s)) ++ tl)%list
           | _, _ => delta = []
           end
       end.
Proof.
  assert (Hnone : forall P : Prop, P ->
            exists delta : list Event,
              trace s = (trace s ++ delta)%list
              /\ (List.length (observe.requests delta)
                  <= List.length (observe.invoked delta))%nat
              /\ Z.of_nat (List.length (observe.invoked delta))
                 <= 1 + Z.max 0 maxRetries
              /\ (delta = [] /\ P)).
  { intros P HP. exists []. rewrite app_nil_r.
    cbn [observe.invoked observe.requests observe.exchanges flat_map map
         List.length Z.of_nat].
    repeat split; [lia | lia | exact HP]. }
  unfold processMessage.
  destruct (unmarshalEvent dec (Value message)) as [err | event].
  { destruct (Hnone True I) as (delta & H1 & H2 & H3 & H4 & _).
    exists delta. repeat split; assumption. }
  destruct (validateMessage event) as [err | ].
  { destruct (Hnone True I) as (delta & H1 & H2 & H3 & H4 & _).
    exists delta. repeat split; assumption. }
  destruct (decodeCategory dec (mapOperation (Op (Payload event))) event)
    as [err | c].
  { destruct (Hnone True I) as (delta & H1 & H2 & H3 & H4 & _).
    exists delta. repeat split; assumption. }
  clear Hnone.
  destruct (ProcessCategoryOperation env cfg (Some (operationOf event c)) s)
    as [err s1] eqn:Hp.
  destruct (ProcessCategoryOperation_sends_at_most_one _ _ _ _ _ _ Hp)
    as (d & Ht & Hq & Hx & Hans).
  assert (Hreq : (List.length (observe.requests d) <= 1)%nat)
    by (unfold observe.requests; rewrite length_map; exact Hx).
  cbn [snd].
  assert (Hone :
    exists delta, trace s1 = (trace s ++ delta)%list
      /\ (List.length (observe.requests delta)
          <= List.length (observe.invoked delta))%nat
      /\ Z.of_nat (List.length (observe.invoked delta))
         <= 1 + Z.max 0 maxRetries
      /\ Forall (eq (Some (operationOf event c))) (observe.invoked delta)
      /\ Forall (observe.answers (operationOf event c))
           (observe.requests delta)
      /\ exists tl, (trace s ++ delta = trace s1 ++ tl)%list).
  { exists (EvInvoke (Some (operationOf event c)) :: d).
    split; [exact Ht | ].
    change (observe.invoked (EvInvoke ?o :: ?l)) with (o :: observe.invoked l).
    change (observe.requests (EvInvoke ?o :: ?l)) with (observe.requests l).
    rewrite (quiet_invoked d Hq). cbn [List.length].
    repeat split; [lia | lia | repeat constructor | exact Hans | ].
    exists []. rewrite Ht, app_nil_r. reflexivity. }
  destruct err as [e | ]; [ | exact Hone].
  destruct (IsRetryableError e); [ | exact Hone].
  clear Hone. unfold RetryOperation.
  destruct (RetryWithBackoff_trace env cfg (operationOf event c) s1)
    as (ret & h & s2 & tl & Hloop & Htr & Hcase).
  destruct (retryLoop_traffic env cfg _ _ _ _ _ _ _ _ _ Hloop)
    as (delta & Hd & Hall & Hans' & Hlen & Hn).
  rewrite Z.sub_0_r in Hn.
  exists (EvInvoke (Some (operationOf event c))
            :: d ++ EvLog "Starting retry sequence" :: delta ++ tl)%list.
  split.
  { rewrite Htr, Hd. cbn [trace emit]. rewrite Ht.
    repeat rewrite <- app_assoc. reflexivity. }
  change (observe.invoked (EvInvoke ?o :: ?l)) with (o :: observe.invoked l).
  change (observe.requests (EvInvoke ?o :: ?l)) with (observe.requests l).
  rewrite invoked_app, requests_app, (quiet_invoked d Hq).
  change (observe.invoked (EvLog "Starting retry sequence" :: ?l))
    with (observe.invoked l).
  change (observe.requests (EvLog "Starting retry sequence" :: ?l))
    with (observe.requests l).
  rewrite invoked_app, requests_app.
  assert (Htl : observe.invoked tl = [] /\ observe.requests tl = [])
    by (destruct Hcase as [-> | ->]; split; reflexivity).
  destruct Htl as [Hti Htq]. rewrite Hti, Htq.
  cbn [List.length app]. repeat rewrite app_nil_r. rewrite !length_app.
  repeat split;
    [lia | lia | constructor; [reflexivity | exact Hall]
    | apply Forall_app; split; assumption | ].
  exists (EvLog "Starting retry sequence" :: delta ++ tl)%list.
  rewrite Ht. repeat rewrite <- app_assoc. reflexivity.
Qed.

(** With at least one attempt allowed, [processMessage] returns. *)
Lemma processMessage_returns (message : ConsumerMessage) (s : State) :
  1 <= maxRetries ->
  exists ret s', processMessage env cfg dec message s = (Return ret, s').
Proof.
  intros Hn. unfold processMessage.
  destruct (unmarshalEvent dec (Value message)) as [err | event]; [eauto | ].
  destruct (validateMessage event) as [err | ]; [eauto | ].
  destruct (decodeCategory dec (mapOperation (Op (Payload event))) event)
    as [err | c]; [eauto | ].
  destruct (ProcessCategoryOperation env cfg (Some (operationOf event c)) s)
    as [err s1].
  destruct err as [e | ]; [ | eauto].
  destruct (IsRetryableError e); [ | eauto].
  apply RetryWithBackoff_returns. exact Hn.
Qed.

End ConsumerTraffic.

(** X7: a message costs the dispatcher at most [MaxRetries + 1]
    entries: the one [processMessage] makes itself and the attempts of
    the retry sequence that follows a retryable failure. Every entry is
    made with an operation that [IsValidOperation] accepts, so the
    Unknown-operation branches of the dispatcher are never reached from
    the consumer; and no more requests than entries reach the store. *)
Theorem processMessage_traffic
    (env : Env) (cfg : config.Config) (dec : consumers.Decoder)
    (message : consumers.ConsumerMessage) (s : State) :
  let n := config.MaxRetries (config.Custom (config.Sync cfg)) in
  exists delta,
    trace (snd (consumers.processMessage env cfg dec message s))
    = (trace s ++ delta)%list
    /\ (forall o, In o (observe.invoked delta) ->
          exists op, o = Some op /\ IsValidOperation (Operation op) = true)
    /\ (List.length (observe.requests delta)
        <= List.length (observe.invoked delta))%nat
    /\ Z.of_nat (List.length (observe.invoked delta)) <= 1 + Z.max 0 n.
Proof.
  intros n.
  destruct (processMessage_delta env cfg dec message s)
    as (delta & Ht & Hlen & Hn & Hcase).
  exists delta. repeat split; try assumption.
  intros o Hin.
  destruct (consumers.unmarshalEvent dec (consumers.Value message))
    as [err | event]; [subst delta; destruct Hin | ].
  destruct (consumers.validateMessage event);
    [subst delta; destruct Hin | ].
  destruct (consumers.decodeCategory dec
              (consumers.mapOperation (consumers.Op (consumers.Payload event)))
              event) as [err | c] eqn:Hd; [subst delta; destruct Hin | ].
  destruct Hcase as (Hall & _).
  rewrite Forall_forall in Hall. rewrite <- (Hall o Hin).
  eexists. split; [reflexivity | ].
  exact (decodeCategory_valid dec _ _ _ Hd).
Qed.

(** X8: a delete event is carried out from its before-image alone: when
    the event parses, has a source timestamp, and its [before] snapshot
    decodes to a category with an id, every request the message causes
    is a Delete under that id, and at least one is sent. Neither the
    [after] snapshot nor the name and description of the category are
    looked at. *)
Theorem processMessage_delete_by_before_image
    (env : Env) (cfg : config.Config) (dec : consumers.Decoder)
    (message : consumers.ConsumerMessage) (event : consumers.DebeziumEvent)
    (c : Category) (s : State) :
  consumers.unmarshalEvent dec (consumers.Value message) = inr event ->
  consumers.Op (consumers.Payload event) = "d" ->
  consumers.Timestamp (consumers.Source (consumers.Payload event)) <> 0 ->
  consumers.unmarshalCategory dec (consumers.Before (consumers.Payload event))
  = inr c ->
  ID c <> "" ->
  exists delta,
    trace (snd (consumers.processMessage env cfg dec message s))
    = (trace s ++ delta)%list
    /\ observe.requests delta <> []
    /\ Forall (fun q => exists index, q = Delete index (ID c))
         (observe.requests delta).
Proof.
  intros Hu Hop Hts Hbefore Hid.
  destruct (processMessage_delta env cfg dec message s)
    as (delta & Ht & _ & _ & Hcase).
  exists delta. split; [exact Ht | ].
  assert (Hv : consumers.validateMessage event = None).
  { unfold consumers.validateMessage. rewrite Hop.
    destruct (Z.eqb_spec (consumers.Timestamp (consumers.Source
                                                 (consumers.Payload event))) 0);
      [contradiction | reflexivity]. }
  assert (Hd : consumers.decodeCategory dec
                 (consumers.mapOperation (consumers.Op (consumers.Payload event)))
                 event = inr c).
  { rewrite Hop. unfold consumers.decodeCategory. simpl. rewrite Hbefore.
    reflexivity. }
  rewrite Hu, Hv, Hd in Hcase. destruct Hcase as (_ & Hans & tl & Htl).
  rewrite Hop in *.
  cbn [consumers.mapOperation String.eqb Ascii.eqb Bool.eqb] in *.
  split.
  - (* the first entry passes validation and sends the Delete *)
    revert Htl.
    unfold ProcessCategoryOperation, validateOperation.
    cbn [Payload Operation].
    destruct (String.eqb_spec (ID c) ""); [contradiction | ].
    cbn [String.eqb Ascii.eqb Bool.eqb OperationCreate OperationUpdate
         OperationDelete orb].
    unfold processOperation.
    cbn [Payload Operation String.eqb Ascii.eqb Bool.eqb OperationCreate
         OperationUpdate OperationDelete orb].
    unfold deleteCategory, call, recordMetrics.
    match goal with
    | |- context [esClient env ?t ?q] => destruct (esClient env t q) as [e | ]
    end.
    all: cbn [snd trace emit String.eqb Ascii.eqb Bool.eqb];
      repeat rewrite <- app_assoc; cbn [app];
      intros Heq; apply app_inv_head in Heq; rewrite Heq; discriminate.
  - revert Hans. apply Forall_impl. intros q Hq.
    destruct q as [i id b | i id b | i id | b]; cbn in Hq.
    + destruct Hq as [Hq _]. discriminate Hq.
    + destruct Hq as [Hq _]. discriminate Hq.
    + destruct Hq as [_ ->]. exists i. reflexivity.
    + contradiction.
Qed.

Lemma processMessage_delete_by_before_image_witness :
  exists delta,
    trace (snd (consumers.processMessage (samples.envWith None TimerFired 0.5%float)
                  (samples.cfgWith "prod" 100 3) fixtures.beforeOnly
                  samples.message0 samples.idle))
    = (trace samples.idle ++ delta)%list
    /\ observe.requests delta <> []
    /\ Forall (fun q => exists index, q = Delete index "c2")
         (observe.requests delta).
Proof.
  apply (processMessage_delete_by_before_image
           (samples.envWith None TimerFired 0.5%float)
           (samples.cfgWith "prod" 100 3) fixtures.beforeOnly
           samples.message0 (samples.eventOf "d" 1744000000000)
           samples.games samples.idle);
    [reflexivity | reflexivity | discriminate | reflexivity | discriminate].
Defined.

(** X9: the operation handed to the dispatcher is stamped with the
    source time of the event: as long as the timestamp in milliseconds
    times 10^6 fits in [int64] (dates up to the year 2262), the
    operation's time is that instant, to the millisecond, in the local
    zone. *)
Theorem processMessage_timestamp
    (env : Env) (cfg : config.Config) (dec : consumers.Decoder)
    (message : consumers.ConsumerMessage) (event : consumers.DebeziumEvent)
    (s : State) :
  consumers.unmarshalEvent dec (consumers.Value message) = inr event ->
  let ts := consumers.Timestamp (consumers.Source (consumers.Payload event)) in
  - 9223372036854 <= ts <= 9223372036854 ->
  exists delta,
    trace (snd (consumers.processMessage env cfg dec message s))
    = (trace s ++ delta)%list
    /\ forall op, In (Some op) (observe.invoked delta) ->
         time.sec (models.Timestamp op) * 1000
           + time.nsec (models.Timestamp op) / 1000000 = ts
         /\ time.nsec (models.Timestamp op) mod 1000000 = 0
         /\ time.offset (models.Timestamp op) = consumers.localOffset dec.
Proof.
  intros Hu ts Hts.
  destruct (processMessage_delta env cfg dec message s)
    as (delta & Ht & _ & _ & Hcase).
  exists delta. split; [exact Ht | ].
  intros op Hin.
  rewrite Hu in Hcase.
  destruct (consumers.validateMessage event);
    [subst delta; destruct Hin | ].
  destruct (consumers.decodeCategory dec
              (consumers.mapOperation (consumers.Op (consumers.Payload event)))
              event) as [err | c]; [subst delta; destruct Hin | ].
  destruct Hcase as (Hall & _).
  rewrite Forall_forall in Hall. specialize (Hall _ Hin).
  inversion Hall; subst op; clear Hall.
  cbn [models.Timestamp]. fold ts.
  unfold consumers.Unix0, consumers.mulInt64.
  cbn [time.sec time.nsec time.offset].
  rewrite Z.mod_small by lia.
  replace (ts * 1000000 + 2 ^ 63 - 2 ^ 63) with (ts * 1000000) by lia.
  pose proof (Z.div_mod (ts * 1000000) 1000000000 ltac:(lia)) as Hq.
  pose proof (Z.mod_pos_bound (ts * 1000000) 1000000000 ltac:(lia)) as Hr.
  set (q := ts * 1000000 / 1000000000) in *.
  set (r := (ts * 1000000) mod 1000000000) in *.
  pose proof (Z.div_mod r 1000000 ltac:(lia)) as Hq'.
  pose proof (Z.mod_pos_bound r 1000000 ltac:(lia)) as Hr'.
  set (a := r / 1000000) in *.
  set (b := r mod 1000000) in *.
  repeat split; lia.
Qed.

Lemma processMessage_timestamp_witness :
  exists delta,
    trace (snd (consumers.processMessage (samples.envWith None TimerFired 0.5%float)
                  (samples.cfgWith "prod" 100 3)
                  (samples.decoderOf (samples.eventOf "c" 1744000000123)
                     (inr samples.games))
                  samples.message0 samples.idle))
    = (trace samples.idle ++ delta)%list
    /\ forall op, In (Some op) (observe.invoked delta) ->
         time.sec (models.Timestamp op) * 1000
           + time.nsec (models.Timestamp op) / 1000000 = 1744000000123
         /\ time.nsec (models.Timestamp op) mod 1000000 = 0
         /\ time.offset (models.Timestamp op) = 0.
Proof.
  apply (processMessage_timestamp (samples.envWith None TimerFired 0.5%float)
           (samples.cfgWith "prod" 100 3)
           (samples.decoderOf (samples.eventOf "c" 1744000000123)
              (inr samples.games))
           samples.message0 (samples.eventOf "c" 1744000000123) samples.idle);
    [reflexivity | simpl; lia].
Defined.

(** X10: with at least one attempt allowed, [ConsumeClaim] never ends
    on an error, a panic or a held mutex: whatever the messages and
    however their processing fails, the loop goes on to the next input,
    and it returns [nil] at the first input that closes the claim. *)
Theorem ConsumeClaim_ends_without_error
    (env : Env) (cfg : config.Config) (dec : consumers.Decoder)
    (inputs : list consumers.ClaimInput) (s : State) :
  1 <= config.MaxRetries (config.Custom (config.Sync cfg)) ->
  fst (consumers.ConsumeClaim env cfg dec inputs s)
  = if existsb observe.closes inputs then Some (Return None) else None.
Proof.
  intros Hn. revert s.
  induction inputs as [ | i inputs IH]; intros s; [reflexivity | ].
  destruct i as [[message | ] | ]; [ | reflexivity | reflexivity].
  cbn [consumers.ConsumeClaim existsb observe.closes orb].
  destruct (processMessage_returns env cfg dec message
              (emit (EvLog "Processing message") s) Hn) as (ret & s' & Hp).
  rewrite Hp. destruct ret as [e | ]; apply IH.
Qed.

Lemma ConsumeClaim_ends_without_error_witness :
  fst (consumers.ConsumeClaim (samples.refusing TimerFired)
         (samples.cfgWith "prod" 100 3) samples.garbled
         [consumers.Received (Some samples.message0); consumers.SessionDone;
          consumers.Received (Some samples.message0)]
         samples.idle)
  = Some (Return None).
Proof.
  apply (ConsumeClaim_ends_without_error (samples.refusing TimerFired)
           (samples.cfgWith "prod" 100 3) samples.garbled
           [consumers.Received (Some samples.message0); consumers.SessionDone;
            consumers.Received (Some samples.message0)]
           samples.idle).
  simpl. lia.
Defined.

(** ** What leaves the bulk buffer *)

Section BulkTraffic.

Variable env : Env.
Variable cfg : config.Config.

Local Abbreviation batchSize :=
  (config.BatchSize (config.Custom (config.Sync cfg))).

(** With an encoder that does not fail, the loop of
    [processBulkOperations] appends the lines of each operation in
    buffer order. *)
Lemma encodeBulk_lines (ops : list CategoryOperation) (s : State) :
  (forall line, encodeErr env line = None) ->
  forall buf,
    encodeBulk env cfg ops s buf
    = inr (buf ++ flat_map (observe.linesOf
                              (getCurrentIndexName env cfg "categories" s)) ops)%list.
Proof.
  intros Henc.
  induction ops as [ | op ops IH]; intros buf; cbn [encodeBulk flat_map].
  { rewrite app_nil_r. reflexivity. }
  unfold bulkAction, observe.linesOf.
  destruct (Operation op =? OperationCreate)%string eqn:Hc.
  { apply String.eqb_eq in Hc. rewrite !Henc, Hc. cbn. rewrite IH.
    rewrite <- !app_assoc. reflexivity. }
  destruct (Operation op =? OperationUpdate)%string eqn:Hu.
  { apply String.eqb_eq in Hu. rewrite !Henc, Hu. cbn. rewrite IH.
    rewrite <- !app_assoc. reflexivity. }
  destruct (Operation op =? OperationDelete)%string eqn:Hd.
  { rewrite !Henc. cbn. rewrite IH. rewrite <- !app_assoc. reflexivity. }
  cbn. apply IH.
Qed.

End BulkTraffic.

(** X11: a flush of a non-empty buffer sends one Bulk request, whose
    body lists the buffered operations in order: an action line and
    the payload for a create, an action line and the upsert of the
    payload for an update, an action line alone for a delete, all
    under the index of the current month; and when the store accepts
    it the buffer is empty afterwards. (The JSON encoder is taken not
    to fail.) *)
Theorem FlushBulkBuffer_body (env : Env) (cfg : config.Config) (s : State) :
  mu s = false ->
  bulkBuffer s <> [] ->
  (forall line, encodeErr env line = None) ->
  let r := FlushBulkBuffer env cfg s in
  let body := flat_map (observe.linesOf (getCurrentIndexName env cfg "categories" s))
                (bulkBuffer s) in
  observe.requests (trace (snd r)) = (observe.requests (trace s) ++ [Bulk body])%list
  /\ (fst r = Return None -> bulkBuffer (snd r) = []).
Proof.
  intros Hmu Hne Henc r body. subst r body.
  unfold FlushBulkBuffer, processBulkOperations. rewrite Hmu.
  cbn [bulkBuffer setMu].
  destruct (bulkBuffer s) as [ | op ops] eqn:Hb; [contradiction | ].
  rewrite (encodeBulk_lines env cfg (op :: ops) (setMu true s) Henc []).
  cbn [app]. unfold call. cbn [trace setMu].
  match goal with
  | |- context [esClient env ?t ?q] => destruct (esClient env t q) as [e | ]
  end.
  all: cbn [fst snd trace emit setMu setBuffer bulkBuffer];
    repeat rewrite requests_app; cbn; repeat rewrite app_nil_r.
  - split; [reflexivity | discriminate].
  - split; reflexivity.
Qed.

Lemma FlushBulkBuffer_body_witness :
  let env := samples.envWith None TimerFired 0.5%float in
  let cfg := samples.cfgWith "prod" 100 3 in
  let s := {| trace := []; bulkBuffer := fixtures.mixed; mu := false |} in
  observe.requests (trace (snd (FlushBulkBuffer env cfg s)))
  = [Bulk [ActionLine "index" "prod-digital-discovery-categories-2025-04" "c2";
           PayloadLine (DocBody samples.games);
           ActionLine "delete" "prod-digital-discovery-categories-2025-04" "c1";
           ActionLine "update" "prod-digital-discovery-categories-2025-04" "c2";
           PayloadLine (UpsertBody samples.games)]]
  /\ (fst (FlushBulkBuffer env cfg s) = Return None ->
      bulkBuffer (snd (FlushBulkBuffer env cfg s)) = []).
Proof.
  apply (FlushBulkBuffer_body (samples.envWith None TimerFired 0.5%float)
           (samples.cfgWith "prod" 100 3)
           {| trace := []; bulkBuffer := fixtures.mixed; mu := false |});
    [reflexivity | discriminate | reflexivity].
Defined.

(** X12: [AddToBulkBuffer] never sends anything: whether it returns or
    blocks, the trace is as it was. When it returns [nil] the operation
    was appended and the buffer is still below the batch size; when it
    returns an error the operation is one that [canBulkOperation]
    refuses and the buffer is untouched. Buffered operations leave only
    through a flush called from outside. *)
Theorem AddToBulkBuffer_never_sends
    (env : Env) (cfg : config.Config) (operation : CategoryOperation) (s : State) :
  mu s = false ->
  let r := AddToBulkBuffer env cfg operation s in
  trace (snd r) = trace s
  /\ (fst r = Return None ->
      canBulkOperation operation = true
      /\ bulkBuffer (snd r) = (bulkBuffer s ++ [operation])%list
      /\ Z.of_nat (List.length (bulkBuffer (snd r)))
         < config.BatchSize (config.Custom (config.Sync cfg))
      /\ mu (snd r) = false)
  /\ (forall e, fst r = Return (Some e) ->
      canBulkOperation operation = false /\ snd r = s)
  /\ (fst r = Blocks ->
      config.BatchSize (config.Custom (config.Sync cfg))
      <= Z.of_nat (List.length (bulkBuffer s)) + 1).
Proof.
  intros Hmu r. subst r. unfold AddToBulkBuffer.
  destruct (canBulkOperation operation) eqn:Hcan; cbn [negb].
  2:{ cbn [fst snd].
      split; [reflexivity | ].
      split; [intros H; discriminate H | ].
      split; [intros e _; split; reflexivity | intros H; discriminate H]. }
  rewrite Hmu. cbn [bulkBuffer setBuffer setMu].
  rewrite length_app, Nat2Z.inj_add. cbn [List.length].
  destruct (Z.leb_spec (config.BatchSize (config.Custom (config.Sync cfg)))
              (Z.of_nat (List.length (bulkBuffer s)) + Z.of_nat 1)) as [Hle | Hlt].
  - unfold FlushBulkBuffer, processBulkOperations.
    cbn [mu setMu setBuffer fst snd trace].
    split; [reflexivity | ].
    split; [intros H; discriminate H | ].
    split; [intros e H; discriminate H | ].
    intros _. lia.
  - cbn [fst snd trace setMu setBuffer bulkBuffer mu].
    split; [reflexivity | ].
    split.
    { intros _. split; [reflexivity | ]. split; [reflexivity | ].
      split; [ | reflexivity].
      rewrite length_app, Nat2Z.inj_add. exact Hlt. }
    split; [intros e H; discriminate H | intros H; discriminate H].
Qed.

Lemma AddToBulkBuffer_never_sends_witness :
  let r := AddToBulkBuffer (samples.envWith None TimerFired 0.5%float)
             (samples.cfgWith "prod" 2 3) samples.createGames samples.idle in
  trace (snd r) = []
  /\ fst r = Return None
  /\ bulkBuffer (snd r) = [samples.createGames].
Proof.
  destruct (AddToBulkBuffer_never_sends (samples.envWith None TimerFired 0.5%float)
              (samples.cfgWith "prod" 2 3) samples.createGames samples.idle
              eq_refl) as (Ht & Hnil & _).
  split; [exact Ht | ]. split; [reflexivity | ].
  exact (proj1 (proj2 (Hnil eq_refl))).
Defined.

(** X13: a flush that returned [nil] leaves nothing to flush: a second
    flush returns [nil] at once, sends nothing and changes nothing. *)
Theorem FlushBulkBuffer_twice (env : Env) (cfg : config.Config) (s : State) :
  mu s = false ->
  fst (FlushBulkBuffer env cfg s) = Return None ->
  let s1 := snd (FlushBulkBuffer env cfg s) in
  bulkBuffer s1 = [] /\ FlushBulkBuffer env cfg s1 = (Return None, s1).
Proof.
  intros Hmu Hret s1.
  assert (H : bulkBuffer s1 = [] /\ mu s1 = false).
  { subst s1. revert Hret. unfold FlushBulkBuffer, processBulkOperations.
    rewrite Hmu. cbn [bulkBuffer setMu].
    destruct (bulkBuffer s) as [ | op ops] eqn:Hb.
    { cbn. intros _. split; [exact Hb | reflexivity]. }
    destruct (encodeBulk env cfg (op :: ops) (setMu true s) []) as [e | buf].
    { cbn. discriminate. }
    unfold call.
    match goal with
    | |- context [esClient env ?t ?q] => destruct (esClient env t q) as [e | ]
    end; cbn; [discriminate | intros _; split; reflexivity]. }
  destruct H as [Hb Hm]. split; [exact Hb | ].
  unfold FlushBulkBuffer, processBulkOperations. rewrite Hm.
  cbn [bulkBuffer setMu]. rewrite Hb.
  destruct s1 as [t b m]. cbn in *. subst. reflexivity.
Qed.

Lemma FlushBulkBuffer_twice_witness :
  let env := samples.envWith None TimerFired 0.5%float in
  let cfg := samples.cfgWith "prod" 100 3 in
  let s1 := snd (FlushBulkBuffer env cfg
                   {| trace := []; bulkBuffer := fixtures.mixed; mu := false |}) in
  bulkBuffer s1 = [] /\ FlushBulkBuffer env cfg s1 = (Return None, s1).
Proof.
  apply (FlushBulkBuffer_twice (samples.envWith None TimerFired 0.5%float)
           (samples.cfgWith "prod" 100 3)
           {| trace := []; bulkBuffer := fixtures.mixed; mu := false |});
    reflexivity.
Defined.

(** X14: an add that reaches the batch size leaves the mutex held for
    good, and with the mutex held no other caller gets through: every
    flush and every add of a supported operation blocks, and
    [HealthCheck] never again reports the service healthy (it blocks
    as soon as both of its searches succeed). *)
Theorem AddToBulkBuffer_wedges_the_service
    (env : Env) (cfg : config.Config) (rd : reads.Reader)
    (operation : CategoryOperation) (s : State) :
  canBulkOperation operation = true ->
  mu s = false ->
  config.BatchSize (config.Custom (config.Sync cfg))
    <= Z.of_nat (List.length (bulkBuffer s)) + 1 ->
  let s' := snd (AddToBulkBuffer env cfg operation s) in
  FlushBulkBuffer env cfg s' = (Blocks, s')
  /\ (forall next, canBulkOperation next = true ->
        AddToBulkBuffer env cfg next s' = (Blocks, s'))
  /\ reads.HealthCheck env cfg rd s' <> Return None
  /\ (forall a b,
        reads.search rd (trace s') "_all" elasticsearch.SizeZero = inr a ->
        reads.search rd (trace s') (getCurrentIndexName env cfg "categories" s')
          elasticsearch.SizeZero = inr b ->
        reads.HealthCheck env cfg rd s' = Blocks).
Proof.
  intros Hcan Hmu Hfull s'.
  assert (Hheld : mu s' = true).
  { subst s'. unfold AddToBulkBuffer. rewrite Hcan, Hmu. cbn [negb].
    cbn [bulkBuffer setBuffer setMu].
    rewrite length_app, Nat2Z.inj_add. cbn [List.length].
    destruct (Z.leb_spec (config.BatchSize (config.Custom (config.Sync cfg)))
                (Z.of_nat (List.length (bulkBuffer s)) + Z.of_nat 1)); [ | lia].
    reflexivity. }
  clearbody s'.
  split.
  { unfold FlushBulkBuffer, processBulkOperations. rewrite Hheld. reflexivity. }
  split.
  { intros next Hnext. unfold AddToBulkBuffer. rewrite Hnext, Hheld. reflexivity. }
  unfold reads.HealthCheck. rewrite Hheld.
  split.
  - destruct (reads.search rd (trace s') "_all" elasticsearch.SizeZero);
      [discriminate | ].
    destruct (reads.search rd (trace s')
                (getCurrentIndexName env cfg "categories" s')
                elasticsearch.SizeZero); discriminate.
  - intros a b Ha Hb. rewrite Ha, Hb. reflexivity.
Qed.

Lemma AddToBulkBuffer_wedges_the_service_witness :
  let env := samples.envWith None TimerFired 0.5%float in
  let cfg := samples.cfgWith "prod" 1 3 in
  let s' := snd (AddToBulkBuffer env cfg samples.createGames samples.idle) in
  FlushBulkBuffer env cfg s' = (Blocks, s')
  /\ reads.HealthCheck env cfg fixtures.emptyIndex s' = Blocks.
Proof.
  destruct (AddToBulkBuffer_wedges_the_service
              (samples.envWith None TimerFired 0.5%float)
              (samples.cfgWith "prod" 1 3) fixtures.emptyIndex
              samples.createGames samples.idle)
    as (Hflush & _ & _ & Hhealth);
    [reflexivity | reflexivity | simpl; lia | ].
  split; [exact Hflush | ].
  apply (Hhealth [] []); reflexivity.
Defined.

(** ** The repository under the dispatcher *)

Section OverRepository.

Variable client : elasticsearch.Client.
Variable env : Env.
Variable cfg : config.Config.

Lemma append_not_empty (a b : string) (c : ascii) : (a ++ String c b) <> "".
Proof. destruct a; discriminate. Qed.

Lemma getCurrentIndexName_not_empty (e : Env) (entity : string) (s : State) :
  getCurrentIndexName e cfg entity s <> "".
Proof. unfold getCurrentIndexName. apply append_not_empty. Qed.

(** X15: deleting a document that the cluster does not have succeeds.
    The repository takes a 404 answer to a Delete for success, so a
    delete operation with an id returns [nil] from the dispatcher and
    is recorded as SUCCESS (and its message is marked by the
    consumer). *)
Theorem delete_of_missing_document_succeeds (op : CategoryOperation) (s : State) :
  Operation op = OperationDelete ->
  ID (Payload op) <> "" ->
  (forall tr index id,
     exists res, elasticsearch.do client tr (Delete index id) = inr res
                 /\ elasticsearch.StatusCode res = 404) ->
  let r := ProcessCategoryOperation (elasticsearch.over client env) cfg (Some op) s in
  fst r = None
  /\ observe.operationMetrics (trace (snd r))
     = (observe.operationMetrics (trace s) ++ [(OperationDelete, "SUCCESS", 0)])%list.
Proof.
  intros Hop Hid H404 r. subst r.
  unfold ProcessCategoryOperation, validateOperation. rewrite Hop.
  destruct (String.eqb_spec (ID (Payload op)) ""); [contradiction | ].
  cbn [String.eqb Ascii.eqb Bool.eqb OperationCreate OperationUpdate
       OperationDelete orb].
  unfold processOperation. rewrite Hop.
  cbn [String.eqb Ascii.eqb Bool.eqb OperationCreate OperationUpdate
       OperationDelete orb].
  unfold deleteCategory, call.
  cbn [elasticsearch.over esClient elasticsearch.serve].
  unfold elasticsearch.Delete.
  match goal with
  | |- context [elasticsearch.do client ?t (Delete ?i ?d)] =>
      destruct (H404 t i d) as (res & Hdo & Hcode); rewrite Hdo
  end.
  unfold elasticsearch.IsError. rewrite Hcode.
  cbn [Z.ltb Z.eqb Z.compare Pos.compare Pos.compare_cont Pos.eqb andb negb
       fst snd].
  unfold recordMetrics. rewrite Hop.
  cbn [String.eqb Ascii.eqb Bool.eqb fst snd trace emit].
  split; [reflexivity | ].
  repeat rewrite operationMetrics_app. cbn. repeat rewrite app_nil_r.
  reflexivity.
Qed.

(** X16: every request of the dispatcher reaches the HTTP client. The
    repository refuses an Index with an empty index name or id before
    calling the client, but the dispatcher never makes such a call:
    [validateOperation] demands an id and the index name is never
    empty. *)
Theorem dispatcher_requests_reach_the_client
    (o : option CategoryOperation) (s : State) :
  let r := ProcessCategoryOperation (elasticsearch.over client env) cfg o s in
  exists d,
    trace (snd r) = (trace s ++ d)%list
    /\ forall q reply, In (q, reply) (observe.exchanges d) ->
         exists tr, elasticsearch.serve client tr q = (reply, [q]).
Proof.
  cbn zeta. unfold ProcessCategoryOperation.
  destruct o as [op | ].
  2:{ eexists. split; [reflexivity | ]. cbn. intros q reply []. }
  destruct (validateOperation op) as [e | ] eqn:Hv.
  { eexists. cbn [fst snd trace emit]. rewrite <- app_assoc.
    split; [reflexivity | ]. cbn. intros q reply []. }
  assert (Hid : (ID (Payload op) =? "")%string = false).
  { revert Hv. unfold validateOperation.
    destruct (ID (Payload op) =? "")%string; [discriminate | reflexivity]. }
  assert (Hidx : forall s0,
            (getCurrentIndexName (elasticsearch.over client env) cfg
               "categories" s0 =? "")%string = false).
  { intros s0. apply String.eqb_neq. apply getCurrentIndexName_not_empty. }
  assert (Hserve : forall tr q,
            (forall i d b, q = Index i d b -> (i =? "")%string = false
                                              /\ (d =? "")%string = false) ->
            elasticsearch.serve client tr q
            = (esClient (elasticsearch.over client env) tr q, [q])).
  { intros tr q Hq. cbn [elasticsearch.over esClient].
    destruct q as [i d b | i d b | i d | b]; cbn [elasticsearch.serve].
    - destruct (Hq i d b eq_refl) as [Hi Hd].
      unfold elasticsearch.Index. rewrite Hi, Hd. cbn [orb].
      destruct (elasticsearch.do client tr (Index i d b)) as [e | res];
        [reflexivity | ].
      destruct (elasticsearch.IsError res); reflexivity.
    - unfold elasticsearch.Update.
      destruct (elasticsearch.do client tr (Update i d b)) as [e | res];
        [reflexivity | ].
      destruct (elasticsearch.IsError res); reflexivity.
    - unfold elasticsearch.Delete.
      destruct (elasticsearch.do client tr (Delete i d)) as [e | res];
        [reflexivity | ].
      destruct (elasticsearch.IsError res
                && negb (elasticsearch.StatusCode res =? 404))%bool;
        reflexivity.
    - unfold elasticsearch.Bulk.
      destruct (elasticsearch.do client tr (Bulk b)) as [e | res];
        [reflexivity | ].
      destruct (elasticsearch.IsError res); reflexivity. }
  unfold processOperation, createCategory, updateCategory, deleteCategory,
    call, recordMetrics.
  destruct (Operation op =? OperationCreate)%string;
    [ | destruct (Operation op =? OperationUpdate)%string;
        [ | destruct (Operation op =? OperationDelete)%string ] ];
    cbn [orb].
  all: try match goal with
           | |- context [esClient ?e ?t ?q] =>
               assert (Hs : elasticsearch.serve client t q = (esClient e t q, [q]))
                 by (apply Hserve; intros i d b Heq; inversion Heq; subst;
                     (split; [apply Hidx | exact Hid]));
               destruct (esClient e t q);
               set (q0 := q) in *; clearbody q0
           end.
  all: cbn [fst snd trace emit String.eqb Ascii.eqb Bool.eqb];
    repeat rewrite <- app_assoc; cbn [app].
  all: eexists; (split; [reflexivity | ]);
    cbn [observe.exchanges flat_map app].
  all: intros q reply Hin;
    repeat match goal with
           | H : _ \/ _ |- _ => destruct H
           | H : In _ _ |- _ => destruct H
           | H : (_, _) = (_, _) |- _ => inversion H; subst; clear H
           end.
  all: eexists; exact Hs.
Qed.

End OverRepository.

Lemma delete_of_missing_document_succeeds_witness :
  let r := ProcessCategoryOperation
             (elasticsearch.over fixtures.vacant (samples.refusing TimerFired))
             (samples.cfgWith "prod" 100 3) (Some fixtures.deletePulsa)
             samples.idle in
  fst r = None
  /\ observe.operationMetrics (trace (snd r)) = [("DELETE", "SUCCESS", 0)].
Proof.
  apply (delete_of_missing_document_succeeds fixtures.vacant
           (samples.refusing TimerFired) (samples.cfgWith "prod" 100 3)
           fixtures.deletePulsa samples.idle);
    [reflexivity | discriminate | ].
  intros tr index id. eexists. split; reflexivity.
Defined.

(** ** The invariant of the bulk buffer *)

Section BufferInvariant.

Variable env : Env.
Variable cfg : config.Config.

Local Abbreviation batchSize :=
  (config.BatchSize (config.Custom (config.Sync cfg))).

(** The state a returned call leaves: the mutex free and the buffer
    below the batch size. *)
Local Abbreviation settled s :=
  (mu s = false /\ Z.of_nat (List.length (bulkBuffer s)) < batchSize).

Lemma cleanup_state (ret : option error) (h : RetryHistory) (s : State) :
  bulkBuffer (snd (cleanup ret h s)) = bulkBuffer s
  /\ mu (snd (cleanup ret h s)) = mu s.
Proof.
  unfold cleanup, recordFailedAttempt.
  destruct (HistoryStatus h =? "FAILED")%string; [ | split; reflexivity].
  destruct (last (map Some (Attempts h)) None) as [a | ]; [ | split; reflexivity].
  destruct (Error a); split; reflexivity.
Qed.

Lemma step_settled (c : calls.Call) (s s' : State) (ret : option error) :
  settled s ->
  calls.step env cfg c s = (Return ret, s') ->
  settled s'.
Proof.
  intros [Hmu Hlen] Hstep. destruct c as [o | o | o | ]; cbn [calls.step] in Hstep.
  - destruct (ProcessCategoryOperation env cfg o s) as [err s1] eqn:Hp.
    destruct (ProcessCategoryOperation_events _ _ _ _ _ _ Hp)
      as (d & _ & _ & Hb & Hm).
    inversion Hstep; subst. rewrite Hb, Hm. split; assumption.
  - unfold RetryOperation in Hstep.
    destruct (RetryWithBackoff_run env cfg o s)
      as (r & h & s1 & delta & _ & _ & Hb & Hm & _ & Hret).
    rewrite Hret in Hstep.
    destruct (cleanup_state r h s1) as [Hb' Hm'].
    rewrite Hstep in Hb', Hm'. cbn [snd] in Hb', Hm'.
    rewrite Hb', Hm', Hb, Hm. split; assumption.
  - revert Hstep. unfold AddToBulkBuffer.
    destruct (canBulkOperation o); cbn [negb].
    2:{ intros H; inversion H; subst. split; assumption. }
    rewrite Hmu. cbn [bulkBuffer setBuffer setMu].
    destruct (Z.leb_spec batchSize
                (Z.of_nat (List.length (bulkBuffer s ++ [o])))) as [Hle | Hlt].
    + unfold FlushBulkBuffer, processBulkOperations. cbn [mu setMu setBuffer].
      discriminate.
    + intros H; inversion H; subst. cbn [mu bulkBuffer setMu setBuffer].
      split; [reflexivity | exact Hlt].
  - revert Hstep. unfold FlushBulkBuffer, processBulkOperations.
    rewrite Hmu. cbn [bulkBuffer setMu].
    destruct (bulkBuffer s) as [ | op ops] eqn:Hb.
    { intros H; inversion H; subst. cbn. rewrite Hb. split; [reflexivity | exact Hlen]. }
    destruct (encodeBulk env cfg (op :: ops) (setMu true s) []) as [e | buf].
    { intros H; inversion H; subst. cbn. rewrite Hb.
      split; [reflexivity | exact Hlen]. }
    unfold call.
    match goal with
    | |- context [esClient env ?t ?q] => destruct (esClient env t q) as [e | ]
    end; intros H; inversion H; subst; cbn.
    + rewrite Hb. split; [reflexivity | exact Hlen].
    + split; [reflexivity | ]. cbn in Hlen. lia.
Qed.

Lemma run_settled (cs : list calls.Call) :
  forall s s', settled s -> calls.run env cfg cs s = Some s' -> settled s'.
Proof.
  induction cs as [ | c cs IH]; intros s s' Hs Hrun; cbn [calls.run] in Hrun.
  { inversion Hrun; subst. exact Hs. }
  destruct (calls.step env cfg c s) as [r s1] eqn:Hstep.
  destruct r as [ret | | | ]; try discriminate.
  apply (IH s1 s'); [ | exact Hrun].
  exact (step_settled c s s1 ret Hs Hstep).
Qed.

End BufferInvariant.

(** X17: the buffer never fills. From a service with an empty buffer
    and a positive batch size, after any sequence of calls
    (ProcessCategoryOperation, RetryOperation, AddToBulkBuffer,
    FlushBulkBuffer) that all returned, the mutex is free and the
    buffer holds fewer operations than the batch size; so
    [HealthCheck] never reports a full buffer: it returns [nil] as soon
    as both of its searches succeed. *)
Theorem buffer_stays_below_batch_size
    (env : Env) (cfg : config.Config) (rd : reads.Reader)
    (cs : list calls.Call) (s s' : State) :
  1 <= config.BatchSize (config.Custom (config.Sync cfg)) ->
  bulkBuffer s = [] ->
  mu s = false ->
  calls.run env cfg cs s = Some s' ->
  mu s' = false
  /\ Z.of_nat (List.length (bulkBuffer s'))
     < config.BatchSize (config.Custom (config.Sync cfg))
  /\ (forall a b,
        reads.search rd (trace s') "_all" elasticsearch.SizeZero = inr a ->
        reads.search rd (trace s') (getCurrentIndexName env cfg "categories" s')
          elasticsearch.SizeZero = inr b ->
        reads.HealthCheck env cfg rd s' = Return None).
Proof.
  intros Hbatch Hempty Hmu Hrun.
  assert (Hs : mu s = false
               /\ Z.of_nat (List.length (bulkBuffer s))
                  < config.BatchSize (config.Custom (config.Sync cfg))).
  { rewrite Hempty. cbn. split; [exact Hmu | lia]. }
  destruct (run_settled env cfg cs s s' Hs Hrun) as [Hmu' Hlen'].
  split; [exact Hmu' | ]. split; [exact Hlen' | ].
  intros a b Ha Hb. unfold reads.HealthCheck. rewrite Ha, Hb, Hmu'.
  destruct (Z.leb_spec (config.BatchSize (config.Custom (config.Sync cfg)))
              (Z.of_nat (List.length (bulkBuffer s')))); [lia | reflexivity].
Qed.

Lemma buffer_stays_below_batch_size_witness :
  let env := samples.envWith None TimerFired 0.5%float in
  let cfg := samples.cfgWith "prod" 2 3 in
  exists s',
    calls.run env cfg
      [calls.Add samples.createGames; calls.Flush; calls.Add fixtures.deletePulsa;
       calls.Process (Some samples.createGames)] samples.idle = Some s'
    /\ mu s' = false
    /\ reads.HealthCheck env cfg fixtures.emptyIndex s' = Return None.
Proof.
  intros env cfg.
  destruct (calls.run env cfg
              [calls.Add samples.createGames; calls.Flush;
               calls.Add fixtures.deletePulsa;
               calls.Process (Some samples.createGames)] samples.idle)
    as [s' | ] eqn:Hrun; [ | vm_compute in Hrun; discriminate Hrun].
  exists s'. split; [reflexivity | ].
  destruct (buffer_stays_below_batch_size env cfg fixtures.emptyIndex _
              samples.idle s' ltac:(simpl; lia) eq_refl eq_refl Hrun)
    as (Hmu & _ & Hhealth).
  split; [exact Hmu | ].
  apply (Hhealth [] []); reflexivity.
Defined.

(** ** The reads and the HTTP endpoints *)

Section Api.

Variable env : Env.
Variable cfg : config.Config.
Variable rd : reads.Reader.
Variable host : app.Host.

(** The loop of [ListCategories] parses the documents in order and
    stops at the first that does not parse. *)
Lemma parseCategories_spec (docs : list string) :
  forall acc,
    match reads.parseCategories rd docs acc with
    | inr categories =>
        exists parsed,
          categories = (acc ++ parsed)%list
          /\ map (reads.unmarshal rd) docs = map inr parsed
    | inl err =>
        exists pre doc e post,
          docs = (pre ++ doc :: post)%list
          /\ Forall (fun d => exists c, reads.unmarshal rd d = inr c) pre
          /\ reads.unmarshal rd doc = inl e
          /\ err = NewESIndexError "Failed to parse category" (Some e)
    end.
Proof.
  induction docs as [ | doc docs IH]; intros acc; cbn [reads.parseCategories].
  { exists []. rewrite app_nil_r. split; reflexivity. }
  destruct (reads.unmarshal rd doc) as [e | c] eqn:Hdoc.
  { exists [], doc, e, docs. repeat split; [constructor | exact Hdoc]. }
  specialize (IH (acc ++ [c])%list).
  destruct (reads.parseCategories rd docs (acc ++ [c])) as [err | categories].
  - destruct IH as (pre & bad & e & post & Hsplit & Hpre & Hbad & Herr).
    exists (doc :: pre), bad, e, post. rewrite Hsplit.
    repeat split; try assumption.
    constructor; [exists c; exact Hdoc | exact Hpre].
  - destruct IH as (parsed & Hcat & Hmap).
    exists (c :: parsed). rewrite Hcat, <- app_assoc.
    split; [reflexivity | ]. cbn [map]. rewrite Hdoc, Hmap. reflexivity.
Qed.

End Api.

(** X18: [ListCategories] is all or nothing: when the search succeeds
    it returns one category per document, in the order of the hits, or
    it fails with the parse error of the first document that
    [json.Unmarshal] rejects and returns none of the categories parsed
    before it. *)
Theorem ListCategories_all_or_nothing
    (env : Env) (cfg : config.Config) (rd : reads.Reader) (s : State)
    (docs : list string) :
  reads.search rd (trace s) (getCurrentIndexName env cfg "categories" s)
    elasticsearch.MatchAll = inr docs ->
  match reads.ListCategories env cfg rd s with
  | inr categories => map (reads.unmarshal rd) docs = map inr categories
  | inl err =>
      exists pre doc e post,
        docs = (pre ++ doc :: post)%list
        /\ Forall (fun d => exists c, reads.unmarshal rd d = inr c) pre
        /\ reads.unmarshal rd doc = inl e
        /\ err = NewESIndexError "Failed to parse category" (Some e)
  end.
Proof.
  intros Hsearch. unfold reads.ListCategories. rewrite Hsearch.
  pose proof (parseCategories_spec rd docs []) as H.
  destruct (reads.parseCategories rd docs []) as [err | categories];
    [exact H | ].
  destruct H as (parsed & -> & Hmap). exact Hmap.
Qed.

Lemma ListCategories_all_or_nothing_witness :
  reads.ListCategories (samples.envWith None TimerFired 0.5%float)
    (samples.cfgWith "prod" 100 3) fixtures.oneBadDocument samples.idle
  = inl (NewESIndexError "Failed to parse category"
           (Some (GoError "unexpected end of JSON input")))
  /\ match reads.ListCategories (samples.envWith None TimerFired 0.5%float)
             (samples.cfgWith "prod" 100 3) fixtures.oneBadDocument samples.idle
     with
     | inr categories =>
         map (reads.unmarshal fixtures.oneBadDocument) ["games"; "garbage"]
         = map inr categories
     | inl err =>
         exists pre doc e post,
           ["games"; "garbage"] = (pre ++ doc :: post)%list
           /\ Forall (fun d => exists c,
                        reads.unmarshal fixtures.oneBadDocument d = inr c) pre
           /\ reads.unmarshal fixtures.oneBadDocument doc = inl e
           /\ err = NewESIndexError "Failed to parse category" (Some e)
     end.
Proof.
  split; [reflexivity | ].
  apply (ListCategories_all_or_nothing (samples.envWith None TimerFired 0.5%float)
           (samples.cfgWith "prod" 100 3) fixtures.oneBadDocument samples.idle
           ["games"; "garbage"]).
  reflexivity.
Defined.

(** X19: a category created through POST /api/v1/categories reaches
    the store validated and completed: when the handler answers 201 it
    sent one Index request, which the store accepted, for a document
    with a name, a description (the default one when the body had
    none), a status of at least 1, both timestamps at the handler's
    clock and the sync status SUCCESS. When it answers 400 nothing was
    sent; it answers nothing but 201, 400 and 500. *)
Theorem handleCategories_post_indexes_valid_documents
    (env : Env) (cfg : config.Config) (rd : reads.Reader) (host : app.Host)
    (r : app.HttpRequest) (s : State) :
  app.Method r = "POST" ->
  let res := app.handleCategories env cfg rd host r s in
  exists d,
    trace (snd res) = (trace s ++ d)%list
    /\ (app.Code (fst res) = 201 \/ app.Code (fst res) = 400
        \/ app.Code (fst res) = 500)
    /\ (app.Code (fst res) = 400 -> d = [])
    /\ (app.Code (fst res) = 201 ->
        exists index doc,
          observe.exchanges d = [(Index index (ID doc) (DocBody doc), None)]
          /\ Name doc <> ""
          /\ Description doc <> ""
          /\ 1 <= Status doc
          /\ CreatedAt doc = app.clock host (trace s)
          /\ UpdatedAt doc = app.clock host (trace s)
          /\ SyncStatus doc = SyncStatusSuccess).
Proof.
  intros Hm res. subst res. unfold app.handleCategories. rewrite Hm.
  cbn [String.eqb Ascii.eqb Bool.eqb].
  assert (Hrej : forall code,
            code = 400 ->
            exists d,
              trace s = (trace s ++ d)%list
              /\ (code = 201 \/ code = 400 \/ code = 500)
              /\ (code = 400 -> d = [])
              /\ (code = 201 ->
                  exists index doc,
                    observe.exchanges d
                    = [(Index index (ID doc) (DocBody doc), None)]
                    /\ Name doc <> ""
                    /\ Description doc <> ""
                    /\ 1 <= Status doc
                    /\ CreatedAt doc = app.clock host (trace s)
                    /\ UpdatedAt doc = app.clock host (trace s)
                    /\ SyncStatus doc = SyncStatusSuccess)).
  { intros code ->. exists []. rewrite app_nil_r.
    split; [reflexivity | ]. split; [right; left; reflexivity | ].
    split; [reflexivity | discriminate]. }
  destruct (app.Decoded r) as [e | c]; [apply (Hrej 400); reflexivity | ].
  set (c1 := if (Description c =? "")%string
             then app.setDescription "No description provided" c else c).
  set (c2 := if Status c1 =? 0 then app.setStatus 1 c1 else c1).
  assert (Hdesc : Description c2 <> "").
  { subst c2 c1.
    destruct (String.eqb_spec (Description c) "") as [Hd | Hd];
      match goal with
      | |- context [Status ?x =? 0] => destruct (Status x =? 0)
      end; cbn; try discriminate; exact Hd. }
  assert (Hstatus : Status c2 <> 0).
  { subst c2. destruct (Z.eqb_spec (Status c1) 0); cbn; [discriminate | assumption]. }
  unfold app.Validate.
  destruct (String.eqb_spec (Name c2) "") as [Hn | Hn];
    [apply (Hrej 400); reflexivity | ].
  destruct (Z.ltb_spec (Status c2) 0) as [Hneg | Hpos];
    [apply (Hrej 400); reflexivity | ].
  clear Hrej.
  unfold reads.CreateCategory, createCategory, call.
  match goal with
  | |- context [esClient env ?t ?q] => destruct (esClient env t q) as [e | ]
  end; cbn [fst snd trace emit app.respondWithError app.respondWithJSON app.Code].
  - eexists. split; [reflexivity | ].
    split; [right; right; reflexivity | ].
    split; discriminate.
  - eexists. split; [reflexivity | ].
    split; [left; reflexivity | ].
    split; [discriminate | ].
    intros _. eexists. eexists. cbn [observe.exchanges flat_map app].
    split; [reflexivity | ].
    cbn. repeat split; try assumption. lia.
Qed.

Lemma handleCategories_post_indexes_valid_documents_witness :
  let res := app.handleCategories (samples.envWith None TimerFired 0.5%float)
               (samples.cfgWith "prod" 100 3) fixtures.emptyIndex fixtures.host
               {| app.Method := "POST"; app.QueryID := "";
                  app.Decoded := inr (fixtures.postedAs "c3") |}
               samples.idle in
  app.Code (fst res) = 201
  /\ exists d,
       trace (snd res) = (trace samples.idle ++ d)%list
       /\ (app.Code (fst res) = 201 \/ app.Code (fst res) = 400
           \/ app.Code (fst res) = 500)
       /\ (app.Code (fst res) = 400 -> d = [])
       /\ (app.Code (fst res) = 201 ->
           exists index doc,
             observe.exchanges d = [(Index index (ID doc) (DocBody doc), None)]
             /\ Name doc <> ""
             /\ Description doc <> ""
             /\ 1 <= Status doc
             /\ CreatedAt doc = app.clock fixtures.host (trace samples.idle)
             /\ UpdatedAt doc = app.clock fixtures.host (trace samples.idle)
             /\ SyncStatus doc = SyncStatusSuccess).
Proof.
  split; [reflexivity | ].
  apply (handleCategories_post_indexes_valid_documents
           (samples.envWith None TimerFired 0.5%float)
           (samples.cfgWith "prod" 100 3) fixtures.emptyIndex fixtures.host
           {| app.Method := "POST"; app.QueryID := "";
              app.Decoded := inr (fixtures.postedAs "c3") |}
           samples.idle).
  reflexivity.
Defined.

(** X20: a POST whose body has no id is answered 500, not 400:
    [Validate] does not look at the id, the handler calls
    [CreateCategory], and the repository refuses the Index for its
    empty id before anything is handed to the HTTP client. *)
Theorem handleCategories_post_without_id
    (client : elasticsearch.Client) (env : Env) (cfg : config.Config)
    (rd : reads.Reader) (host : app.Host)
    (r : app.HttpRequest) (c : Category) (s : State) :
  app.Method r = "POST" ->
  app.Decoded r = inr c ->
  ID c = "" ->
  Name c <> "" ->
  0 <= Status c ->
  let res := app.handleCategories (elasticsearch.over client env) cfg rd host r s in
  exists index doc uuid,
    fst res
    = {| app.Code := 500;
         app.Sent :=
           app.ErrorPayload
             "[SYNC_ES_002] Failed to index category: index and id cannot be empty (operation: index, entity: elasticsearch)"
             uuid |}
    /\ trace (snd res)
       = (trace s ++ [EvRequest (Index index "" (DocBody doc))
                        (Some (GoError "index and id cannot be empty"))])%list
    /\ forall tr, snd (elasticsearch.serve client tr (Index index "" (DocBody doc)))
                  = [].
Proof.
  intros Hm Hdec Hid Hname Hstatus res. subst res.
  unfold app.handleCategories. rewrite Hm, Hdec.
  cbn [String.eqb Ascii.eqb Bool.eqb].
  set (c1 := if (Description c =? "")%string
             then app.setDescription "No description provided" c else c).
  set (c2 := if Status c1 =? 0 then app.setStatus 1 c1 else c1).
  assert (H2 : ID c2 = "" /\ Name c2 = Name c /\ 0 <= Status c2).
  { subst c2 c1.
    destruct (Description c =? "")%string;
      match goal with
      | |- context [Status ?x =? 0] => destruct (Z.eqb_spec (Status x) 0)
      end; cbn; repeat split; try assumption; lia. }
  destruct H2 as (Hid2 & Hname2 & Hstatus2).
  unfold app.Validate. rewrite Hname2.
  destruct (String.eqb_spec (Name c) ""); [contradiction | ].
  destruct (Z.ltb_spec (Status c2) 0); [lia | ].
  unfold reads.CreateCategory, createCategory, call.
  cbn [elasticsearch.over esClient elasticsearch.serve ID setLastSync
       setSyncStatus app.setTimestamps].
  unfold elasticsearch.Index. rewrite Hid2.
  cbn [String.eqb orb fst snd]. rewrite Bool.orb_true_r.
  cbn [fst snd trace emit app.respondWithError].
  eexists. eexists. eexists.
  split; [reflexivity | ]. split; [reflexivity | ].
  intros tr. cbn [elasticsearch.serve]. unfold elasticsearch.Index.
  cbn [String.eqb]. rewrite Bool.orb_true_r. reflexivity.
Qed.

Lemma handleCategories_post_without_id_witness :
  app.Code
    (fst (app.handleCategories
            (elasticsearch.over fixtures.vacant (samples.refusing TimerFired))
            (samples.cfgWith "prod" 100 3) fixtures.emptyIndex fixtures.host
            {| app.Method := "POST"; app.QueryID := "";
               app.Decoded := inr fixtures.posted |}
            samples.idle))
  = 500.
Proof.
  destruct (handleCategories_post_without_id fixtures.vacant
              (samples.refusing TimerFired) (samples.cfgWith "prod" 100 3)
              fixtures.emptyIndex fixtures.host
              {| app.Method := "POST"; app.QueryID := "";
                 app.Decoded := inr fixtures.posted |}
              fixtures.posted samples.idle)
    as (index & doc & uuid & Hres & _);
    [reflexivity | reflexivity | reflexivity | discriminate | simpl; lia | ].
  rewrite Hres. reflexivity.
Defined.

(** X21: PUT /api/v1/category updates the document named in the body.
    The [id] of the URL only has to be present: the handler sends one
    Update that upserts the decoded category under the id the body
    carries, without validating any of its fields, and answers 200
    when the store accepts it and 500 when it does not. *)
Theorem handleCategory_put_follows_the_body
    (env : Env) (cfg : config.Config) (rd : reads.Reader) (host : app.Host)
    (r : app.HttpRequest) (c : Category) (s : State) :
  app.Method r = "PUT" ->
  app.QueryID r <> "" ->
  app.Decoded r = inr c ->
  let res := app.handleCategory env cfg rd host r s in
  let index := getCurrentIndexName env cfg "categories" s in
  let doc := setLastSync (timeNow env (trace s))
               (setSyncStatus SyncStatusSuccess c) in
  let q := Update index (ID c) (UpsertBody doc) in
  let reply := esClient env (trace s) q in
  trace (snd res) = (trace s ++ [EvRequest q reply])%list
  /\ app.Code (fst res) = match reply with None => 200 | Some _ => 500 end.
Proof.
  intros Hm Hid Hdec res index doc q reply. subst res index doc q reply.
  unfold app.handleCategory. rewrite Hm, Hdec.
  destruct (String.eqb_spec (app.QueryID r) ""); [contradiction | ].
  cbn [String.eqb Ascii.eqb Bool.eqb].
  unfold reads.UpdateCategory, updateCategory, call.
  cbn [ID setLastSync setSyncStatus].
  match goal with
  | |- context [esClient env ?t ?q] => destruct (esClient env t q) as [e | ]
  end; split; reflexivity.
Qed.

Lemma handleCategory_put_follows_the_body_witness :
  let res := app.handleCategory (samples.envWith None TimerFired 0.5%float)
               (samples.cfgWith "prod" 100 3) fixtures.emptyIndex fixtures.host
               {| app.Method := "PUT"; app.QueryID := "c1";
                  app.Decoded := inr fixtures.posted |}
               samples.idle in
  observe.requests (trace (snd res))
  = [Update "prod-digital-discovery-categories-2025-04" ""
       (UpsertBody (setLastSync samples.april7
                      (setSyncStatus SyncStatusSuccess fixtures.posted)))]
  /\ app.Code (fst res) = 200.
Proof.
  destruct (handleCategory_put_follows_the_body
              (samples.envWith None TimerFired 0.5%float)
              (samples.cfgWith "prod" 100 3) fixtures.emptyIndex fixtures.host
              {| app.Method := "PUT"; app.QueryID := "c1";
                 app.Decoded := inr fixtures.posted |}
              fixtures.posted samples.idle)
    as [Ht Hc]; [reflexivity | discriminate | reflexivity | ].
  split; [ | exact Hc].
  cbv zeta. rewrite Ht. reflexivity.
Defined.

(** X22: the single-category endpoint never answers 404. Its status
    is 200, 400, 405 or 500; without an [id] it is 400 for every
    method and nothing is done; and a GET whose lookup fails, be it
    for a category that does not exist, is answered 500 with the text
    of the error. A GET changes nothing of the service. *)
Theorem handleCategory_status_codes
    (env : Env) (cfg : config.Config) (rd : reads.Reader) (host : app.Host)
    (r : app.HttpRequest) (s : State) :
  let res := app.handleCategory env cfg rd host r s in
  (app.Code (fst res) = 200 \/ app.Code (fst res) = 400
   \/ app.Code (fst res) = 405 \/ app.Code (fst res) = 500)
  /\ (app.QueryID r = "" -> app.Code (fst res) = 400 /\ snd res = s)
  /\ (app.QueryID r <> "" -> app.Method r = "GET" ->
      snd res = s
      /\ match reads.GetCategory env cfg rd (app.QueryID r) s with
         | inr category =>
             fst res = {| app.Code := 200;
                          app.Sent := app.CategoryPayload category |}
         | inl err =>
             fst res = {| app.Code := 500;
                          app.Sent := app.ErrorPayload (errorString err)
                                        (app.newUUID host (trace s)) |}
         end).
Proof.
  cbv zeta. unfold app.handleCategory.
  destruct (String.eqb_spec (app.QueryID r) "") as [Hid | Hid].
  { cbn. split; [right; left; reflexivity | ].
    split; [intros _; split; reflexivity | contradiction]. }
  destruct (String.eqb_spec (app.Method r) "GET") as [Hget | Hget].
  { destruct (reads.GetCategory env cfg rd (app.QueryID r) s) as [e | c]; cbn.
    - split; [right; right; right; reflexivity | ].
      split; [contradiction | intros _ _; split; reflexivity].
    - split; [left; reflexivity | ].
      split; [contradiction | intros _ _; split; reflexivity]. }
  split; [ | split; [contradiction | intros _; contradiction]].
  destruct (app.Method r =? "PUT")%string.
  { destruct (app.Decoded r) as [e | c]; [right; left; reflexivity | ].
    destruct (reads.UpdateCategory env cfg c s) as [[e | ] s1]; cbn;
      [right; right; right; reflexivity | left; reflexivity]. }
  destruct (app.Method r =? "DELETE")%string.
  { destruct (reads.DeleteCategory env cfg (app.QueryID r) s) as [[e | ] s1]; cbn;
      [right; right; right; reflexivity | left; reflexivity]. }
  right; right; left; reflexivity.
Qed.

(** X23: DELETE /api/v1/category is idempotent: over a cluster that
    answers 404 to the Delete, because the document is not there or
    was deleted before, the handler answers 200 and reports the
    category deleted. *)
Theorem handleCategory_delete_missing
    (client : elasticsearch.Client) (env : Env) (cfg : config.Config)
    (rd : reads.Reader) (host : app.Host) (r : app.HttpRequest) (s : State) :
  app.Method r = "DELETE" ->
  app.QueryID r <> "" ->
  (forall tr index id,
     exists res, elasticsearch.do client tr (Delete index id) = inr res
                 /\ elasticsearch.StatusCode res = 404) ->
  fst (app.handleCategory (elasticsearch.over client env) cfg rd host r s)
  = {| app.Code := 200;
       app.Sent := app.MessagePayload "Category deleted successfully" |}.
Proof.
  intros Hm Hid H404. unfold app.handleCategory. rewrite Hm.
  destruct (String.eqb_spec (app.QueryID r) ""); [contradiction | ].
  cbn [String.eqb Ascii.eqb Bool.eqb].
  unfold reads.DeleteCategory, deleteCategory, call.
  cbn [elasticsearch.over esClient elasticsearch.serve].
  unfold elasticsearch.Delete.
  match goal with
  | |- context [elasticsearch.do client ?t (Delete ?i ?d)] =>
      destruct (H404 t i d) as (res & Hdo & Hcode); rewrite Hdo
  end.
  unfold elasticsearch.IsError. rewrite Hcode. reflexivity.
Qed.

Lemma handleCategory_delete_missing_witness :
  fst (app.handleCategory
         (elasticsearch.over fixtures.vacant (samples.refusing TimerFired))
         (samples.cfgWith "prod" 100 3) fixtures.emptyIndex fixtures.host
         {| app.Method := "DELETE"; app.QueryID := "c9";
            app.Decoded := inl (GoError "EOF") |}
         samples.idle)
  = {| app.Code := 200;
       app.Sent := app.MessagePayload "Category deleted successfully" |}.
Proof.
  apply (handleCategory_delete_missing fixtures.vacant
           (samples.refusing TimerFired) (samples.cfgWith "prod" 100 3)
           fixtures.emptyIndex fixtures.host
           {| app.Method := "DELETE"; app.QueryID := "c9";
              app.Decoded := inl (GoError "EOF") |}
           samples.idle);
    [reflexivity | discriminate | ].
  intros tr index id. eexists. split; reflexivity.
Defined.

(** ** Which operations reach the store *)

Lemma ProcessCategoryOperation_routes_witness :
  observe.requests
    (trace (snd (ProcessCategoryOperation (samples.envWith None TimerFired 0.5%float)
                   (samples.cfgWith "prod" 100 3) (Some samples.createGames)
                   samples.idle)))
  = [Index "prod-digital-discovery-categories-2025-04" "c2"
       (DocBody (setLastSync samples.april7
                   (setSyncStatus SyncStatusSuccess samples.games)))].
Proof.
  exact (ProcessCategoryOperation_routes (samples.envWith None TimerFired 0.5%float)
           (samples.cfgWith "prod" 100 3) samples.createGames samples.idle
           eq_refl).
Defined.

(** X24: the dispatcher sends a request for an operation exactly when
    the payload has an id, the operation is a create, an update or a
    delete, and, for a create or an update, the payload has a name and
    a description. Nothing else of the operation or of the payload
    decides whether the store is reached. *)
Theorem ProcessCategoryOperation_sends_iff
    (env : Env) (cfg : config.Config) (op : CategoryOperation) (s : State) :
  let r := ProcessCategoryOperation env cfg (Some op) s in
  exists d,
    trace (snd r) = (trace s ++ d)%list
    /\ (observe.requests d <> []
        <-> ID (Payload op) <> ""
            /\ IsValidOperation (Operation op) = true
            /\ (Operation op = OperationCreate
                \/ Operation op = OperationUpdate ->
                Name (Payload op) <> "" /\ Description (Payload op) <> "")).
Proof.
  cbv zeta. unfold ProcessCategoryOperation.
  pose proof (validateOperation_spec op) as Hspec.
  destruct (validateOperation op) as [e | ].
  { eexists. cbn [fst snd trace emit]. rewrite <- app_assoc.
    split; [reflexivity | ]. cbn. split; [intros H; contradiction | ].
    intros (Hid & _ & Hfields).
    assert (Hnone : @None error = None) by reflexivity.
    destruct Hspec as [_ Hspec]. specialize (Hspec (conj Hid Hfields)).
    discriminate Hspec. }
  destruct Hspec as [Hspec _]. destruct (Hspec eq_refl) as [Hid Hfields].
  unfold processOperation, createCategory, updateCategory, deleteCategory,
    call, recordMetrics, IsValidOperation.
  destruct (Operation op =? OperationCreate)%string;
    [ | destruct (Operation op =? OperationUpdate)%string;
        [ | destruct (Operation op =? OperationDelete)%string ] ];
    cbn [orb].
  all: try match goal with
           | |- context [esClient ?e ?t ?q] => destruct (esClient e t q)
           end.
  all: cbn [fst snd trace emit String.eqb Ascii.eqb Bool.eqb];
    repeat rewrite <- app_assoc; cbn [app].
  all: eexists; (split; [reflexivity | ]); cbn.
  all: split;
    [ intros H;
      first [ exfalso; apply H; reflexivity
            | split; [exact Hid | split; [reflexivity | exact Hfields]] ]
    | intros (_ & Hvalid & _); first [discriminate Hvalid | discriminate] ].
Qed.

(** X25: [ConsumeClaim] consumes nothing behind the input that closes
    the claim: the messages that follow the closed channel or the end
    of the session are neither processed nor marked, and change
    neither the result nor the state. *)
Theorem ConsumeClaim_stops_at_close
    (env : Env) (cfg : config.Config) (dec : consumers.Decoder)
    (pre post : list consumers.ClaimInput) (i : consumers.ClaimInput)
    (s : State) :
  observe.closes i = true ->
  consumers.ConsumeClaim env cfg dec (pre ++ i :: post) s
  = consumers.ConsumeClaim env cfg dec (pre ++ [i]) s.
Proof.
  intros Hi. revert s.
  induction pre as [ | j pre IH]; intros s; cbn [app].
  { destruct i as [[m | ] | ]; [discriminate Hi | reflexivity | reflexivity]. }
  destruct j as [[m | ] | ]; [ | reflexivity | reflexivity].
  cbn [consumers.ConsumeClaim].
  destruct (consumers.processMessage env cfg dec m
              (emit (EvLog "Processing message") s)) as [r s1].
  destruct r as [[e | ] | | | ]; try reflexivity; apply IH.
Qed.

Lemma ConsumeClaim_stops_at_close_witness :
  consumers.ConsumeClaim (samples.refusing TimerFired)
    (samples.cfgWith "prod" 100 3) samples.garbled
    [consumers.Received (Some samples.message0); consumers.SessionDone;
     consumers.Received (Some samples.message0)]
    samples.idle
  = consumers.ConsumeClaim (samples.refusing TimerFired)
      (samples.cfgWith "prod" 100 3) samples.garbled
      [consumers.Received (Some samples.message0); consumers.SessionDone]
      samples.idle.
Proof.
  apply (ConsumeClaim_stops_at_close (samples.refusing TimerFired)
           (samples.cfgWith "prod" 100 3) samples.garbled
           [consumers.Received (Some samples.message0)]
           [consumers.Received (Some samples.message0)]
           consumers.SessionDone samples.idle).
  reflexivity.
Defined.

(** ** Requests the store accepts *)

Section Acceptance.

Import trace.

Variable env : Env.
Variable cfg : config.Config.

Local Abbreviation maxRetries :=
  (config.MaxRetries (config.Custom (config.Sync cfg))).

(** An exchange in which the store refused the request. *)
Local Abbreviation refused := (fun x : Request * option error => snd x <> None).

(** An accepted request that follows refused ones only is the last
    exchange of the list. *)
Lemma accepted_is_last (pre pre' post' : list (Request * option error))
    (q q' : Request) :
  Forall refused pre ->
  (pre ++ [(q, None)] = pre' ++ (q', None) :: post')%list ->
  post' = [].
Proof.
  intros Hpre. revert pre'.
  induction Hpre as [ | x pre Hx Hpre IH]; intros pre' Heq.
  - destruct pre' as [ | y pre']; cbn in Heq.
    + inversion Heq. reflexivity.
    + inversion Heq as [[Hy Hnil]]. destruct pre'; discriminate Hnil.
  - destruct pre' as [ | y pre']; cbn in Heq.
    + inversion Heq as [[Hy Hrest]]. subst x. exfalso. apply Hx. reflexivity.
    + inversion Heq as [[Hy Hrest]]. exact (IH pre' Hrest).
Qed.

Lemma refused_not_accepted (l pre' post' : list (Request * option error))
    (q' : Request) :
  Forall refused l -> l <> (pre' ++ (q', None) :: post')%list.
Proof.
  intros Hl Heq. subst l. apply Forall_app in Hl. destruct Hl as [_ Hl].
  inversion Hl as [ | x l' Hx _]; subst. apply Hx. reflexivity.
Qed.

(** An entry into the dispatcher returns [nil] on one accepted request,
    and an error without any accepted request. *)
Lemma ProcessCategoryOperation_accepted
    (op : CategoryOperation) (s s' : State) (err : option error) :
  ProcessCategoryOperation env cfg (Some op) s = (err, s') ->
  exists d, trace s' = (trace s ++ d)%list
            /\ match err with
               | None => exists q, observe.exchanges d = [(q, None)]
               | Some _ => Forall refused (observe.exchanges d)
               end.
Proof.
  unfold ProcessCategoryOperation, processOperation, createCategory,
    updateCategory, deleteCategory, call, recordMetrics.
  destruct (validateOperation op).
  { intros H; inversion H; subst. eexists. cbn [trace emit].
    rewrite <- app_assoc. split; [reflexivity | constructor]. }
  destruct (Operation op =? OperationCreate)%string;
    [ | destruct (Operation op =? OperationUpdate)%string;
        [ | destruct (Operation op =? OperationDelete)%string ] ]; simpl.
  all: try match goal with
           | |- context [esClient env ?t ?r] => destruct (esClient env t r)
           end.
  all: intros H; inversion H; subst; clear H; simpl.
  all: repeat rewrite <- app_assoc; simpl.
  all: eexists; (split; [reflexivity | ]); cbn.
  all: first [ eexists; reflexivity
             | repeat constructor; cbn; discriminate ].
Qed.

(** The loop returns [nil], with the status SUCCESS, on the first
    request the store accepts, and otherwise an error after refused
    requests only. *)
Lemma retryLoop_accepted (fuel : nat) :
  forall (o : CategoryOperation) (attempt : Z) (lastErr : option error)
         (h : RetryHistory) (s : State) ret h' s',
    retryLoop env cfg fuel o attempt lastErr h s = Some (ret, h', s') ->
    exists delta,
      trace s' = (trace s ++ delta)%list
      /\ match ret with
         | None =>
             HistoryStatus h' = "SUCCESS"
             /\ exists pre q,
                  observe.exchanges delta = (pre ++ [(q, None)])%list
                  /\ Forall refused pre
         | Some _ => Forall refused (observe.exchanges delta)
         end.
Proof.
  induction fuel as [ | fuel IH]; intros o attempt lastErr h s ret h' s' H;
    [discriminate | ].
  cbn [retryLoop] in H.
  destruct (Z.ltb_spec attempt maxRetries) as [Hlt | Hge].
  2:{ inversion H; subst. exists []. rewrite app_nil_r.
      split; [reflexivity | constructor]. }
  destruct (ProcessCategoryOperation env cfg (Some o) s) as [err s1] eqn:Hp.
  destruct (ProcessCategoryOperation_accepted _ _ _ _ Hp) as (d & Ht & Hd).
  destruct err as [e | ].
  - match type of H with
    | context [selectWait env ?t ?dl] => destruct (selectWait env t dl)
    end.
    + inversion H; subst; clear H.
      eexists. cbn [trace emit]. rewrite Ht. repeat rewrite <- app_assoc.
      split; [reflexivity | ].
      rewrite exchanges_app. cbn. rewrite app_nil_r. exact Hd.
    + apply IH in H. destruct H as (delta & Hdl & Hret).
      exists (d ++ [EvLogError e "Retry attempt failed";
                    EvWait (calculateNextDelay env cfg attempt
                              (config.RetryDelay (config.Custom (config.Sync cfg))) s)
                           TimerFired] ++ delta)%list.
      split.
      { rewrite Hdl. cbn [trace emit]. rewrite Ht. repeat rewrite <- app_assoc.
        reflexivity. }
      rewrite !exchanges_app. cbn [observe.exchanges flat_map app].
      fold (observe.exchanges delta).
      destruct ret as [e' | ].
      * apply Forall_app. split; assumption.
      * destruct Hret as (Hst & pre & q & Hx & Hpre).
        split; [exact Hst | ].
        exists (observe.exchanges d ++ pre)%list, q.
        rewrite Hx, <- app_assoc. split; [reflexivity | ].
        apply Forall_app. split; assumption.
  - inversion H; subst; clear H.
    eexists. cbn [trace emit]. rewrite Ht. repeat rewrite <- app_assoc.
    split; [reflexivity | ].
    rewrite exchanges_app. cbn. rewrite app_nil_r.
    split; [reflexivity | ].
    destruct Hd as (q & Hq). exists [], q. split; [exact Hq | constructor].
Qed.

(** The call returns [nil] exactly when the last request it sent was
    accepted, all before it having been refused. *)
Lemma RetryWithBackoff_accepted (o : CategoryOperation) (s : State) :
  exists delta,
    trace (snd (RetryWithBackoff env cfg o s)) = (trace s ++ delta)%list
    /\ ((fst (RetryWithBackoff env cfg o s) = Return None
         /\ exists pre q,
              observe.exchanges delta = (pre ++ [(q, None)])%list
              /\ Forall refused pre)
        \/ (fst (RetryWithBackoff env cfg o s) <> Return None
            /\ Forall refused (observe.exchanges delta))).
Proof.
  destruct (RetryWithBackoff_run env cfg o s)
    as (ret & h & s1 & delta0 & Hloop & _ & _ & _ & _ & Hret).
  destruct (retryLoop_accepted _ _ _ _ _ _ _ _ _ Hloop) as (delta & Hd & Hcase).
  rewrite Hret.
  destruct ret as [e | ].
  - destruct (cleanup_trace (Some e) h s1) as (tl & Htl & Htlcase).
    exists (EvLog "Starting retry sequence" :: delta ++ tl)%list.
    split.
    { rewrite Htl, Hd. cbn [trace emit]. repeat rewrite <- app_assoc.
      reflexivity. }
    right. split.
    + unfold cleanup, recordFailedAttempt.
      destruct (HistoryStatus h =? "FAILED")%string; [ | discriminate].
      destruct (last (map Some (Attempts h)) None) as [a | ]; [ | discriminate].
      destruct (Error a); discriminate.
    + change (observe.exchanges (EvLog "Starting retry sequence" :: ?l))
        with (observe.exchanges l).
      rewrite exchanges_app.
      destruct Htlcase as [-> | ->]; cbn; rewrite app_nil_r; exact Hcase.
  - destruct Hcase as (Hst & pre & q & Hx & Hpre).
    rewrite cleanup_not_failed by (rewrite Hst; discriminate).
    exists (EvLog "Starting retry sequence" :: delta).
    split.
    { cbn [snd]. rewrite Hd. cbn [trace emit]. rewrite <- app_assoc.
      reflexivity. }
    left. split; [reflexivity | ].
    exists pre, q. split; [exact Hx | exact Hpre].
Qed.

End Acceptance.

(** X26: a message is written at most once. However often
    [processMessage] retries, the store accepts at most one request
    for the message, and that request is the last one sent: nothing
    follows an accepted request. [processMessage] returns [nil] (and
    the consumer marks the message) exactly when the last request was
    accepted. *)
Theorem processMessage_at_most_one_accepted_request
    (env : Env) (cfg : config.Config) (dec : consumers.Decoder)
    (message : consumers.ConsumerMessage) (s : State) :
  let r := consumers.processMessage env cfg dec message s in
  exists delta,
    trace (snd r) = (trace s ++ delta)%list
    /\ (forall pre q post,
          observe.exchanges delta = (pre ++ (q, None) :: post)%list ->
          post = [] /\ fst r = Return None)
    /\ (fst r = Return None ->
        exists pre q, observe.exchanges delta = (pre ++ [(q, None)])%list).
Proof.
  cbv zeta.
  assert (Hnone : forall (res : Result) (s0 : State),
            res <> Return None ->
            exists delta,
              trace s0 = (trace s0 ++ delta)%list
              /\ (forall pre q post,
                    observe.exchanges delta = (pre ++ (q, None) :: post)%list ->
                    post = [] /\ res = Return None)
              /\ (res = Return None ->
                  exists pre q,
                    observe.exchanges delta = (pre ++ [(q, None)])%list)).
  { intros res s0 Hres. exists []. rewrite app_nil_r.
    split; [reflexivity | ]. split; [ | contradiction].
    intros pre q post Heq. destruct pre; discriminate Heq. }
  unfold consumers.processMessage.
  destruct (consumers.unmarshalEvent dec (consumers.Value message))
    as [err | event]; [apply Hnone; discriminate | ].
  destruct (consumers.validateMessage event) as [err | ];
    [apply Hnone; discriminate | ].
  destruct (consumers.decodeCategory dec
              (consumers.mapOperation (consumers.Op (consumers.Payload event)))
              event) as [err | c]; [apply Hnone; discriminate | ].
  clear Hnone.
  match goal with
  | |- context [ProcessCategoryOperation env cfg (Some ?o) s] =>
      set (op := o);
      destruct (ProcessCategoryOperation env cfg (Some op) s) as [err s1] eqn:Hp
  end.
  destruct (ProcessCategoryOperation_accepted _ _ _ _ _ _ Hp) as (d & Ht & Hd).
  destruct err as [e | ].
  - destruct (IsRetryableError e).
    + unfold RetryOperation.
      destruct (RetryWithBackoff_accepted env cfg op s1) as (delta & Hdl & Hcase).
      exists (d ++ delta)%list.
      split; [rewrite Hdl, Ht, <- app_assoc; reflexivity | ].
      rewrite exchanges_app.
      destruct Hcase as [(Hret & pre & q & Hx & Hpre) | (Hret & Hall)].
      * split.
        { intros pre' q' post' Heq. split; [ | exact Hret].
          rewrite Hx, app_assoc in Heq.
          apply (accepted_is_last _ _ _ _ _ (proj2 (Forall_app _ _ _)
                                               (conj Hd Hpre)) Heq). }
        intros _. exists (observe.exchanges d ++ pre)%list, q.
        rewrite Hx, <- app_assoc. reflexivity.
      * split; [ | intros Hnil; contradiction].
        intros pre' q' post' Heq. exfalso.
        apply (refused_not_accepted _ pre' post' q'
                 (proj2 (Forall_app _ _ _) (conj Hd Hall))).
        exact Heq.
    + exists d. cbn [fst snd]. split; [exact Ht | ].
      split; [ | discriminate].
      intros pre' q' post' Heq. exfalso.
      exact (refused_not_accepted _ pre' post' q' Hd Heq).
  - exists d. cbn [fst snd]. split; [exact Ht | ].
    destruct Hd as (q & Hq). rewrite Hq.
    split.
    + intros pre' q' post' Heq. split; [ | reflexivity].
      apply (accepted_is_last [] pre' post' q q' (Forall_nil _)). exact Heq.
    + intros _. exists [], q. reflexivity.
Qed.
